(** * The NAU83G60 DSP mailbox protocol (nau8360-dsp.c), embedded in Rocq

    The driver talks to each DSP core through one mailbox register.  This
    file embeds the idle wait, the message encoder, the reply decoder, the
    command dispatcher and the chunked KCS uploader of the driver as
    executable functions over an explicit register-device state, and proves
    the protocol properties over them.  The NAU83G10/20 driver
    (nau8310-dsp.c) has the same functions with the same loops; it differs
    in the mailbox address being fixed, in the command table (SetKcsSetup
    has no reply data there), in the decoder polling for one preamble only
    whatever the command, in the read-back cap (1023 instead of 1024) and
    in returning -EINVAL where this driver returns -EFAULT or -ERANGE.

    Conventions of the embedding.
    - C [int] values are [Z]; the statements keep every quantity far inside
      the 32-bit range, where C arithmetic and [Z] arithmetic agree.
      Stores into [u8] objects are truncated with [u8], as the C store is.
    - [u8 data[4]] viewed through [unsigned int *value] is the record
      [frag]; the word seen through the pointer is the little-endian
      combination of the four bytes (the layout the driver relies on).
    - A pointer that may be NULL is an [option]; a byte buffer is a
      [list Z]; a pointer into a buffer is the buffer and a byte offset.
    - [regmap_read] is answered by an oracle: the k-th read of a run
      returns the pair (return code, value) the oracle holds for k.  Every
      deterministic device is such an oracle, so a statement for all
      oracles is a statement for all devices.  Every access is appended to
      a trace, from which the written words are read off.
    - Delays ([mdelay]) and log messages are left out. *)

From Stdlib Require Import ZArith List Bool Lia.
Import ListNotations.
Local Open Scope Z_scope.

(** ** Constants *)

(** Linux errno numbers the driver returns (asm-generic/errno-base.h,
    asm-generic/errno.h). *)
Module Errno.
Definition EIO : Z := 5.
Definition EFAULT : Z := 14.
Definition EINVAL : Z := 22.
Definition ERANGE : Z := 34.
Definition EPROTO : Z := 71.
End Errno.
Import Errno.

(** nau8360-dsp.h *)
Definition NAU8360_DSP_COMM_IDLE_WORD : Z := 0xf4f3f2f1.
Definition NAU8360_DSP_COMM_PREAMBLE : Z := 0xb2a1.
Definition NAU8360_DSP_DATA_BYTE : Z := 4.
Definition NAU8360_DSP_KCS_TX_MAX : Z := 96.
Definition NAU8360_DSP_RETRY_MAX : Z := 3.
Definition NAU8360_DSP_KCS_DAT_LEN_MAX : Z := 1024.
Definition NAU8360_DSP_KCS_OFFSET_MAX : Z := 3072.
Definition NAU8360_DSP_IDLE_RETRY : nat := 10.

Definition NAU8360_DSP_REPLY_OK : Z := 0.
Definition NAU8360_DSP_REPLY_MSG_INTEGRETY_ERR : Z := 1.
Definition NAU8360_DSP_REPLY_EXECUTION_ERR : Z := 2.
Definition NAU8360_DSP_REPLY_COMMAND_DOESNT_EXISTS_ERR : Z := 3.
Definition NAU8360_DSP_REPLY_UNKNOWN_ERR : Z := 4.
Definition NAU8360_DSP_REPLY_MSG_TOO_LONG : Z := 5.

Definition NAU8360_DSP_CMD_GET_COUNTER : Z := 0x1.
Definition NAU8360_DSP_CMD_GET_FRAME_STATUS : Z := 0x9.
Definition NAU8360_DSP_CMD_GET_REVISION : Z := 0xa.
Definition NAU8360_DSP_CMD_GET_KCS_RSLTS : Z := 0x4.
Definition NAU8360_DSP_CMD_GET_KCS_SETUP : Z := 0x6.
Definition NAU8360_DSP_CMD_SET_KCS_SETUP : Z := 0x7.
Definition NAU8360_DSP_CMD_CLK_STOP : Z := 0xb.
Definition NAU8360_DSP_CMD_CLK_RESTART : Z := 0xc.

(** ** Bytes and words *)

Definition u8 (x : Z) : Z := x mod 256.
Definition u32 (x : Z) : Z := x mod 2 ^ 32.

(** [u8 data[4]], also read and written as one [unsigned int]. *)
Record frag : Type := mkFrag { b0 : Z; b1 : Z; b2 : Z; b3 : Z }.

Definition frag_zero : frag := mkFrag 0 0 0 0.

(** [*value] for [value = (unsigned int * )data]. *)
Definition word_of_frag (d : frag) : Z :=
  b0 d + 2 ^ 8 * b1 d + 2 ^ 16 * b2 d + 2 ^ 24 * b3 d.

(** [*(unsigned int * )&buf[0] = w]. *)
Definition frag_of_word (w : Z) : frag :=
  mkFrag (w mod 256) ((w / 2 ^ 8) mod 256) ((w / 2 ^ 16) mod 256)
         ((w / 2 ^ 24) mod 256).

(** [data[k] = v] for k in 0..3. *)
Definition set_byte (d : frag) (k : Z) (v : Z) : frag :=
  if k =? 0 then mkFrag (u8 v) (b1 d) (b2 d) (b3 d)
  else if k =? 1 then mkFrag (b0 d) (u8 v) (b2 d) (b3 d)
  else if k =? 2 then mkFrag (b0 d) (b1 d) (u8 v) (b3 d)
  else mkFrag (b0 d) (b1 d) (b2 d) (u8 v).

Definition get_byte (d : frag) (k : Z) : Z :=
  if k =? 0 then b0 d else if k =? 1 then b1 d
  else if k =? 2 then b2 d else b3 d.

Definition frag_bytes (d : frag) : list Z := [b0 d; b1 d; b2 d; b3 d].

(** ** The register device *)

Inductive event : Type :=
| EvRead (addr ret val : Z)
| EvWrite (addr val : Z).

Record dev : Type := mkDev {
  oracle : nat -> Z * Z;   (* outcome of the k-th regmap_read: (ret, value) *)
  nreads : nat;            (* reads performed so far *)
  trace : list event       (* every access so far, oldest first *)
}.

Definition regmap_read (addr : Z) (d : dev) : (Z * Z) * dev :=
  let ret := fst (oracle d (nreads d)) in
  let val := u32 (snd (oracle d (nreads d))) in
  ((ret, val),
   mkDev (oracle d) (S (nreads d)) (trace d ++ [EvRead addr ret val])).

(** The driver never looks at the return value of a write. *)
Definition snd_soc_component_write (addr val : Z) (d : dev) : dev :=
  mkDev (oracle d) (nreads d) (trace d ++ [EvWrite addr val]).

Definition written (d : dev) : list Z :=
  flat_map (fun e => match e with EvWrite _ v => [v] | EvRead _ _ _ => [] end)
           (trace d).

(** ** Command table *)

Record nau8360_cmd_info : Type := mkCmd {
  cmd_id : Z;
  msg_param : bool;    (* parameters include offset, size, and data *)
  setup_data : bool;   (* data for write only *)
  reply_data : bool    (* get data from dsp *)
}.

Definition nau8360_dsp_commands (id : Z) : bool :=
  (id =? NAU8360_DSP_CMD_GET_COUNTER) || (id =? NAU8360_DSP_CMD_GET_FRAME_STATUS)
  || (id =? NAU8360_DSP_CMD_GET_REVISION) || (id =? NAU8360_DSP_CMD_GET_KCS_RSLTS)
  || (id =? NAU8360_DSP_CMD_GET_KCS_SETUP) || (id =? NAU8360_DSP_CMD_SET_KCS_SETUP)
  || (id =? NAU8360_DSP_CMD_CLK_STOP) || (id =? NAU8360_DSP_CMD_CLK_RESTART).

(** [nau8360_dsp_cmd_table[id]]; slots the initialiser does not name are
    zero-filled. *)
Definition nau8360_dsp_cmd_table (id : Z) : nau8360_cmd_info :=
  if id =? NAU8360_DSP_CMD_GET_COUNTER then mkCmd id false false true
  else if id =? NAU8360_DSP_CMD_GET_FRAME_STATUS then mkCmd id false false true
  else if id =? NAU8360_DSP_CMD_GET_REVISION then mkCmd id false false true
  else if id =? NAU8360_DSP_CMD_GET_KCS_RSLTS then mkCmd id true false true
  else if id =? NAU8360_DSP_CMD_GET_KCS_SETUP then mkCmd id true false true
  else if id =? NAU8360_DSP_CMD_SET_KCS_SETUP then mkCmd id true true true
  else if id =? NAU8360_DSP_CMD_CLK_STOP then mkCmd id false false false
  else if id =? NAU8360_DSP_CMD_CLK_RESTART then mkCmd id false false false
  else mkCmd 0 false false false.

(** ** Register channel: waiting for the idle pattern *)

(** The [for (retries = ...; retries > 0; retries--)] loop of
    [nau8360_dsp_idle] together with the [retries == 0] test after it. *)
Fixpoint dsp_idle_loop (retries : nat) (dsp_addr : Z) (d : dev) : Z * dev :=
  match retries with
  | O => (- EIO, d)
  | S r =>
      let '((ret, idle_pattern), d1) := regmap_read dsp_addr d in
      if negb (ret =? 0) then (ret, d1)
      else if idle_pattern =? NAU8360_DSP_COMM_IDLE_WORD then (0, d1)
      else dsp_idle_loop r dsp_addr d1
  end.

Definition nau8360_dsp_idle (dsp_addr : Z) (d : dev) : Z * dev :=
  dsp_idle_loop NAU8360_DSP_IDLE_RETRY dsp_addr d.

(** ** Frame encoder *)

(** State of the setup-data loop of [nau8360_massage_to_dsp]. *)
Record enc_state : Type := mkEnc {
  e_data : frag;
  e_data_size : Z;
  e_frag_cnt : Z;
  e_dev : dev
}.

(** [for (...; i < param_size; i++)]: [n] iterations are left, the next
    index is [i].  Reading [b_data] past the end of the list (undefined in
    C) yields 0. *)
Fixpoint setup_loop (n : nat) (i : Z) (b_data : list Z) (dsp_addr : Z)
    (st : enc_state) : enc_state :=
  match n with
  | O => st
  | S n' =>
      let data :=
        set_byte (e_data st) (Z.rem i NAU8360_DSP_DATA_BYTE)
                 (nth (Z.to_nat i) b_data 0) in
      let data_size := e_data_size st + 1 in
      let st' :=
        if data_size =? NAU8360_DSP_DATA_BYTE then
          mkEnc frag_zero 0 (e_frag_cnt st + 1)
                (snd_soc_component_write dsp_addr (word_of_frag data) (e_dev st))
        else mkEnc data data_size (e_frag_cnt st) (e_dev st) in
      setup_loop n' (i + 1) b_data dsp_addr st'
  end.

Definition preamble_frag (cmd frag_len : Z) : frag :=
  mkFrag (u8 NAU8360_DSP_COMM_PREAMBLE)
         (u8 (Z.shiftr NAU8360_DSP_COMM_PREAMBLE 8))
         (u8 (Z.lor (Z.shiftl cmd 2) (Z.land frag_len 0x3)))
         (u8 (Z.shiftr frag_len 2)).

Definition param_frag (param_offset param_size : Z) : frag :=
  mkFrag (u8 param_offset) (u8 (Z.shiftr param_offset 8))
         (u8 param_size) (u8 (Z.shiftr param_size 8)).

Definition trailer_frag (frag_cnt padding : Z) : frag :=
  mkFrag (u8 frag_cnt)
         (u8 (Z.lor (Z.shiftl (Z.shiftr frag_cnt 8) 6) (Z.shiftl padding 4)))
         0 0.

Definition nau8360_massage_to_dsp (cmd_info : nau8360_cmd_info)
    (frag_len param_offset param_size : Z) (param_data : option (list Z))
    (dsp_addr : Z) (d : dev) : Z * dev :=
  let '(ret, d) := nau8360_dsp_idle dsp_addr d in
  if negb (ret =? 0) then (ret, d)
  else
    (* sending preamble fragment *)
    let d := snd_soc_component_write dsp_addr
               (word_of_frag (preamble_frag (cmd_id cmd_info) frag_len)) d in
    if negb (msg_param cmd_info) then (0, d)
    else
      (* sending payload + padding *)
      let d := snd_soc_component_write dsp_addr
                 (word_of_frag (param_frag param_offset param_size)) d in
      let frag_cnt := 1 in
      let '(padding, frag_cnt, d) :=
        if setup_data cmd_info then
          let b_data := match param_data with Some l => l | None => [] end in
          let st := setup_loop (Z.to_nat param_size) 0 b_data dsp_addr
                               (mkEnc frag_zero 0 frag_cnt d) in
          if (0 <? e_data_size st) && (e_data_size st <? NAU8360_DSP_DATA_BYTE)
          then
            (* sending the data fragments with padding bytes *)
            (NAU8360_DSP_DATA_BYTE - e_data_size st, e_frag_cnt st + 1,
             snd_soc_component_write dsp_addr (word_of_frag (e_data st)) (e_dev st))
          else (0, e_frag_cnt st, e_dev st)
        else (0, frag_cnt, d) in
      (* sending trailing fragment *)
      let frag_cnt := frag_cnt + 1 in
      let d := snd_soc_component_write dsp_addr
                 (word_of_frag (trailer_frag frag_cnt padding)) d in
      if negb (frag_cnt =? frag_len) then (- EPROTO, d) else (0, d).

(** ** Frame decoder *)

(** [b[0] == (PREAMBLE & 0xff) && b[1] == (PREAMBLE >> 8)] *)
Definition has_preamble (b : frag) : bool :=
  (b0 b =? Z.land NAU8360_DSP_COMM_PREAMBLE 0xff)
  && (b1 b =? Z.shiftr NAU8360_DSP_COMM_PREAMBLE 8).

(** [*length = b[2] & 0x3; *length |= b[3] << 2;] *)
Definition preamble_length (b : frag) : Z :=
  Z.lor (Z.land (b2 b) 0x3) (Z.shiftl (b3 b) 2).

(** [reply_id = b[2] >> 2;] *)
Definition preamble_reply_id (b : frag) : Z := Z.shiftr (b2 b) 2.

(** The polling loop of [nau8360_dsp_replied] with the tests after it.
    The result is (return value, [*length]); [*length] is written only when
    a preamble is seen, and no caller reads it otherwise (0 stands for the
    untouched value). *)
Fixpoint dsp_replied_loop (retries : nat) (dsp_addr : Z) (d : dev)
    : Z * Z * dev :=
  match retries with
  | O => (- EIO, 0, d)
  | S r =>
      let '((ret, reply_preamble), d1) := regmap_read dsp_addr d in
      if negb (ret =? 0) then (ret, 0, d1)
      else
        let b := frag_of_word reply_preamble in
        if has_preamble b then
          let length := preamble_length b in
          let reply_id := preamble_reply_id b in
          if reply_id =? NAU8360_DSP_REPLY_OK then (0, length, d1)
          else (- reply_id, length, d1)
        else dsp_replied_loop r dsp_addr d1
  end.

Definition nau8360_dsp_replied (dsp_addr : Z) (d : dev) : Z * Z * dev :=
  dsp_replied_loop NAU8360_DSP_IDLE_RETRY dsp_addr d.

(** Caller buffer: bytes, addressed by a byte offset.  A store outside the
    buffer (undefined in C) is dropped. *)
Definition store_byte (buf : list Z) (pos : nat) (v : Z) : list Z :=
  if (pos <? length buf)%nat
  then firstn pos buf ++ u8 v :: skipn (S pos) buf
  else buf.

(** [*(unsigned int * )p = w] at byte offset [pos]. *)
Definition store_word (buf : list Z) (pos : nat) (w : Z) : list Z :=
  let b := frag_of_word w in
  store_byte (store_byte (store_byte (store_byte buf pos (b0 b))
    (pos + 1) (b1 b)) (pos + 2) (b2 b)) (pos + 3) (b3 b).

(** The value built by [*data_buf = b[0]; *data_buf |= b[1] << 8; ...]. *)
Definition le32 (b : frag) : Z :=
  Z.lor (Z.lor (Z.lor (b0 b) (Z.shiftl (b1 b) 8)) (Z.shiftl (b2 b) 16))
        (Z.shiftl (b3 b) 24).

(** [for (j = 0; j < NAU8360_DSP_DATA_BYTE; j++)] of the short last
    fragment: [n] iterations left, next index [j]. *)
Fixpoint copy_loop (n : nat) (j : Z) (b : frag) (pos : nat) (buf : list Z)
    (data_count : Z) : list Z * Z :=
  match n with
  | O => (buf, data_count)
  | S n' =>
      let buf := store_byte buf (pos + Z.to_nat j) (get_byte b j) in
      let data_count := data_count - 1 in
      if data_count <=? 0 then (buf, data_count)
      else copy_loop n' (j + 1) b pos buf data_count
  end.

Record dec_state : Type := mkDec {
  d_pos : nat;        (* data_buf, as a byte offset into the caller buffer *)
  d_count : Z;        (* data_count *)
  d_buf : list Z;     (* the caller buffer *)
  d_dev : dev
}.

(** The payload loop of [nau8360_reply_from_dsp]: [n] fragments left to
    read.  The first component is the failing [regmap_read] return value,
    or 0 when the loop ends normally or by [break]. *)
Fixpoint payload_loop (n : nat) (cmd_info : nau8360_cmd_info) (dsp_addr : Z)
    (st : dec_state) : Z * dec_state :=
  match n with
  | O => (0, st)
  | S n' =>
      let '((ret, payload), d1) := regmap_read dsp_addr (d_dev st) in
      if negb (ret =? 0) then (ret, mkDec (d_pos st) (d_count st) (d_buf st) d1)
      else if msg_param cmd_info then
        if NAU8360_DSP_DATA_BYTE <=? d_count st then
          payload_loop n' cmd_info dsp_addr
            (mkDec (d_pos st + 4) (d_count st - NAU8360_DSP_DATA_BYTE)
                   (store_word (d_buf st) (d_pos st) payload) d1)
        else
          let '(buf, cnt) :=
            copy_loop 4 0 (frag_of_word payload) (d_pos st) (d_buf st)
                      (d_count st) in
          (0, mkDec (d_pos st) cnt buf d1)
      else
        payload_loop n' cmd_info dsp_addr
          (mkDec (d_pos st) (d_count st)
                 (store_word (d_buf st) (d_pos st) (le32 (frag_of_word payload)))
                 d1)
  end.

Definition trailer_len_pos (b : frag) : Z :=
  Z.lor (b0 b) (Z.shiftl (Z.land (b1 b) 0xc0) 2).

Definition trailer_pad_len (b : frag) : Z :=
  Z.shiftr (Z.land (b1 b) 0x30) 4.

(** Everything of [nau8360_reply_from_dsp] after a preamble with reply-id
    OK announced [frag_len] fragments. *)
Definition reply_body (cmd_info : nau8360_cmd_info) (data_size : Z)
    (buf : list Z) (frag_len : Z) (dsp_addr : Z) (d : dev)
    : Z * list Z * dev :=
  let frag_payload_len := frag_len - 1 in
  (* data_count is set only for commands with parameters; nothing reads it
     otherwise *)
  let data_count := if msg_param cmd_info then data_size else 0 in
  let '(ret, st) :=
    payload_loop (Z.to_nat frag_payload_len) cmd_info dsp_addr
                 (mkDec 0 data_count buf d) in
  if negb (ret =? 0) then (ret, d_buf st, d_dev st)
  else
    let '((ret, payload), d1) := regmap_read dsp_addr (d_dev st) in
    if negb (ret =? 0) then (ret, d_buf st, d1)
    else
      let b := frag_of_word payload in
      let len_pos := trailer_len_pos b in
      if negb (len_pos =? frag_len) then (- EPROTO, d_buf st, d1)
      else
        let pad_len := trailer_pad_len b in
        let pad_len_exp :=
          if msg_param cmd_info
          then frag_payload_len * NAU8360_DSP_DATA_BYTE
               - (data_size - d_count st)
          else 0 in
        if negb (pad_len =? pad_len_exp) then (- EPROTO, d_buf st, d1)
        else (0, d_buf st, d1).

(** The second component is the caller buffer behind [data] after the
    call. *)
Definition nau8360_reply_from_dsp (cmd_info : nau8360_cmd_info)
    (data_size : Z) (data : option (list Z)) (dsp_addr : Z) (d : dev)
    : Z * option (list Z) * dev :=
  let after_reply (d : dev) :=
    match data with
    | None => (- EINVAL, data, d)
    | Some buf =>
        let '(ret, frag_len, d) := nau8360_dsp_replied dsp_addr d in
        if negb (ret =? 0) then (ret, data, d)
        else if frag_len =? 0 then (0, data, d)
        else
          let '(ret, buf, d) :=
            reply_body cmd_info data_size buf frag_len dsp_addr d in
          (ret, Some buf, d)
    end in
  if negb (reply_data cmd_info) then
    let '(ret, frag_len, d) := nau8360_dsp_replied dsp_addr d in
    if negb (ret =? 0) then (ret, data, d)
    else if frag_len =? 0 then (0, data, d)
    else after_reply d
  else after_reply d.

(** ** Command dispatcher *)

Record nau8360_kcs_setup : Type := mkKcs {
  set_len : Z;                      (* length bytes of data writen *)
  set_kcs_offset : Z;               (* address offset relative to set KCS start *)
  set_kcs_data : option (list Z);   (* address of data writen to KCS *)
  get_len : Z;                      (* length bytes from reply *)
  get_data : option (list Z)        (* address for reply data *)
}.

Definition is_null {A : Type} (p : option A) : bool :=
  match p with None => true | Some _ => false end.

(** The send-side fragment count computed by [nau8360_send_dsp_command]. *)
Definition message_frag_len (cmd_info : nau8360_cmd_info) (len : Z) : Z :=
  let frag_len := 0 in
  let frag_len := if msg_param cmd_info then frag_len + 1 + 1 else frag_len in
  if setup_data cmd_info
  then frag_len + Z.quot (len + NAU8360_DSP_DATA_BYTE - 1) NAU8360_DSP_DATA_BYTE
  else frag_len.

(** The component pointer is taken to be valid.  The second component of
    the result is the buffer behind [kcs_setup->get_data] after the call;
    the structure itself is never written. *)
Definition nau8360_send_dsp_command (cmd : Z)
    (kcs_setup : option nau8360_kcs_setup) (dsp_addr : Z) (d : dev)
    : Z * option (list Z) * dev :=
  match kcs_setup with
  | None => (- EINVAL, None, d)
  | Some ks =>
      if negb (nau8360_dsp_commands cmd) then (- EINVAL, get_data ks, d)
      else
        let cmd_info := nau8360_dsp_cmd_table cmd in
        if (msg_param cmd_info && (set_len ks =? 0))
           || (setup_data cmd_info && is_null (set_kcs_data ks))
           || (reply_data cmd_info && is_null (get_data ks))
        then (- EFAULT, get_data ks, d)
        else if (cmd =? NAU8360_DSP_CMD_GET_KCS_SETUP)
                && ((NAU8360_DSP_KCS_DAT_LEN_MAX <? set_len ks)
                    || (NAU8360_DSP_KCS_OFFSET_MAX <? set_kcs_offset ks))
        then (- ERANGE, get_data ks, d)
        else
          let frag_len := message_frag_len cmd_info (set_len ks) in
          let '(ret, d) :=
            nau8360_massage_to_dsp cmd_info frag_len (set_kcs_offset ks)
              (set_len ks) (set_kcs_data ks) dsp_addr d in
          if negb (ret =? 0) then (ret, get_data ks, d)
          else
            nau8360_reply_from_dsp cmd_info (get_len ks) (get_data ks)
                                   dsp_addr d
  end.

(** ** Chunked setup uploader *)

(** The uploader is written over the dispatcher it calls, so that the same
    loop can be run on the real dispatcher and on an observed one. *)
Section Uploader.
Context {S : Type}.
(** [send cmd kcs s]: one call of the dispatcher on the uploader's
    structure, at the session's mailbox address. *)
Variable send : Z -> nau8360_kcs_setup -> S -> Z * option (list Z) * S.

Record up_state : Type := mkUp {
  u_data_buf : list Z;            (* data_buf: the bytes from the cursor on *)
  u_addr_offset : Z;
  u_data_rem : Z;
  u_retries : Z;
  u_get_len : Z;                  (* kcs_setup->get_len *)
  u_get_data : option (list Z)    (* kcs_setup->get_data = &kcs_rst *)
}.

(** [while (data_rem)] of [nau8360_dsp_kcs_setup]; one unit of [fuel] per
    evaluation of the loop condition. *)
Fixpoint kcs_setup_loop (fuel : nat) (st : up_state) (s : S)
    : option (Z * S) :=
  match fuel with
  | O => None
  | Datatypes.S fuel' =>
      if u_data_rem st =? 0 then Some (0, s)
      else
        let data_len :=
          if NAU8360_DSP_KCS_TX_MAX <? u_data_rem st
          then NAU8360_DSP_KCS_TX_MAX else u_data_rem st in
        let ks := mkKcs data_len (u_addr_offset st) (Some (u_data_buf st))
                        (u_get_len st) (u_get_data st) in
        let '(ret, rst, s) := send NAU8360_DSP_CMD_SET_KCS_SETUP ks s in
        if ret <? 0 then
          if u_retries st <? NAU8360_DSP_RETRY_MAX then
            kcs_setup_loop fuel'
              (mkUp (u_data_buf st) (u_addr_offset st) (u_data_rem st)
                    (u_retries st + 1) (u_get_len st) rst) s
          else Some (ret, s)
        else
          let data_buf := skipn (Z.to_nat (u8 data_len)) (u_data_buf st) in
          let addr_offset := u_addr_offset st + data_len in
          let data_rem := u_data_rem st - data_len in
          (* checking KCS result *)
          let ks := mkKcs NAU8360_DSP_DATA_BYTE 0 (Some (u_data_buf st))
                          NAU8360_DSP_DATA_BYTE rst in
          let '(ret, rst, s) := send NAU8360_DSP_CMD_GET_KCS_RSLTS ks s in
          if ret <? 0 then Some (ret, s)
          else
            kcs_setup_loop fuel'
              (mkUp data_buf addr_offset data_rem (u_retries st)
                    NAU8360_DSP_DATA_BYTE rst) s
  end.

Definition kcs_setup_fuel (size : Z) : nat := Z.to_nat (Z.abs size) + 5.

(** [get_len0] and [kcs_rst0] are the indeterminate initial contents of
    the stack objects [kcs_setup_comp.get_len] and [kcs_rst]. *)
Definition dsp_kcs_setup (offset size : Z) (data : option (list Z))
    (get_len0 : Z) (kcs_rst0 : list Z) (s : S) : option (Z * S) :=
  match data with
  | None => Some (- EINVAL, s)
  | Some data_buf =>
      if (NAU8360_DSP_KCS_DAT_LEN_MAX <? size)
         || (NAU8360_DSP_KCS_OFFSET_MAX <? offset)
      then Some (- EINVAL, s)
      else
        kcs_setup_loop (kcs_setup_fuel size)
          (mkUp data_buf offset size 0 get_len0 (Some kcs_rst0)) s
  end.

(** Observation of the dispatcher calls (ghost state): each call is
    appended to a log together with its return value. *)
Record call : Type := mkCall {
  c_cmd : Z;
  c_kcs : nau8360_kcs_setup;
  c_ret : Z
}.

Definition observed (cmd : Z) (ks : nau8360_kcs_setup) (ls : list call * S)
    : Z * option (list Z) * (list call * S) :=
  let '(ret, rst, s) := send cmd ks (snd ls) in
  (ret, rst, (fst ls ++ [mkCall cmd ks ret], s)).
End Uploader.

Definition dispatch (dsp_addr : Z) (cmd : Z) (ks : nau8360_kcs_setup) (d : dev)
    : Z * option (list Z) * dev :=
  nau8360_send_dsp_command cmd (Some ks) dsp_addr d.

Definition nau8360_dsp_kcs_setup (offset size : Z) (data : option (list Z))
    (dsp_addr : Z) (get_len0 : Z) (kcs_rst0 : list Z) (d : dev)
    : option (Z * dev) :=
  dsp_kcs_setup (dispatch dsp_addr) offset size data get_len0 kcs_rst0 d.

(** The same upload with every dispatcher call logged. *)
Definition nau8360_dsp_kcs_setup_observed (offset size : Z)
    (data : option (list Z)) (dsp_addr : Z) (get_len0 : Z) (kcs_rst0 : list Z)
    (d : dev) : option (Z * (list call * dev)) :=
  dsp_kcs_setup (observed (dispatch dsp_addr)) offset size data get_len0
                kcs_rst0 ([], d).

(** ** Test devices *)

(** A device that answers the reads of a run from a list, then keeps
    answering with successful reads of 0. *)
Definition script (l : list (Z * Z)) : dev :=
  mkDev (fun k => nth k l (0, 0)) 0 [].

Definition ok (w : Z) : Z * Z := (0, w).

(** ** Reference descriptions used in the statements *)

(** The complete four-byte groups of a payload, as words. *)
Fixpoint full_words (l : list Z) : list Z :=
  match l with
  | a :: b :: c :: e :: tl =>
      word_of_frag (mkFrag (u8 a) (u8 b) (u8 c) (u8 e)) :: full_words tl
  | _ => []
  end.

(** The bytes left over after the complete groups (fewer than four). *)
Fixpoint tail_bytes (l : list Z) : list Z :=
  match l with
  | _ :: _ :: _ :: _ :: tl => tail_bytes tl
  | r => r
  end.

Definition frag_of_tail (r : list Z) : frag :=
  mkFrag (u8 (nth 0 r 0)) (u8 (nth 1 r 0)) (u8 (nth 2 r 0)) 0.

(** Four bytes per word in source order, the last word zero-filled. *)
Definition payload_words (l : list Z) : list Z :=
  full_words l ++
  match tail_bytes l with
  | [] => []
  | r => [word_of_frag (frag_of_tail r)]
  end.

Definition write_all (addr : Z) (ws : list Z) (d : dev) : dev :=
  fold_left (fun d w => snd_soc_component_write addr w d) ws d.

(** The bytes of a word sequence in transmission order. *)
Definition words_bytes (ws : list Z) : list Z :=
  flat_map (fun w => frag_bytes (frag_of_word w)) ws.

Definition is_byte (x : Z) : Prop := 0 <= x < 256.

(** [d'] is reached from [d] by reads alone. *)
Definition reads_only (d d' : dev) : Prop :=
  oracle d' = oracle d /\ written d' = written d /\ (nreads d <= nreads d')%nat.

(** The upcoming read number [j] succeeds and shows something else than
    the idle word. *)
Definition busy_read (d : dev) (j : nat) : Prop :=
  fst (oracle d (nreads d + j)) = 0 /\
  u32 (snd (oracle d (nreads d + j))) <> NAU8360_DSP_COMM_IDLE_WORD.

(** The upcoming read number [k] succeeds and shows the idle word. *)
Definition idle_read (d : dev) (k : nat) : Prop :=
  fst (oracle d (nreads d + k)) = 0 /\
  u32 (snd (oracle d (nreads d + k))) = NAU8360_DSP_COMM_IDLE_WORD.


(** The padding a payload needs to fill its last word. *)
Definition pad_of (l : list Z) : Z :=
  match tail_bytes l with
  | [] => 0
  | r => NAU8360_DSP_DATA_BYTE - Z.of_nat (length r)
  end.

(** The argument checks of [nau8360_send_dsp_command] on a non-NULL
    structure, in the order of the source: the value returned before any
    register access, or 0 when the request goes on to the mailbox. *)
Definition request_check (cmd : Z) (ks : nau8360_kcs_setup) : Z :=
  if negb (nau8360_dsp_commands cmd) then - EINVAL
  else
    let cmd_info := nau8360_dsp_cmd_table cmd in
    if (msg_param cmd_info && (set_len ks =? 0))
       || (setup_data cmd_info && is_null (set_kcs_data ks))
       || (reply_data cmd_info && is_null (get_data ks))
    then - EFAULT
    else if (cmd =? NAU8360_DSP_CMD_GET_KCS_SETUP)
            && ((NAU8360_DSP_KCS_DAT_LEN_MAX <? set_len ks)
                || (NAU8360_DSP_KCS_OFFSET_MAX <? set_kcs_offset ks))
    then - ERANGE
    else 0.

(** The upcoming read number [j] succeeds and shows a word that does not
    start with the preamble. *)
Definition skipped_read (d : dev) (j : nat) : Prop :=
  fst (oracle d (nreads d + j)) = 0 /\
  has_preamble (frag_of_word (u32 (snd (oracle d (nreads d + j))))) = false.

(** The upcoming read number [k] succeeds and shows the word [w], which
    starts with the preamble. *)
Definition preamble_read (d : dev) (k : nat) (w : Z) : Prop :=
  fst (oracle d (nreads d + k)) = 0 /\
  u32 (snd (oracle d (nreads d + k))) = w /\
  has_preamble (frag_of_word w) = true.

(** The upcoming read number [j] succeeds and shows the word [w]. *)
Definition good_read (d : dev) (j : nat) (w : Z) : Prop :=
  fst (oracle d (nreads d + j)) = 0 /\ u32 (snd (oracle d (nreads d + j))) = w.

(** ** Sample requests and devices *)

(** The structure the driver's control handlers pass for a fixed-width
    query, with a 4-byte result buffer. *)
Definition ks_query : nau8360_kcs_setup :=
  mkKcs 4 0 None 4 (Some [0; 0; 0; 0]).

(** A mailbox that never shows the idle word. *)
Definition dev_busy : dev := script [].

(** An idle DSP that answers a query with one payload word. *)
Definition dev_counter : dev :=
  script [ok 0xf4f3f2f1; ok 0x0002b2a1; ok 0x11223344; ok 2].

(** An idle DSP, then nothing but zero words. *)
Definition dev_idle : dev := script [ok 0xf4f3f2f1].

(** The message frame for SetKcsSetup, offset 0, payload 1..5, written to
    an idle DSP. *)
Definition frame_set5 : Z * dev :=
  nau8360_massage_to_dsp (nau8360_dsp_cmd_table NAU8360_DSP_CMD_SET_KCS_SETUP)
    4 0 5 (Some ([1; 2; 3; 4; 5] ++ [])) 0xF000 dev_idle.

(** A device that plays a list of words back, one per read. *)
Definition replay (ws : list Z) : dev := script (map ok ws).

(** An idle DSP that answers with reply-id 5 (message too long). *)
Definition dev_too_long : dev := script [ok 0xf4f3f2f1; ok 0x0014b2a1].

(** A read-back request for six bytes. *)
Definition ks_read6 : nau8360_kcs_setup :=
  mkKcs 6 0 None 6 (Some [0; 0; 0; 0; 0; 0]).

(** An idle DSP that answers the six-byte read-back with one payload word
    only, and a trailer that declares no padding. *)
Definition dev_short_reply : dev :=
  script [ok 0xf4f3f2f1; ok 0x0002b2a1; ok 0x44332211; ok 0x00000002].

(** The same short reply with a trailer that declares two padding bytes. *)
Definition dev_short_reply_pad2 : dev :=
  script [ok 0xf4f3f2f1; ok 0x0002b2a1; ok 0x44332211; ok 0x00002002].

(** ** The shape of an upload *)

(** [data_len] of one loop iteration. *)
Definition chunk_len (data_rem : Z) : Z :=
  if NAU8360_DSP_KCS_TX_MAX <? data_rem then NAU8360_DSP_KCS_TX_MAX
  else data_rem.

(** A chunk-write call for the chunk at the cursor. *)
Definition is_set_call (data_buf : list Z) (addr_offset data_rem : Z)
    (c : call) : Prop :=
  c_cmd c = NAU8360_DSP_CMD_SET_KCS_SETUP /\
  set_len (c_kcs c) = chunk_len data_rem /\
  set_kcs_offset (c_kcs c) = addr_offset /\
  set_kcs_data (c_kcs c) = Some data_buf.

(** A result-check call. *)
Definition is_check_call (c : call) : Prop :=
  c_cmd c = NAU8360_DSP_CMD_GET_KCS_RSLTS /\
  set_len (c_kcs c) = NAU8360_DSP_DATA_BYTE /\
  set_kcs_offset (c_kcs c) = 0 /\
  get_len (c_kcs c) = NAU8360_DSP_DATA_BYTE.

(** [upload_run data_buf addr_offset data_rem retries l ret]: from the loop
    state given by the first four arguments the upload makes the dispatcher
    calls [l], in this order, and returns [ret]. *)
Inductive upload_run : list Z -> Z -> Z -> Z -> list call -> Z -> Prop :=
| run_done buf off n :
    upload_run buf off 0 n [] 0
| run_retry buf off rem n c l ret :
    rem <> 0 -> is_set_call buf off rem c -> c_ret c < 0 ->
    n < NAU8360_DSP_RETRY_MAX ->
    upload_run buf off rem (n + 1) l ret ->
    upload_run buf off rem n (c :: l) ret
| run_abort buf off rem n c :
    rem <> 0 -> is_set_call buf off rem c -> c_ret c < 0 ->
    NAU8360_DSP_RETRY_MAX <= n ->
    upload_run buf off rem n [c] (c_ret c)
| run_check_failed buf off rem n c g :
    rem <> 0 -> is_set_call buf off rem c -> 0 <= c_ret c ->
    is_check_call g -> c_ret g < 0 ->
    upload_run buf off rem n [c; g] (c_ret g)
| run_next buf off rem n c g l ret :
    rem <> 0 -> is_set_call buf off rem c -> 0 <= c_ret c ->
    is_check_call g -> 0 <= c_ret g ->
    upload_run (skipn (Z.to_nat (u8 (chunk_len rem))) buf)
               (off + chunk_len rem) (rem - chunk_len rem) n l ret ->
    upload_run buf off rem n (c :: g :: l) ret.

Definition is_set (c : call) : bool := c_cmd c =? NAU8360_DSP_CMD_SET_KCS_SETUP.
Definition is_check (c : call) : bool := c_cmd c =? NAU8360_DSP_CMD_GET_KCS_RSLTS.
Definition succeeded (c : call) : bool := 0 <=? c_ret c.

(** The chunk writes that succeeded, and those that failed. *)
Definition ok_sets (l : list call) : list call :=
  filter (fun c => is_set c && succeeded c) l.
Definition failed_sets (l : list call) : list call :=
  filter (fun c => is_set c && negb (succeeded c)) l.

(** The bytes a chunk-write call carries. *)
Definition chunk_of (c : call) : list Z :=
  firstn (Z.to_nat (set_len (c_kcs c)))
         (match set_kcs_data (c_kcs c) with Some b => b | None => [] end).

(** Two calls for the same chunk. *)
Definition same_chunk (c c' : call) : Prop :=
  c_cmd c' = c_cmd c /\
  set_len (c_kcs c') = set_len (c_kcs c) /\
  set_kcs_offset (c_kcs c') = set_kcs_offset (c_kcs c) /\
  set_kcs_data (c_kcs c') = set_kcs_data (c_kcs c).

(** Every chunk write that succeeded is followed at once by a result
    check. *)
Fixpoint checks_follow (l : list call) : Prop :=
  match l with
  | [] => True
  | c :: l' =>
      (is_set c && succeeded c = true ->
       match l' with g :: _ => is_check g = true | [] => False end)
      /\ checks_follow l'
  end.

(** Every chunk write that failed and is not the last call is followed at
    once by a chunk write for the same chunk. *)
Fixpoint retries_follow (l : list call) : Prop :=
  match l with
  | [] => True
  | c :: l' =>
      (is_set c && negb (succeeded c) = true ->
       match l' with c' :: _ => same_chunk c c' | [] => True end)
      /\ retries_follow l'
  end.

(** A result check that failed is the last call. *)
Fixpoint failed_check_last (l : list call) : Prop :=
  match l with
  | [] => True
  | c :: l' =>
      (is_check c && negb (succeeded c) = true -> l' = [])
      /\ failed_check_last l'
  end.

(** Loop iterations the uploader may still need. *)
Definition need (st : up_state) : nat :=
  Z.to_nat (Z.abs (u_data_rem st)) + Z.to_nat (3 - u_retries st) + 1.

(** A DSP that is idle for every command, acknowledges a chunk write with
    an empty reply and answers a result check with one word. *)
Definition dev_coop : dev :=
  mkDev (fun k =>
           nth (k mod 6)
               [ok 0xf4f3f2f1; ok 0x0000b2a1;
                ok 0xf4f3f2f1; ok 0x0002b2a1; ok 0x00000001; ok 0x00000002]
               (0, 0))
        0 [].

(** The bytes 0, 1, ..., 199. *)
Definition data200 : list Z := map Z.of_nat (seq 0 200).

(** A DSP that answers the first chunk write with reply-id 1 (integrity
    error) and then behaves. *)
Definition dev_integrity_once : dev :=
  script [ok 0xf4f3f2f1; ok 0x0004b2a1;
          ok 0xf4f3f2f1; ok 0x0000b2a1;
          ok 0xf4f3f2f1; ok 0x0002b2a1; ok 0x00000001; ok 0x00000002].

(** A DSP whose reply to the first chunk write has a trailer that does not
    match its preamble, and which then behaves. *)
Definition dev_bad_trailer_once : dev :=
  script [ok 0xf4f3f2f1; ok 0x0001b2a1; ok 0x00000005;
          ok 0xf4f3f2f1; ok 0x0000b2a1;
          ok 0xf4f3f2f1; ok 0x0002b2a1; ok 0x00000001; ok 0x00000002].

(** What an observed call shows of itself: command, offset, length,
    return value. *)
Definition call_view (c : call) : Z * Z * Z * Z :=
  (c_cmd c, set_kcs_offset (c_kcs c), set_len (c_kcs c), c_ret c).

(** The log of an observed upload. *)
Definition calls_of (r : option (Z * (list call * dev))) : list call :=
  match r with Some (_, (l, _)) => l | None => [] end.

(** The return value of an observed upload. *)
Definition ret_of (r : option (Z * (list call * dev))) : option Z :=
  match r with Some (ret, _) => Some ret | None => None end.

(** A read-back request at the caps: 1024 bytes at offset 3072. *)
Definition ks_read_max : nau8360_kcs_setup :=
  mkKcs 1024 3072 None 1024 (Some (repeat 0 1024%nat)).

(** A result query with an offset beyond the cap. *)
Definition ks_query_far : nau8360_kcs_setup :=
  mkKcs 4 3073 None 4 (Some [0; 0; 0; 0]).

(** A chunk write of 1025 bytes, given to the dispatcher directly. *)
Definition ks_set_long : nau8360_kcs_setup :=
  mkKcs 1025 0 (Some (repeat 0 1025%nat)) 4 (Some [0; 0; 0; 0]).

(** A mailbox that shows the idle word at the third read. *)
Definition dev_idle_third : dev := script [ok 0; ok 0; ok 0xf4f3f2f1].

(** ** Accesses of a run *)

Definition ev_addr (e : event) : Z :=
  match e with EvRead a _ _ => a | EvWrite a _ => a end.

(** A register read that returned an error. *)
Definition failed_read (e : event) : bool :=
  match e with EvRead _ r _ => negb (r =? 0) | EvWrite _ _ => false end.

(** The write accesses of a trace, in order: (register, word). *)
Definition writes_of (es : list event) : list (Z * Z) :=
  flat_map (fun e => match e with
                     | EvWrite a v => [(a, v)]
                     | EvRead _ _ _ => []
                     end) es.

(** The registers a device has been accessed at so far. *)
Definition accessed (d : dev) : list Z := map ev_addr (trace d).

(** ** The callers of the dispatcher (nau8360-dsp.c) *)

(** The value of an [unsigned short] object that an [int] is converted
    to: the callers below hold the mailbox register in an [int dsp_addr]
    and hand it to the [unsigned short dsp_addr] of
    [nau8360_send_dsp_command] and [nau8360_dsp_kcs_setup]. *)
Definition u16 (x : Z) : Z := x mod 2 ^ 16.

(** [sizeof(int)] *)
Definition sizeof_int : Z := 4.

(** An [int] object as the four bytes it occupies, and back. *)
Definition int_bytes (v : Z) : list Z := frag_bytes (frag_of_word (u32 v)).

Definition int_of_bytes (l : list Z) : Z :=
  let w := word_of_frag (mkFrag (nth 0 l 0) (nth 1 l 0) (nth 2 l 0) (nth 3 l 0)) in
  if w <? 2 ^ 31 then w else w - 2 ^ 32.

(** The structure behind [kcs_setup] after a dispatcher call: the call
    writes no field, and leaves [buf] behind [get_data]. *)
Definition with_get_data (ks : nau8360_kcs_setup) (buf : option (list Z))
    : nau8360_kcs_setup :=
  mkKcs (set_len ks) (set_kcs_offset ks) (set_kcs_data ks) (get_len ks) buf.

(** [for (i = 0; i < NAU8360_DSP_FW_NUM; i++)] of
    [nau8360_send_dsp_broadcast], over the entries of [nau8360_dsp_addr]
    that are left. *)
Fixpoint send_dsp_broadcast_loop (addrs : list Z) (cmd_id : Z)
    (kcs_setup : option nau8360_kcs_setup) (d : dev)
    : Z * option (list Z) * dev :=
  match addrs with
  | [] => (0, match kcs_setup with Some ks => get_data ks | None => None end, d)
  | a :: rest =>
      let '(ret, buf, d) := nau8360_send_dsp_command cmd_id kcs_setup a d in
      if negb (ret =? 0) then (ret, buf, d)
      else
        send_dsp_broadcast_loop rest cmd_id
          (option_map (fun ks => with_get_data ks buf) kcs_setup) d
  end.

(** [nau8360_dsp_get_cmd_put]: the structure is a stack object of which
    only [get_len], [set_len] and [get_data] are assigned;
    [junk_offset] and [junk_data] are the indeterminate contents of
    [set_kcs_offset] and [set_kcs_data].  The second component of the
    result is the memory behind [value] after the call.  [dsp_addr] is an
    [int] here and an [unsigned short] in the dispatcher. *)
Definition nau8360_dsp_get_cmd_put (dsp_addr cmd : Z)
    (value : option (list Z)) (junk_offset : Z) (junk_data : option (list Z))
    (d : dev) : Z * option (list Z) * dev :=
  let kcs_setup := mkKcs sizeof_int junk_offset junk_data sizeof_int value in
  let '(ret, value, d) :=
    nau8360_send_dsp_command cmd (Some kcs_setup) (u16 dsp_addr) d in
  if negb (ret =? 0) then (ret, value, d) else (0, value, d).

(** include/sound/soc-dapm.h *)
Definition SND_SOC_DAPM_PRE_PMU : Z := 0x1.
Definition SND_SOC_DAPM_POST_PMD : Z := 0x8.

(** nau8360-dsp.h, FRAME_STATUS (0x9) *)
Definition NAU8360_DSP_ALGO_OK : Z := 0x1.

(** The indeterminate contents of the stack objects of
    [nau8360_dsp_chan_kcs_setup] and of the functions it calls. *)
Record chan_stack : Type := mkStack {
  k_status : Z;                     (* status *)
  k_offset : Z;                     (* kcs_setup_comp.set_kcs_offset of the query *)
  k_data : option (list Z);         (* kcs_setup_comp.set_kcs_data of the query *)
  k_get_len : Z;                    (* kcs_setup_comp.get_len of the upload *)
  k_kcs_rst : list Z                (* kcs_rst of the upload *)
}.

(** [nau8360_dsp_chan_kcs_setup].  [request_firmware] is the outcome of
    the kernel call of this name for [fw_name]: its return value, and the
    image behind [fw] on success ([fw->size] is its length: the firmware
    loader reads at most INT_MAX bytes, so that the size fits the [int]
    it is assigned to).  The state is the driver's [kcs_setup_size] and
    the device.  [dsp_addr] is an [int] here and in
    [nau8360_dsp_get_cmd_put], and an [unsigned short] in
    [nau8360_dsp_kcs_setup]. *)
Definition nau8360_dsp_chan_kcs_setup (request_firmware : Z * list Z)
    (dsp_addr : Z) (stack : chan_stack) (kcs_setup_size : Z) (d : dev)
    : option (Z * Z * dev) :=
  let '(ret, status, d) :=
    nau8360_dsp_get_cmd_put dsp_addr NAU8360_DSP_CMD_GET_FRAME_STATUS
      (Some (int_bytes (k_status stack))) (k_offset stack) (k_data stack) d in
  let status := match status with Some b => int_of_bytes b | None => 0 end in
  if negb (ret =? 0) || (Z.land status NAU8360_DSP_ALGO_OK =? 0)
  then Some (- EIO, kcs_setup_size, d)
  else
    let '(ret, fw_data) := request_firmware in
    if negb (ret =? 0) then Some (ret, kcs_setup_size, d)
    else
      let buf_off := 0 in
      let buf_len := Z.of_nat (length fw_data) in
      let kcs_setup_size := buf_len in
      match nau8360_dsp_kcs_setup buf_off buf_len (Some fw_data)
              (u16 dsp_addr) (k_get_len stack) (k_kcs_rst stack) d with
      | None => None
      | Some (ret, d) =>
          if negb (ret =? 0) then Some (ret, kcs_setup_size, d)
          else Some (0, kcs_setup_size, d)
      end.

(** The loop of [nau8360_dsp_set_kcs_setup] over the entries of
    [nau8360_dsp_addr] that are left, [i] being the index of the first.
    [firmware i] is the outcome of [request_firmware] for the name chosen
    for channel [i] (the configured one, or the default one), and
    [stack i] the stack contents of the i-th call. *)
Fixpoint set_kcs_setup_loop (addrs : list Z) (i : nat)
    (firmware : nat -> Z * list Z) (stack : nat -> chan_stack)
    (kcs_setup_size : Z) (d : dev) : option (Z * Z * dev) :=
  match addrs with
  | [] => Some (0, kcs_setup_size, d)
  | a :: rest =>
      match nau8360_dsp_chan_kcs_setup (firmware i) a (stack i)
              kcs_setup_size d with
      | None => None
      | Some (ret, kcs_setup_size, d) =>
          if negb (ret =? 0) then Some (ret, kcs_setup_size, d)
          else set_kcs_setup_loop rest (S i) firmware stack kcs_setup_size d
      end
  end.

(** include/sound/soc.h, [enum snd_soc_bias_level] *)
Definition SND_SOC_BIAS_STANDBY : Z := 1.

(** asm-generic/errno-base.h *)
Definition ENOMEM : Z := 12.

(** [nau8360_dsp_get_kcs_setup_put].  [value0] is
    [ucontrol->value.integer.value[0]], [bias_level] the value of
    [snd_soc_component_get_bias_level], [kcalloc n] the buffer the kernel
    call returns for [n] bytes (NULL, or [n] zero bytes), [dsp_addr] the
    [int] that holds the mailbox register the control's name stands for
    (an [unsigned short] in the dispatcher), and [junk_data] the
    indeterminate content of the field [set_kcs_data], which is never
    assigned. *)
Definition nau8360_dsp_get_kcs_setup_put (value0 bias_level : Z)
    (kcalloc : Z -> option (list Z)) (kcs_setup_size : Z)
    (junk_data : option (list Z)) (dsp_addr : Z) (d : dev) : Z * dev :=
  if value0 =? 0 then (0, d)
  else if SND_SOC_BIAS_STANDBY <? bias_level then (- EINVAL, d)
  else
    match kcalloc kcs_setup_size with
    | None => (- ENOMEM, d)
    | Some data =>
        if kcs_setup_size =? 0 then (- EINVAL, d)
        else
          let buf_off := 0 in
          let buf_len := kcs_setup_size in
          let kcs_setup := mkKcs buf_len buf_off junk_data buf_len (Some data) in
          let '(ret, _, d) :=
            nau8360_send_dsp_command NAU8360_DSP_CMD_GET_KCS_SETUP
              (Some kcs_setup) (u16 dsp_addr) d in
          (0, d)
    end.

(** The loop of [nau8360_dsp_set_kcs_setup_put] over the entries of
    [nau8360_dsp_addr] that are left, [i] being the index of the first. *)
Fixpoint set_kcs_setup_put_loop (addrs : list Z) (i : nat) (dsp_addr : Z)
    (firmware : nat -> Z * list Z) (stack : nat -> chan_stack)
    (kcs_setup_size : Z) (d : dev) : option (Z * Z * dev) :=
  match addrs with
  | [] => Some (0, kcs_setup_size, d)
  | a :: rest =>
      if negb (a =? dsp_addr)
      then set_kcs_setup_put_loop rest (S i) dsp_addr firmware stack
             kcs_setup_size d
      else
        match nau8360_dsp_chan_kcs_setup (firmware i) dsp_addr (stack i)
                kcs_setup_size d with
        | None => None
        | Some (ret, kcs_setup_size, d) =>
            if negb (ret =? 0) then Some (ret, kcs_setup_size, d)
            else set_kcs_setup_put_loop rest (S i) dsp_addr firmware stack
                   kcs_setup_size d
        end
  end.

(** The functions that name the mailbox registers.  nau8360.h, which
    numbers the registers, is not part of the sources at hand: the two
    macros are any two numbers here. *)
Section Channels.
Variables NAU8360_RF000_DSP_COMM NAU8360_RF002_DSP_COMM : Z.

(** [const unsigned short nau8360_dsp_addr[NAU8360_DSP_FW_NUM]]: two
    initialisers, one per DSP core, each converted to the element type. *)
Definition nau8360_dsp_addr : list Z :=
  [u16 NAU8360_RF000_DSP_COMM; u16 NAU8360_RF002_DSP_COMM].

Definition nau8360_send_dsp_broadcast (cmd_id : Z)
    (kcs_setup : option nau8360_kcs_setup) (d : dev)
    : Z * option (list Z) * dev :=
  send_dsp_broadcast_loop nau8360_dsp_addr cmd_id kcs_setup d.

(** [nau8360_dsp_clock_event]: [kcs_setup_comp] is a stack object that is
    never assigned; [junk] is what it holds. *)
Definition nau8360_dsp_clock_event (event : Z) (junk : nau8360_kcs_setup)
    (d : dev) : Z * dev :=
  let run (cmd : Z) :=
    let '(ret, _, d) := nau8360_send_dsp_broadcast cmd (Some junk) d in
    if negb (ret =? 0) then (ret, d) else (0, d) in
  if event =? SND_SOC_DAPM_PRE_PMU then run NAU8360_DSP_CMD_CLK_RESTART
  else if event =? SND_SOC_DAPM_POST_PMD then run NAU8360_DSP_CMD_CLK_STOP
  else (- EINVAL, d).

Definition nau8360_dsp_set_kcs_setup (firmware : nat -> Z * list Z)
    (stack : nat -> chan_stack) (kcs_setup_size : Z) (d : dev)
    : option (Z * Z * dev) :=
  set_kcs_setup_loop nau8360_dsp_addr 0 firmware stack kcs_setup_size d.

(** [nau8360_dsp_set_kcs_setup_put]; [value0], [bias_level] and
    [dsp_addr] as above. *)
Definition nau8360_dsp_set_kcs_setup_put (value0 bias_level dsp_addr : Z)
    (firmware : nat -> Z * list Z) (stack : nat -> chan_stack)
    (kcs_setup_size : Z) (d : dev) : option (Z * Z * dev) :=
  if value0 =? 0 then Some (0, kcs_setup_size, d)
  else if SND_SOC_BIAS_STANDBY <? bias_level
  then Some (- EINVAL, kcs_setup_size, d)
  else set_kcs_setup_put_loop nau8360_dsp_addr 0 dsp_addr firmware stack
         kcs_setup_size d.

(** [nau8360_dsp_init].  [add_controls], [new_controls] and [add_routes]
    are the return values of [snd_soc_add_component_controls],
    [snd_soc_dapm_new_controls] and [snd_soc_dapm_add_routes]; the state is
    the driver's [dsp_created] and [kcs_setup_size], and the device. *)
Definition nau8360_dsp_init (firmware : nat -> Z * list Z)
    (stack : nat -> chan_stack) (add_controls new_controls add_routes : Z)
    (dsp_created : bool) (kcs_setup_size : Z) (d : dev)
    : option (Z * bool * Z * dev) :=
  match nau8360_dsp_set_kcs_setup firmware stack kcs_setup_size d with
  | None => None
  | Some (ret, kcs_setup_size, d) =>
      if negb (ret =? 0) then Some (ret, dsp_created, kcs_setup_size, d)
      else
        let ret := add_controls in
        if negb (ret =? 0) then Some (ret, dsp_created, kcs_setup_size, d)
        else
          let ret := new_controls in
          if negb (ret =? 0) then Some (ret, dsp_created, kcs_setup_size, d)
          else
            let ret := add_routes in
            if negb (ret =? 0) then Some (ret, dsp_created, kcs_setup_size, d)
            else Some (0, true, kcs_setup_size, d)
  end.

(** [nau8360_dsp_reinit] *)
Definition nau8360_dsp_reinit (firmware : nat -> Z * list Z)
    (stack : nat -> chan_stack) (kcs_setup_size : Z) (d : dev)
    : option (Z * Z * dev) :=
  nau8360_dsp_set_kcs_setup firmware stack kcs_setup_size d.

(** *** The I2C framing of register accesses (nau8360.c) *)

Definition is_dsp_comm (reg : Z) : bool :=
  (reg =? NAU8360_RF000_DSP_COMM) || (reg =? NAU8360_RF002_DSP_COMM).

(** [buf[0..count-1]] as [nau8360_reg_write] fills it; [reg] and [value]
    are [unsigned int]. *)
Definition reg_write_buf (reg value : Z) : list Z :=
  [u8 (Z.shiftr reg 8); u8 reg] ++
  (if negb (is_dsp_comm reg) then
     (* format for G10, 2 bytes value and endian big *)
     [u8 (Z.shiftr value 8); u8 value]
   else
     (* format for DSP, 4 bytes value and native *)
     frag_bytes (frag_of_word value)).

(** [i2c_master_send buf] is the return value of the kernel call for the
    [count] bytes in [buf]. *)
Definition nau8360_reg_write (i2c_master_send : list Z -> Z) (reg value : Z)
    : Z :=
  let buf := reg_write_buf reg value in
  let count := Z.of_nat (length buf) in
  let ret := i2c_master_send buf in
  if ret =? count then 0
  else if ret <? 0 then ret
  else - EIO.

(** [i2c_transfer reg_buf len] is the return value of the kernel call for
    the two messages (write the two bytes [reg_buf], read [len] bytes) and
    the bytes read into [buf].  The second component of the result is
    [*value] after the call, [value0] being what it held before. *)
Definition nau8360_reg_read (i2c_transfer : list Z -> Z -> Z * list Z)
    (reg : Z) (value0 : Z) : Z * Z :=
  let reg_buf := [u8 (Z.shiftr reg 8); u8 reg] in   (* cpu_to_be16(reg) *)
  let len := if negb (is_dsp_comm reg) then 2 else 4 in
  let '(ret, b) := i2c_transfer reg_buf len in
  if ret <? 0 then (ret, value0)
  else if negb (ret =? 2) then (- EIO, value0)
  else if negb (is_dsp_comm reg) then
    (* parse for G10, 2 bytes value and endian big *)
    (0, Z.lor (nth 1 b 0) (Z.shiftl (nth 0 b 0) 8))
  else
    (* parse for DSP, 4 bytes value and native *)
    (0, word_of_frag (mkFrag (nth 0 b 0) (nth 1 b 0) (nth 2 b 0) (nth 3 b 0))).
End Channels.

(** ** Clock arithmetic (nau8360.c) *)

(** C division of [int]s truncates towards zero: [Z.quot]. *)

(** the maximum frequency of DAC and IV sense clock *)
Definition CLK_DA_IVSNS_MAX : Z := 6144000.

Definition ivsns_clk_div : list Z := [1; 2; 4; 5; 8; 10].
Definition dac_clk_div : list Z := [1; 2; 4; 8].

(** [for (clk_div = 0; clk_div <= div_max; clk_div++)] of [dyn_clk_div]:
    the value of [clk_div] when the loop is left. *)
Fixpoint dyn_clk_div_loop (n : nat) (clk_div div_max fin fout : Z) : Z :=
  match n with
  | O => clk_div
  | S n' =>
      if clk_div <=? div_max then
        if Z.quot fin (clk_div + 1) <=? fout then clk_div
        else dyn_clk_div_loop n' (clk_div + 1) div_max fin fout
      else clk_div
  end.

Definition dyn_clk_div (div_max fin fout : Z) : Z :=
  let clk_div :=
    dyn_clk_div_loop (Z.to_nat (div_max + 1) + 1) 0 div_max fin fout in
  if div_max <? clk_div then - EINVAL else clk_div.

(** [for (i = 0; i < num_div; i++)] of [tab_clk_div]: the value of [i]
    when the loop is left.  An entry read past the end of the table
    (undefined in C) reads as 0. *)
Fixpoint tab_clk_div_loop (n : nat) (i : Z) (clk_div : list Z)
    (num_div fin : Z) : Z :=
  match n with
  | O => i
  | S n' =>
      if i <? num_div then
        if Z.quot fin (nth (Z.to_nat i) clk_div 0) <=? CLK_DA_IVSNS_MAX then i
        else tab_clk_div_loop n' (i + 1) clk_div num_div fin
      else i
  end.

Definition tab_clk_div (clk_div : list Z) (num_div fin : Z) : Z :=
  let i := tab_clk_div_loop (Z.to_nat num_div + 1) 0 clk_div num_div fin in
  if i =? num_div then - EINVAL else i.

(** *** The PLL parameters *)

(** PLL threshold *)
Definition PLL_FREQ_MIN : Z := 1000000.
Definition PLL_FREQ_MAX : Z := 32000000.
Definition PLL_FOUT_MIN : Z := 12500000.
Definition PLL_FOUT_MAX : Z := 125000000.
Definition PLL_FREF_MAX : Z := 8000000.
Definition PLL_FVCO_MIN : Z := 50000000.
Definition MSEL_MAX : Z := 32.
Definition RSEL_MAX : Z := 4.

(** [struct nau8360_pll], the fields [nau8360_calc_pll] uses. *)
Record nau8360_pll : Type := mkPll {
  src : Z;
  input : Z;
  output : Z;
  msel : Z;
  rsel : Z;
  nsel : Z;
  xsel : Z
}.

(** [for (pll->msel = 1; pll->msel <= MSEL_MAX; pll->msel++)]: the values
    of [pll->msel] and [fref] when the loop is left. *)
Fixpoint msel_loop (n : nat) (m : Z) (inp : Z) : Z * Z :=
  match n with
  | O => (m, 0)
  | S n' =>
      if m <=? MSEL_MAX then
        let fr := Z.quot inp m in
        if fr <=? PLL_FREF_MAX then (m, fr mod 2 ^ 64)
        else msel_loop n' (m + 1) inp
      else (m, 0)
  end.

(** [for (pll->rsel = 1; pll->rsel <= RSEL_MAX; pll->rsel++)]: the values
    of [pll->rsel] and [fvco] when the loop is left. *)
Fixpoint rsel_loop (n : nat) (r : Z) (outp : Z) : Z * Z :=
  match n with
  | O => (r, 0)
  | S n' =>
      if r <=? RSEL_MAX then
        let fv := outp * r in
        if PLL_FVCO_MIN <=? fv then (r, fv mod 2 ^ 64)
        else rsel_loop n' (r + 1) outp
      else (r, 0)
  end.

(** [nau8360_calc_pll]; [internal] is the value of
    [NAU8360_PLL_INTERNAL].  [fref] and [fvco] are [u64], [div_u64] takes
    a 32-bit divisor. *)
Definition nau8360_calc_pll (internal : Z) (pll : nau8360_pll)
    : Z * nau8360_pll :=
  if negb (src pll =? internal)
     && ((PLL_FREQ_MAX <? input pll) || (input pll <? PLL_FREQ_MIN))
  then (- EINVAL, pll)
  else if (PLL_FOUT_MAX <? output pll) || (output pll <? PLL_FOUT_MIN)
  then (- EINVAL, pll)
  else
    let '(m, fref) := msel_loop (Z.to_nat MSEL_MAX + 1) 1 (input pll) in
    let pll := mkPll (src pll) (input pll) (output pll) m (rsel pll)
                     (nsel pll) (xsel pll) in
    if fref =? 0 then (- ERANGE, pll)
    else
      let '(r, fvco) := rsel_loop (Z.to_nat RSEL_MAX + 1) 1 (output pll) in
      let pll := mkPll (src pll) (input pll) (output pll) (msel pll) r
                       (nsel pll) (xsel pll) in
      if fvco =? 0 then (- ERANGE, pll)
      else
        (* Calculate the PLL 8-bit integer input and 12-bit fractional *)
        let ratio := (Z.shiftl fvco 12 mod 2 ^ 64) / (fref mod 2 ^ 32) in
        (0, mkPll (src pll) (input pll) (output pll) (msel pll) (rsel pll)
                  (Z.land (Z.shiftr ratio 12) 0xff) (Z.land ratio 0xfff)).

(** *** The sawtooth parameters *)

(** [nau8360_sawtooth_params]; the second and third components are
    [*vsaw_level] and [*vsaw_slope] after the call. *)
Definition nau8360_sawtooth_params (vbat : Z) (vsaw_level vsaw_slope : option Z)
    : Z * option Z * option Z :=
  if is_null vsaw_level || is_null vsaw_slope
  then (- EINVAL, vsaw_level, vsaw_slope)
  else if (24 <? vbat) || (vbat <? 8) then (- ERANGE, vsaw_level, vsaw_slope)
  else if vbat <? 13 then (0, Some 0x1, Some 0x0)
  else if vbat <? 19 then (0, Some 0x2, Some 0x1)
  else (0, Some 0x3, Some 0x2).

(** ** Shapes of access sequences *)

(** Reads of the register [addr] only. *)
Definition reads_on (addr : Z) (es : list event) : Prop :=
  Forall (fun e => exists r v, e = EvRead addr r v) es.

(** Writes to the register [addr] only. *)
Definition writes_on (addr : Z) (es : list event) : Prop :=
  Forall (fun e => exists v, e = EvWrite addr v) es.

(** No read of the sequence failed. *)
Definition clean (es : list event) : Prop :=
  Forall (fun e => failed_read e = false) es.

(** No read failed, or exactly one did: the last access, and [ret] is
    what it returned. *)
Definition stops_at_failure (ret : Z) (es : list event) : Prop :=
  clean es \/
  exists pre a v, es = pre ++ [EvRead a ret v] /\ clean pre /\ ret <> 0.

(** [d'] is reached from [d] by the accesses [es]. *)
Definition run_from (d d' : dev) (es : list event) : Prop :=
  oracle d' = oracle d /\ trace d' = trace d ++ es.

(** What a run of a function that only reads leaves in the trace: reads
    of [addr], the last of which failed with [ret] if one failed. *)
Definition read_run (addr ret : Z) (d d' : dev) : Prop :=
  exists es, run_from d d' es /\ reads_on addr es /\ stops_at_failure ret es.

(** What one exchange leaves in the trace: the reads of the idle wait, the
    writes of the request frame, the reads of the reply. *)
Definition exchange_run (addr ret : Z) (d d' : dev) : Prop :=
  exists es1 ws es2,
    run_from d d' (es1 ++ ws ++ es2) /\
    reads_on addr es1 /\ writes_on addr ws /\ reads_on addr es2 /\
    stops_at_failure ret (es1 ++ ws ++ es2).

(** [d'] is reached from [d] by accesses of the register [addr] only. *)
Definition run_at (addr : Z) (d d' : dev) : Prop :=
  exists es, run_from d d' es /\ Forall (fun e => ev_addr e = addr) es.

(** What [nau8360_calc_pll] leaves in the structure when it succeeds:
    the least dividers and the 8.12 fixed-point ratio. *)
Definition pll_settled (pll p : nau8360_pll) : Prop :=
  src p = src pll /\ input p = input pll /\ output p = output pll /\
  1 <= msel p <= MSEL_MAX /\
  1 <= input pll / msel p <= PLL_FREF_MAX /\
  (forall k, 1 <= k < msel p -> PLL_FREF_MAX < input pll / k) /\
  1 <= rsel p <= RSEL_MAX /\
  PLL_FVCO_MIN <= output pll * rsel p <= PLL_FOUT_MAX /\
  (forall k, 1 <= k < rsel p -> output pll * k < PLL_FVCO_MIN) /\
  xsel p = (output pll * rsel p * 4096 / (input pll / msel p)) mod 4096 /\
  nsel p = (output pll * rsel p * 4096 / (input pll / msel p) / 4096) mod 256.

(** ** The NAU83G10/20 DSP driver (nau8310-dsp.c)

    The structures [nau8310_cmd_info] and [nau8310_kcs_setup] have the
    fields of their NAU83G60 namesakes, and nau8310-dsp.h gives the idle
    word, the preamble, the fragment size, the chunk size, the retry
    count, the offset cap and the opcodes the same values as
    nau8360-dsp.h; the records and constants above stand for both.  The
    loops of [nau8310_dsp_idle], [nau8310_dsp_replied],
    [nau8310_massage_to_dsp], [nau8310_reply_from_dsp] and
    [nau8310_dsp_kcs_setup] are, statement for statement, those of the
    NAU83G60 functions (less the [mdelay]), applied to the one mailbox
    register of the chip; the loop functions above are used for both. *)

(** nau8310-dsp.h *)
Definition NAU8310_DSP_KCS_DAT_LEN_BITS : Z := 10.
Definition NAU8310_DSP_KCS_DAT_LEN_MAX : Z :=
  Z.shiftl 1 NAU8310_DSP_KCS_DAT_LEN_BITS - 1.
Definition NAU8310_DSP_IDLE_RETRY : nat := 10.

Definition nau8310_dsp_commands (id : Z) : bool :=
  (id =? NAU8360_DSP_CMD_GET_COUNTER) || (id =? NAU8360_DSP_CMD_GET_FRAME_STATUS)
  || (id =? NAU8360_DSP_CMD_GET_REVISION) || (id =? NAU8360_DSP_CMD_GET_KCS_RSLTS)
  || (id =? NAU8360_DSP_CMD_GET_KCS_SETUP) || (id =? NAU8360_DSP_CMD_SET_KCS_SETUP)
  || (id =? NAU8360_DSP_CMD_CLK_STOP) || (id =? NAU8360_DSP_CMD_CLK_RESTART).

(** [nau8310_dsp_cmd_table[id]]: SetKcsSetup has no reply data here. *)
Definition nau8310_dsp_cmd_table (id : Z) : nau8360_cmd_info :=
  if id =? NAU8360_DSP_CMD_GET_COUNTER then mkCmd id false false true
  else if id =? NAU8360_DSP_CMD_GET_FRAME_STATUS then mkCmd id false false true
  else if id =? NAU8360_DSP_CMD_GET_REVISION then mkCmd id false false true
  else if id =? NAU8360_DSP_CMD_GET_KCS_RSLTS then mkCmd id true false true
  else if id =? NAU8360_DSP_CMD_GET_KCS_SETUP then mkCmd id true false true
  else if id =? NAU8360_DSP_CMD_SET_KCS_SETUP then mkCmd id true true false
  else if id =? NAU8360_DSP_CMD_CLK_STOP then mkCmd id false false false
  else if id =? NAU8360_DSP_CMD_CLK_RESTART then mkCmd id false false false
  else mkCmd 0 false false false.

(** The driver never looks at the return value of a write. *)
Definition regmap_write (addr val : Z) (d : dev) : dev :=
  mkDev (oracle d) (nreads d) (trace d ++ [EvWrite addr val]).

(** nau8310.h, which numbers the registers, is not part of the sources at
    hand: the mailbox register is any number here. *)
Section Nau8310.
Variable NAU8310_RF000_DSP_COMM : Z.

Definition nau8310_dsp_idle (d : dev) : Z * dev :=
  dsp_idle_loop NAU8310_DSP_IDLE_RETRY NAU8310_RF000_DSP_COMM d.

Definition nau8310_massage_to_dsp (cmd_info : nau8360_cmd_info)
    (frag_len param_offset param_size : Z) (param_data : option (list Z))
    (d : dev) : Z * dev :=
  let '(ret, d) := nau8310_dsp_idle d in
  if negb (ret =? 0) then (ret, d)
  else
    (* sending preamble fragment *)
    let d := regmap_write NAU8310_RF000_DSP_COMM
               (word_of_frag (preamble_frag (cmd_id cmd_info) frag_len)) d in
    if negb (msg_param cmd_info) then (0, d)
    else
      (* sending payload + padding *)
      let d := regmap_write NAU8310_RF000_DSP_COMM
                 (word_of_frag (param_frag param_offset param_size)) d in
      let frag_cnt := 0 + 1 in
      let '(padding, frag_cnt, d) :=
        if setup_data cmd_info then
          let b_data := match param_data with Some l => l | None => [] end in
          let st := setup_loop (Z.to_nat param_size) 0 b_data
                               NAU8310_RF000_DSP_COMM
                               (mkEnc frag_zero 0 frag_cnt d) in
          if (0 <? e_data_size st) && (e_data_size st <? NAU8360_DSP_DATA_BYTE)
          then
            (* sending the data fragments with padding bytes *)
            (NAU8360_DSP_DATA_BYTE - e_data_size st, e_frag_cnt st + 1,
             regmap_write NAU8310_RF000_DSP_COMM (word_of_frag (e_data st))
                          (e_dev st))
          else (0, e_frag_cnt st, e_dev st)
        else (0, frag_cnt, d) in
      (* sending trailing fragment *)
      let frag_cnt := frag_cnt + 1 in
      let d := regmap_write NAU8310_RF000_DSP_COMM
                 (word_of_frag (trailer_frag frag_cnt padding)) d in
      if negb (frag_cnt =? frag_len) then (- EPROTO, d) else (0, d).

Definition nau8310_dsp_replied (d : dev) : Z * Z * dev :=
  dsp_replied_loop 10 NAU8310_RF000_DSP_COMM d.

(** There is one poll for the preamble, whatever the command; the buffer
    is asked for whatever the command. *)
Definition nau8310_reply_from_dsp (cmd_info : nau8360_cmd_info)
    (data_size : Z) (data : option (list Z)) (d : dev)
    : Z * option (list Z) * dev :=
  match data with
  | None => (- EINVAL, data, d)
  | Some buf =>
      let '(ret, frag_len, d) := nau8310_dsp_replied d in
      if negb (ret =? 0) then (ret, data, d)
      else if frag_len =? 0 then (0, data, d)
      else
        let '(ret, buf, d) :=
          reply_body cmd_info data_size buf frag_len NAU8310_RF000_DSP_COMM d in
        (ret, Some buf, d)
  end.

(** The codec pointer is taken to be valid. *)
Definition nau8310_send_dsp_command (cmd : Z)
    (kcs_setup : option nau8360_kcs_setup) (d : dev)
    : Z * option (list Z) * dev :=
  match kcs_setup with
  | None => (- EINVAL, None, d)
  | Some ks =>
      if negb (nau8310_dsp_commands cmd) then (- EINVAL, get_data ks, d)
      else
        let cmd_info := nau8310_dsp_cmd_table cmd in
        if (msg_param cmd_info && (set_len ks =? 0))
           || (setup_data cmd_info && is_null (set_kcs_data ks))
           || (reply_data cmd_info && is_null (get_data ks))
        then (- EINVAL, get_data ks, d)
        else if (cmd =? NAU8360_DSP_CMD_GET_KCS_SETUP)
                && ((NAU8310_DSP_KCS_DAT_LEN_MAX <? set_len ks)
                    || (NAU8360_DSP_KCS_OFFSET_MAX <? set_kcs_offset ks))
        then (- EINVAL, get_data ks, d)
        else
          let frag_len := message_frag_len cmd_info (set_len ks) in
          let '(ret, d) :=
            nau8310_massage_to_dsp cmd_info frag_len (set_kcs_offset ks)
              (set_len ks) (set_kcs_data ks) d in
          if negb (ret =? 0) then (ret, get_data ks, d)
          else
            let '(ret, buf, d) :=
              nau8310_reply_from_dsp cmd_info (get_len ks) (get_data ks) d in
            if negb (ret =? 0) then (ret, buf, d) else (0, buf, d)
  end.

(** [get_len0] and [kcs_rst0] are the indeterminate initial contents of
    the stack objects [kcs_setup_comp.get_len] and [kcs_rst]. *)
Definition nau8310_dsp_kcs_setup (offset size : Z) (data : option (list Z))
    (get_len0 : Z) (kcs_rst0 : list Z) (d : dev) : option (Z * dev) :=
  match data with
  | None => Some (- EINVAL, d)
  | Some data_buf =>
      if (NAU8310_DSP_KCS_DAT_LEN_MAX <? size)
         || (NAU8360_DSP_KCS_OFFSET_MAX <? offset)
      then Some (- EINVAL, d)
      else
        kcs_setup_loop (fun cmd ks d => nau8310_send_dsp_command cmd (Some ks) d)
          (kcs_setup_fuel size)
          (mkUp data_buf offset size 0 get_len0 (Some kcs_rst0)) d
  end.
End Nau8310.

(** ** Sample devices and runs for the callers *)

(** A DSP behind two mailboxes that acknowledges a command at each with an
    empty reply. *)
Definition dev_ack_twice : dev :=
  script [ok 0xf4f3f2f1; ok 0x0000b2a1; ok 0xf4f3f2f1; ok 0x0000b2a1].

(** What one core shows when its status is asked for (answer: 1, ALGO_OK)
    and a four-byte image is then uploaded in one chunk and checked. *)
Definition core_ready_reads : list (Z * Z) :=
  [ok 0xf4f3f2f1; ok 0x0002b2a1; ok 0x00000001; ok 0x00000002;
   ok 0xf4f3f2f1; ok 0x0000b2a1;
   ok 0xf4f3f2f1; ok 0x0002b2a1; ok 0x00000001; ok 0x00000002].

Definition dev_core_ready : dev := script core_ready_reads.

(** The same for two cores, one after the other. *)
Definition dev_cores_ready : dev := script (core_ready_reads ++ core_ready_reads).

(** A four-byte image, obtained without error, for every core. *)
Definition fw4 : nat -> Z * list Z := fun _ => (0, [1; 2; 3; 4]).

(** Stack contents: all zero. *)
Definition stack0 : nat -> chan_stack :=
  fun _ => mkStack 0 0 None 0 [0; 0; 0; 0].

(** Return value and recorded size of a setup. *)
Definition setup_view (r : option (Z * Z * dev)) : option (Z * Z) :=
  match r with Some (ret, size, _) => Some (ret, size) | None => None end.
(** ** Arithmetic of bytes, words and bit fields *)

Lemma forall_below (P : Z -> bool) (n : nat) :
  forallb P (map Z.of_nat (seq 0 n)) = true ->
  forall y, 0 <= y < Z.of_nat n -> P y = true.
Proof.
  intros H y Hy. rewrite forallb_forall in H. apply H.
  apply in_map_iff. exists (Z.to_nat y). split; [lia|].
  apply in_seq. lia.
Qed.

Lemma land_0xc0 y : 0 <= y < 256 -> Z.land y 0xc0 = 64 * (y / 64).
Proof.
  intros Hy. apply Z.eqb_eq.
  apply (forall_below (fun y => Z.land y 0xc0 =? 64 * (y / 64)) 256);
    [vm_compute; reflexivity | lia].
Qed.

Lemma land_0x30 y : 0 <= y < 256 -> Z.land y 0x30 = 16 * ((y / 16) mod 4).
Proof.
  intros Hy. apply Z.eqb_eq.
  apply (forall_below (fun y => Z.land y 0x30 =? 16 * ((y / 16) mod 4)) 256);
    [vm_compute; reflexivity | lia].
Qed.

Lemma land_3 x : Z.land x 3 = x mod 4.
Proof. change 3 with (Z.ones 2). rewrite Z.land_ones by lia. reflexivity. Qed.

Lemma lor_shiftl_low a b n : 0 <= n -> 0 <= b < 2 ^ n ->
  Z.lor (Z.shiftl a n) b = a * 2 ^ n + b.
Proof.
  intros Hn Hb. rewrite Z.shiftl_mul_pow2 by lia.
  rewrite <- Z.add_lor_land.
  enough (E : Z.land (a * 2 ^ n) b = 0) by (rewrite E; lia).
  apply Z.bits_inj'. intros k Hk.
  rewrite Z.land_spec, Z.bits_0.
  destruct (Z.lt_ge_cases k n).
  - rewrite Z.mul_pow2_bits_low by lia. reflexivity.
  - assert (Hb' : Z.testbit b k = false).
    { rewrite <- (Z.mod_small b (2 ^ n)) by lia.
      apply Z.mod_pow2_bits_high. lia. }
    rewrite Hb'. apply andb_false_r.
Qed.

Lemma u8_range x : 0 <= u8 x < 256.
Proof. unfold u8. apply Z.mod_pos_bound. lia. Qed.

Lemma u8_small x : 0 <= x < 256 -> u8 x = x.
Proof. intros. unfold u8. apply Z.mod_small. lia. Qed.

Lemma frag_of_word_of_frag f :
  is_byte (b0 f) -> is_byte (b1 f) -> is_byte (b2 f) -> is_byte (b3 f) ->
  frag_of_word (word_of_frag f) = f.
Proof.
  unfold is_byte. destruct f as [x0 x1 x2 x3]; cbn [b0 b1 b2 b3]. intros.
  unfold frag_of_word, word_of_frag; cbn [b0 b1 b2 b3].
  change (2 ^ 8) with 256. change (2 ^ 16) with 65536.
  change (2 ^ 24) with 16777216.
  f_equal; Z.div_mod_to_equations; lia.
Qed.

Lemma frag_of_word_bytes w :
  is_byte (b0 (frag_of_word w)) /\ is_byte (b1 (frag_of_word w)) /\
  is_byte (b2 (frag_of_word w)) /\ is_byte (b3 (frag_of_word w)).
Proof.
  unfold is_byte, frag_of_word; cbn [b0 b1 b2 b3].
  repeat split; apply Z.mod_pos_bound; lia.
Qed.

Lemma word_of_frag_of_word w : 0 <= w < 2 ^ 32 ->
  word_of_frag (frag_of_word w) = w.
Proof.
  intros Hw. unfold frag_of_word, word_of_frag; cbn [b0 b1 b2 b3].
  change (2 ^ 8) with 256. change (2 ^ 16) with 65536.
  change (2 ^ 24) with 16777216. change (2 ^ 32) with 4294967296 in Hw.
  Z.div_mod_to_equations. lia.
Qed.

(** The value assembled by the fixed-width path is the word itself. *)
Lemma le32_frag_of_word w : 0 <= w < 2 ^ 32 -> le32 (frag_of_word w) = w.
Proof.
  intros Hw. rewrite <- (word_of_frag_of_word w Hw) at 2.
  destruct (frag_of_word_bytes w) as (H0 & H1 & H2 & H3).
  unfold is_byte in *. unfold le32, word_of_frag.
  set (x0 := b0 (frag_of_word w)) in *. set (x1 := b1 (frag_of_word w)) in *.
  set (x2 := b2 (frag_of_word w)) in *. set (x3 := b3 (frag_of_word w)) in *.
  rewrite (Z.lor_comm x0), (lor_shiftl_low x1 x0 8) by lia.
  rewrite (Z.lor_comm _ (Z.shiftl x2 16)), (lor_shiftl_low x2 _ 16)
    by (change (2 ^ 16) with 65536; change (2 ^ 8) with 256; lia).
  rewrite (Z.lor_comm _ (Z.shiftl x3 24)), (lor_shiftl_low x3 _ 24)
    by (change (2 ^ 24) with 16777216; change (2 ^ 16) with 65536;
        change (2 ^ 8) with 256; lia).
  lia.
Qed.

Lemma preamble_length_frag cmd n : 0 <= cmd < 64 -> 0 <= n < 1024 ->
  preamble_length (preamble_frag cmd n) = n.
Proof.
  intros Hc Hn. unfold preamble_length, preamble_frag, u8; cbn [b0 b1 b2 b3].
  rewrite !land_3, Z.shiftr_div_pow2 by lia.
  rewrite (lor_shiftl_low cmd (n mod 4) 2)
    by (try lia; apply Z.mod_pos_bound; lia).
  rewrite Z.lor_comm, lor_shiftl_low by (try lia; apply Z.mod_pos_bound; lia).
  change (2 ^ 2) with 4.
  Z.div_mod_to_equations. lia.
Qed.

Lemma preamble_reply_id_frag cmd n : 0 <= cmd < 64 ->
  preamble_reply_id (preamble_frag cmd n) = cmd.
Proof.
  intros Hc. unfold preamble_reply_id, preamble_frag, u8; cbn [b0 b1 b2 b3].
  rewrite !land_3.
  rewrite (lor_shiftl_low cmd (n mod 4) 2)
    by (try lia; apply Z.mod_pos_bound; lia).
  rewrite Z.shiftr_div_pow2 by lia. change (2 ^ 2) with 4.
  Z.div_mod_to_equations. lia.
Qed.

Lemma preamble_frag_bytes cmd n :
  is_byte (b0 (preamble_frag cmd n)) /\ is_byte (b1 (preamble_frag cmd n)) /\
  is_byte (b2 (preamble_frag cmd n)) /\ is_byte (b3 (preamble_frag cmd n)).
Proof. unfold preamble_frag; cbn [b0 b1 b2 b3]. repeat split; apply u8_range. Qed.

Lemma trailer_frag_bytes cnt pad :
  is_byte (b0 (trailer_frag cnt pad)) /\ is_byte (b1 (trailer_frag cnt pad)) /\
  is_byte (b2 (trailer_frag cnt pad)) /\ is_byte (b3 (trailer_frag cnt pad)).
Proof.
  unfold trailer_frag; cbn [b0 b1 b2 b3].
  repeat split; try apply u8_range; lia.
Qed.

Lemma trailer_byte1 cnt pad : 0 <= pad < 4 ->
  u8 (Z.lor (Z.shiftl (Z.shiftr cnt 8) 6) (Z.shiftl pad 4))
  = (64 * (cnt / 256) + 16 * pad) mod 256.
Proof.
  intros Hp. unfold u8. f_equal.
  rewrite (Z.shiftl_mul_pow2 pad 4) by lia.
  rewrite lor_shiftl_low by (change (2 ^ 4) with 16; change (2 ^ 6) with 64; lia).
  rewrite Z.shiftr_div_pow2 by lia.
  change (2 ^ 8) with 256. change (2 ^ 6) with 64. change (2 ^ 4) with 16. lia.
Qed.

(** The padding field of a trailer is read back whatever the count is. *)
Lemma trailer_pad_len_frag cnt pad : 0 <= pad < 4 ->
  trailer_pad_len (trailer_frag cnt pad) = pad.
Proof.
  intros Hp. unfold trailer_pad_len, trailer_frag; cbn [b0 b1 b2 b3].
  rewrite land_0x30 by apply u8_range.
  rewrite trailer_byte1 by lia.
  rewrite Z.shiftr_div_pow2 by lia. change (2 ^ 4) with 16.
  Z.div_mod_to_equations. lia.
Qed.

Lemma trailer_len_pos_frag cnt pad : 0 <= pad < 4 -> 0 <= cnt < 1024 ->
  trailer_len_pos (trailer_frag cnt pad) = cnt.
Proof.
  intros Hp Hc. unfold trailer_len_pos, trailer_frag; cbn [b0 b1 b2 b3].
  rewrite land_0xc0 by apply u8_range.
  rewrite trailer_byte1 by lia.
  rewrite Z.lor_comm.
  replace (64 * ((64 * (cnt / 256) + 16 * pad) mod 256 / 64)) with (64 * (cnt / 256))
    by (Z.div_mod_to_equations; lia).
  replace (Z.shiftl (64 * (cnt / 256)) 2) with (Z.shiftl (cnt / 256) 8)
    by (rewrite !Z.shiftl_mul_pow2 by lia; change (2 ^ 2) with 4;
        change (2 ^ 8) with 256; lia).
  rewrite lor_shiftl_low by (try lia; apply u8_range).
  unfold u8. change (2 ^ 8) with 256. Z.div_mod_to_equations. lia.
Qed.

(** ** The device: what reads and writes leave behind *)

Lemma written_app_trace o n t e :
  written (mkDev o n (t ++ [e]))
  = written (mkDev o n t) ++ match e with EvWrite _ v => [v] | EvRead _ _ _ => [] end.
Proof.
  unfold written; cbn [trace]. rewrite flat_map_app. cbn [flat_map].
  rewrite app_nil_r. reflexivity.
Qed.

Lemma written_write addr v d :
  written (snd_soc_component_write addr v d) = written d ++ [v].
Proof. destruct d. unfold snd_soc_component_write. apply written_app_trace. Qed.

Lemma written_read addr d : written (snd (regmap_read addr d)) = written d.
Proof.
  destruct d. unfold regmap_read; cbn [snd oracle nreads trace].
  rewrite written_app_trace. apply app_nil_r.
Qed.

Lemma written_write_all addr ws d :
  written (write_all addr ws d) = written d ++ ws.
Proof.
  revert d. induction ws as [|w ws IH]; intros d; cbn [write_all fold_left].
  - symmetry. apply app_nil_r.
  - fold (write_all addr ws (snd_soc_component_write addr w d)).
    rewrite IH, written_write, <- app_assoc. reflexivity.
Qed.

Lemma reads_only_refl d : reads_only d d.
Proof. repeat split. lia. Qed.

Lemma reads_only_trans d1 d2 d3 :
  reads_only d1 d2 -> reads_only d2 d3 -> reads_only d1 d3.
Proof.
  intros (A & B & C) (A' & B' & C'). repeat split; try congruence. lia.
Qed.

Lemma reads_only_read addr d : reads_only d (snd (regmap_read addr d)).
Proof.
  repeat split.
  - apply written_read.
  - unfold regmap_read; cbn [snd nreads]. lia.
Qed.

Lemma regmap_read_eq addr d :
  regmap_read addr d
  = ((fst (oracle d (nreads d)), u32 (snd (oracle d (nreads d)))),
     snd (regmap_read addr d)).
Proof. reflexivity. Qed.

Lemma nreads_read addr d : nreads (snd (regmap_read addr d)) = S (nreads d).
Proof. reflexivity. Qed.

Lemma oracle_read addr d : oracle (snd (regmap_read addr d)) = oracle d.
Proof. reflexivity. Qed.

(** ** The idle wait *)

Lemma dsp_idle_loop_reads retries addr d :
  reads_only d (snd (dsp_idle_loop retries addr d)) /\
  (nreads (snd (dsp_idle_loop retries addr d)) <= nreads d + retries)%nat.
Proof.
  revert d. induction retries as [|r IH]; intros d; cbn [dsp_idle_loop].
  - split; [apply reads_only_refl | cbn [snd]; lia].
  - rewrite regmap_read_eq.
    destruct (negb (fst (oracle d (nreads d)) =? 0)).
    + cbn [snd]. split; [apply reads_only_read | rewrite nreads_read; lia].
    + destruct (u32 (snd (oracle d (nreads d))) =? NAU8360_DSP_COMM_IDLE_WORD).
      * cbn [snd]. split; [apply reads_only_read | rewrite nreads_read; lia].
      * destruct (IH (snd (regmap_read addr d))) as [A B]. split.
        -- eapply reads_only_trans; [apply reads_only_read | exact A].
        -- rewrite nreads_read in B. lia.
Qed.

Lemma busy_read_shift addr d j :
  busy_read d (S j) -> busy_read (snd (regmap_read addr d)) j.
Proof.
  unfold busy_read. rewrite nreads_read, oracle_read.
  replace (S (nreads d) + j)%nat with (nreads d + S j)%nat by lia. auto.
Qed.

Lemma idle_read_shift addr d j :
  idle_read d (S j) -> idle_read (snd (regmap_read addr d)) j.
Proof.
  unfold idle_read. rewrite nreads_read, oracle_read.
  replace (S (nreads d) + j)%nat with (nreads d + S j)%nat by lia. auto.
Qed.

Lemma dsp_idle_loop_found retries addr d k :
  (k < retries)%nat ->
  (forall j, (j < k)%nat -> busy_read d j) -> idle_read d k ->
  fst (dsp_idle_loop retries addr d) = 0 /\
  nreads (snd (dsp_idle_loop retries addr d)) = (nreads d + k + 1)%nat.
Proof.
  revert d k. induction retries as [|r IH]; intros d k Hk Hbusy Hidle; [lia|].
  cbn [dsp_idle_loop]. rewrite regmap_read_eq.
  destruct k as [|k].
  - destruct Hidle as [E1 E2]. rewrite Nat.add_0_r in E1, E2.
    rewrite E1, E2. cbn [negb Z.eqb]. rewrite Z.eqb_refl. cbn [fst snd].
    rewrite nreads_read. split; [reflexivity | lia].
  - destruct (Hbusy 0%nat ltac:(lia)) as [E1 E2].
    rewrite Nat.add_0_r in E1, E2. rewrite E1. cbn [negb Z.eqb].
    apply Z.eqb_neq in E2. rewrite E2.
    destruct (IH (snd (regmap_read addr d)) k) as [A B].
    + lia.
    + intros j Hj. apply busy_read_shift. apply Hbusy. lia.
    + apply idle_read_shift. exact Hidle.
    + split; [exact A|]. rewrite B, nreads_read. lia.
Qed.

Lemma dsp_idle_loop_timeout retries addr d :
  (forall j, (j < retries)%nat -> busy_read d j) ->
  fst (dsp_idle_loop retries addr d) = - EIO /\
  nreads (snd (dsp_idle_loop retries addr d)) = (nreads d + retries)%nat.
Proof.
  revert d. induction retries as [|r IH]; intros d Hbusy; cbn [dsp_idle_loop].
  - cbn [fst snd]. split; [reflexivity | lia].
  - rewrite regmap_read_eq.
    destruct (Hbusy 0%nat ltac:(lia)) as [E1 E2].
    rewrite Nat.add_0_r in E1, E2. rewrite E1. cbn [negb Z.eqb].
    apply Z.eqb_neq in E2. rewrite E2.
    destruct (IH (snd (regmap_read addr d))) as [A B].
    + intros j Hj. apply busy_read_shift. apply Hbusy. lia.
    + split; [exact A|]. rewrite B, nreads_read. lia.
Qed.

(** ** The encoder *)

Lemma list_ind4 (P : list Z -> Prop) :
  P [] -> (forall a, P [a]) -> (forall a b, P [a; b]) ->
  (forall a b c, P [a; b; c]) ->
  (forall a b c e tl, P tl -> P (a :: b :: c :: e :: tl)) ->
  forall l, P l.
Proof.
  intros H0 H1 H2 H3 H4 l.
  assert (G : forall n l, (length l < n)%nat -> P l).
  { induction n as [|n IH]; intros l' Hl; [lia|].
    destruct l' as [|a [|b [|c [|e tl]]]]; auto.
    apply H4. apply IH. cbn [length] in Hl. lia. }
  apply (G (S (length l))). lia.
Qed.

Lemma rem4 i k : 0 <= i -> i mod 4 = 0 -> 0 <= k < 4 ->
  Z.rem (i + k) NAU8360_DSP_DATA_BYTE = k.
Proof.
  intros Hi Hm Hk. unfold NAU8360_DSP_DATA_BYTE.
  rewrite Z.rem_mod_nonneg by lia. Z.div_mod_to_equations. lia.
Qed.

Lemma nth_after (pre : list Z) k l :
  nth (Z.to_nat (Z.of_nat (length pre) + Z.of_nat k)) (pre ++ l) 0 = nth k l 0.
Proof.
  replace (Z.to_nat (Z.of_nat (length pre) + Z.of_nat k))
    with (length pre + k)%nat by lia.
  apply app_nth2_plus.
Qed.

(** One iteration of the setup-data loop at index [|pre| + k]. *)
Lemma setup_loop_step n (pre : list Z) k l addr st :
  Z.of_nat (length pre) mod 4 = 0 -> (k < 4)%nat ->
  setup_loop (S n) (Z.of_nat (length pre) + Z.of_nat k) (pre ++ l) addr st
  = setup_loop n (Z.of_nat (length pre) + Z.of_nat (S k)) (pre ++ l) addr
      (let data := set_byte (e_data st) (Z.of_nat k) (nth k l 0) in
       if e_data_size st + 1 =? 4 then
         mkEnc frag_zero 0 (e_frag_cnt st + 1)
               (snd_soc_component_write addr (word_of_frag data) (e_dev st))
       else mkEnc data (e_data_size st + 1) (e_frag_cnt st) (e_dev st)).
Proof.
  intros Hpre Hk. cbn [setup_loop].
  rewrite rem4 by lia. rewrite nth_after.
  replace (Z.of_nat (length pre) + Z.of_nat k + 1)
    with (Z.of_nat (length pre) + Z.of_nat (S k)) by lia.
  reflexivity.
Qed.

(** The setup-data loop, started on a word boundary with an empty
    fragment: the complete groups are written as words, the left-over bytes
    stay in [data].  Bytes after the first [param_size] are never read. *)
Lemma setup_loop_spec addr rest tl : forall pre cnt d,
  Z.of_nat (length pre) mod 4 = 0 ->
  setup_loop (length tl) (Z.of_nat (length pre)) (pre ++ tl ++ rest) addr
             (mkEnc frag_zero 0 cnt d)
  = mkEnc (frag_of_tail (tail_bytes tl)) (Z.of_nat (length (tail_bytes tl)))
          (cnt + Z.of_nat (length (full_words tl)))
          (write_all addr (full_words tl) d).
Proof.
  induction tl as [|a|a b|a b c|a b c e tl IH] using list_ind4;
    intros pre cnt d Hpre;
    rewrite <- (Z.add_0_r (Z.of_nat (length pre)));
    change 0 with (Z.of_nat 0) at 1.
  - cbn. f_equal. lia.
  - cbn [length]. rewrite setup_loop_step by (auto; lia).
    cbn. f_equal. lia.
  - cbn [length]. rewrite !setup_loop_step by (auto; lia).
    cbn. f_equal. lia.
  - cbn [length]. rewrite !setup_loop_step by (auto; lia).
    cbn. f_equal. lia.
  - cbn [length]. rewrite 4!setup_loop_step by (auto; lia).
    cbn [Z.eqb Z.add Pos.add e_data e_data_size e_frag_cnt e_dev
         NAU8360_DSP_DATA_BYTE Pos.eqb Pos.succ nth set_byte b0 b1 b2 b3
         frag_zero Z.of_nat Pos.of_succ_nat app].
    replace (Z.of_nat (length pre) + 4)
      with (Z.of_nat (length (pre ++ [a; b; c; e])))
      by (rewrite length_app; cbn [length]; lia).
    replace (pre ++ a :: b :: c :: e :: tl ++ rest)
      with ((pre ++ [a; b; c; e]) ++ tl ++ rest)
      by (rewrite <- app_assoc; reflexivity).
    rewrite IH.
    + cbn [tail_bytes full_words length write_all fold_left]. f_equal. lia.
    + rewrite length_app; cbn [length].
      Z.div_mod_to_equations. lia.
Qed.

Lemma tail_bytes_short l : (length (tail_bytes l) < 4)%nat.
Proof.
  induction l as [|a|a b|a b c|a b c e tl IH] using list_ind4; cbn; lia.
Qed.

Lemma length_full_words l :
  Z.of_nat (length l)
  = 4 * Z.of_nat (length (full_words l)) + Z.of_nat (length (tail_bytes l)).
Proof.
  induction l as [|a|a b|a b c|a b c e tl IH] using list_ind4;
    cbn [length full_words tail_bytes]; lia.
Qed.

(** A payload of L bytes takes ceil(L/4) words. *)
Lemma length_payload_words l :
  Z.of_nat (length (payload_words l)) = (Z.of_nat (length l) + 3) / 4.
Proof.
  unfold payload_words. rewrite length_app, (length_full_words l).
  pose proof (tail_bytes_short l) as Hs.
  destruct (tail_bytes l) as [|x r]; cbn [length] in *;
    Z.div_mod_to_equations; lia.
Qed.

Lemma pad_of_spec l :
  pad_of l = 4 * ((Z.of_nat (length l) + 3) / 4) - Z.of_nat (length l)
  /\ 0 <= pad_of l < 4.
Proof.
  unfold pad_of, NAU8360_DSP_DATA_BYTE. rewrite (length_full_words l).
  pose proof (tail_bytes_short l) as Hs.
  destruct (tail_bytes l) as [|x r]; cbn [length] in *;
    split; try lia; Z.div_mod_to_equations; lia.
Qed.

Lemma frag_bytes_of_word_of f :
  is_byte (b0 f) -> is_byte (b1 f) -> is_byte (b2 f) -> is_byte (b3 f) ->
  frag_bytes (frag_of_word (word_of_frag f)) = frag_bytes f.
Proof. intros. rewrite frag_of_word_of_frag; auto. Qed.

(** The bytes of the payload words are the payload bytes followed by the
    zero padding. *)
Lemma words_bytes_payload l :
  words_bytes (payload_words l) = map u8 l ++ repeat 0 (Z.to_nat (pad_of l)).
Proof.
  unfold words_bytes, payload_words, pad_of.
  induction l as [|a|a b|a b c|a b c e tl IH] using list_ind4.
  - reflexivity.
  - cbn [full_words tail_bytes app flat_map frag_of_tail nth].
    rewrite frag_bytes_of_word_of;
      cbn [b0 b1 b2 b3]; try apply u8_range; try (unfold is_byte; cbn; lia).
    reflexivity.
  - cbn [full_words tail_bytes app flat_map frag_of_tail nth].
    rewrite frag_bytes_of_word_of;
      cbn [b0 b1 b2 b3]; try apply u8_range; try (unfold is_byte; cbn; lia).
    reflexivity.
  - cbn [full_words tail_bytes app flat_map frag_of_tail nth].
    rewrite frag_bytes_of_word_of;
      cbn [b0 b1 b2 b3]; try apply u8_range; try (unfold is_byte; cbn; lia).
    reflexivity.
  - cbn [full_words tail_bytes app flat_map map].
    rewrite frag_bytes_of_word_of; cbn [b0 b1 b2 b3]; try apply u8_range.
    cbn [frag_bytes b0 b1 b2 b3 app]. rewrite IH. reflexivity.
Qed.

Lemma idle_reads_only addr d : reads_only d (snd (nau8360_dsp_idle addr d)).
Proof. apply dsp_idle_loop_reads. Qed.

(** The frame written for a command with parameters and setup data. *)
Lemma massage_setup ci frag_len off l rest addr d d1 :
  nau8360_dsp_idle addr d = (0, d1) ->
  msg_param ci = true -> setup_data ci = true ->
  nau8360_massage_to_dsp ci frag_len off (Z.of_nat (length l))
                         (Some (l ++ rest)) addr d
  = (if 2 + Z.of_nat (length (payload_words l)) =? frag_len then 0 else - EPROTO,
     write_all addr
       ([word_of_frag (preamble_frag (cmd_id ci) frag_len);
         word_of_frag (param_frag off (Z.of_nat (length l)))]
        ++ payload_words l
        ++ [word_of_frag
              (trailer_frag (2 + Z.of_nat (length (payload_words l))) (pad_of l))])
       d1).
Proof.
  intros Hidle Hp Hs. unfold nau8360_massage_to_dsp.
  rewrite Hidle, Hp, Hs. cbn [negb Z.eqb].
  rewrite Nat2Z.id.
  pose proof (setup_loop_spec addr rest l [] 1
    (snd_soc_component_write addr
       (word_of_frag (param_frag off (Z.of_nat (length l))))
       (snd_soc_component_write addr
          (word_of_frag (preamble_frag (cmd_id ci) frag_len)) d1))
    eq_refl) as E.
  cbn [length Z.of_nat app] in E. rewrite E. clear E.
  cbn [e_data e_data_size e_frag_cnt e_dev].
  pose proof (tail_bytes_short l) as Hshort.
  unfold payload_words, pad_of, NAU8360_DSP_DATA_BYTE.
  destruct (tail_bytes l) as [|x r] eqn:Ht.
  - cbn [length Z.of_nat Z.ltb Z.compare andb]. rewrite app_nil_r.
    replace (1 + Z.of_nat (length (full_words l)) + 1)
      with (2 + Z.of_nat (length (full_words l))) by lia.
    destruct (2 + Z.of_nat (length (full_words l)) =? frag_len);
      cbn [negb]; f_equal;
      unfold write_all; cbn [fold_left app]; rewrite fold_left_app; reflexivity.
  - assert (H1 : (0 <? Z.of_nat (length (x :: r))) = true)
      by (apply Z.ltb_lt; cbn [length]; lia).
    assert (H2 : (Z.of_nat (length (x :: r)) <? 4) = true)
      by (apply Z.ltb_lt; lia).
    rewrite H1, H2. cbn [andb].
    rewrite length_app. cbn [length].
    replace (1 + Z.of_nat (length (full_words l)) + 1 + 1)
      with (2 + Z.of_nat (length (full_words l) + 1)) by lia.
    destruct (2 + Z.of_nat (length (full_words l) + 1) =? frag_len);
      cbn [negb]; f_equal;
      unfold write_all; cbn [fold_left app];
      rewrite !fold_left_app; reflexivity.
Qed.

(** The frame written for a command with parameters and no setup data. *)
Lemma massage_param ci frag_len off size pd addr d d1 :
  nau8360_dsp_idle addr d = (0, d1) ->
  msg_param ci = true -> setup_data ci = false ->
  nau8360_massage_to_dsp ci frag_len off size pd addr d
  = (if 2 =? frag_len then 0 else - EPROTO,
     write_all addr
       [word_of_frag (preamble_frag (cmd_id ci) frag_len);
        word_of_frag (param_frag off size);
        word_of_frag (trailer_frag 2 0)] d1).
Proof.
  intros Hidle Hp Hs. unfold nau8360_massage_to_dsp.
  rewrite Hidle, Hp, Hs. cbn [negb Z.eqb Z.add Pos.add].
  change (match frag_len with Z.pos q => (2 =? q)%positive | _ => false end)
    with (2 =? frag_len).
  destruct (2 =? frag_len); reflexivity.
Qed.

(** The frame written for a command without parameters: the preamble. *)
Lemma massage_bare ci frag_len off size pd addr d d1 :
  nau8360_dsp_idle addr d = (0, d1) ->
  msg_param ci = false ->
  nau8360_massage_to_dsp ci frag_len off size pd addr d
  = (0, snd_soc_component_write addr
          (word_of_frag (preamble_frag (cmd_id ci) frag_len)) d1).
Proof.
  intros Hidle Hp. unfold nau8360_massage_to_dsp.
  rewrite Hidle, Hp. reflexivity.
Qed.

(** A failed idle wait ends the encoder before its first write. *)
Lemma massage_not_idle ci frag_len off size pd addr d ret d1 :
  nau8360_dsp_idle addr d = (ret, d1) -> ret <> 0 ->
  nau8360_massage_to_dsp ci frag_len off size pd addr d = (ret, d1).
Proof.
  intros Hidle Hr. unfold nau8360_massage_to_dsp. rewrite Hidle.
  apply Z.eqb_neq in Hr. rewrite Hr. reflexivity.
Qed.

(** ** The decoder *)

Lemma dsp_replied_loop_reads retries addr d :
  reads_only d (snd (dsp_replied_loop retries addr d)) /\
  (nreads (snd (dsp_replied_loop retries addr d)) <= nreads d + retries)%nat.
Proof.
  revert d. induction retries as [|r IH]; intros d; cbn [dsp_replied_loop].
  - split; [apply reads_only_refl | cbn [snd]; lia].
  - rewrite regmap_read_eq.
    destruct (negb (fst (oracle d (nreads d)) =? 0)).
    + cbn [snd]. split; [apply reads_only_read | rewrite nreads_read; lia].
    + destruct (has_preamble _).
      * destruct (_ =? NAU8360_DSP_REPLY_OK); cbn [snd];
          (split; [apply reads_only_read | rewrite nreads_read; lia]).
      * destruct (IH (snd (regmap_read addr d))) as [A B]. split.
        -- eapply reads_only_trans; [apply reads_only_read | exact A].
        -- rewrite nreads_read in B. lia.
Qed.

Lemma skipped_read_shift addr d j :
  skipped_read d (S j) -> skipped_read (snd (regmap_read addr d)) j.
Proof.
  unfold skipped_read. rewrite nreads_read, oracle_read.
  replace (S (nreads d) + j)%nat with (nreads d + S j)%nat by lia. auto.
Qed.

Lemma preamble_read_shift addr d j w :
  preamble_read d (S j) w -> preamble_read (snd (regmap_read addr d)) j w.
Proof.
  unfold preamble_read. rewrite nreads_read, oracle_read.
  replace (S (nreads d) + j)%nat with (nreads d + S j)%nat by lia. auto.
Qed.

Lemma good_read_shift addr d j w :
  good_read d (S j) w -> good_read (snd (regmap_read addr d)) j w.
Proof.
  unfold good_read. rewrite nreads_read, oracle_read.
  replace (S (nreads d) + j)%nat with (nreads d + S j)%nat by lia. auto.
Qed.

(** The preamble poll: words without the preamble are skipped; the first
    word with it ends the poll, and its reply-id decides the result. *)
Lemma dsp_replied_loop_found retries addr d k w :
  (k < retries)%nat ->
  (forall j, (j < k)%nat -> skipped_read d j) -> preamble_read d k w ->
  exists d',
    dsp_replied_loop retries addr d
    = (if preamble_reply_id (frag_of_word w) =? 0 then 0
       else - preamble_reply_id (frag_of_word w),
       preamble_length (frag_of_word w), d')
    /\ reads_only d d' /\ nreads d' = (nreads d + k + 1)%nat.
Proof.
  revert d k. induction retries as [|r IH]; intros d k Hk Hskip Hpre; [lia|].
  cbn [dsp_replied_loop]. rewrite regmap_read_eq.
  destruct k as [|k].
  - destruct Hpre as (E1 & E2 & E3). rewrite Nat.add_0_r in E1, E2.
    rewrite E1, E2, E3. cbn [negb Z.eqb].
    exists (snd (regmap_read addr d)). split.
    + unfold NAU8360_DSP_REPLY_OK.
      destruct (preamble_reply_id (frag_of_word w) =? 0); reflexivity.
    + split; [apply reads_only_read | rewrite nreads_read; lia].
  - destruct (Hskip 0%nat ltac:(lia)) as [E1 E2].
    rewrite Nat.add_0_r in E1, E2. rewrite E1, E2. cbn [negb Z.eqb].
    destruct (IH (snd (regmap_read addr d)) k) as (d' & A & B & C).
    + lia.
    + intros j Hj. apply skipped_read_shift. apply Hskip. lia.
    + apply preamble_read_shift. exact Hpre.
    + exists d'. split; [exact A|]. split.
      * eapply reads_only_trans; [apply reads_only_read | exact B].
      * rewrite C, nreads_read. lia.
Qed.

Lemma dsp_replied_loop_timeout retries addr d :
  (forall j, (j < retries)%nat -> skipped_read d j) ->
  fst (fst (dsp_replied_loop retries addr d)) = - EIO /\
  nreads (snd (dsp_replied_loop retries addr d)) = (nreads d + retries)%nat.
Proof.
  revert d. induction retries as [|r IH]; intros d Hskip; cbn [dsp_replied_loop].
  - cbn [fst snd]. split; [reflexivity | lia].
  - rewrite regmap_read_eq.
    destruct (Hskip 0%nat ltac:(lia)) as [E1 E2].
    rewrite Nat.add_0_r in E1, E2. rewrite E1, E2. cbn [negb Z.eqb].
    destruct (IH (snd (regmap_read addr d))) as [A B].
    + intros j Hj. apply skipped_read_shift. apply Hskip. lia.
    + split; [exact A|]. rewrite B, nreads_read. lia.
Qed.

(** A reply whose preamble poll fails is not read any further, and the
    caller buffer is not touched. *)
Lemma reply_from_dsp_stops ci data_size data addr d ret len d' :
  (reply_data ci = true -> data <> None) ->
  nau8360_dsp_replied addr d = (ret, len, d') -> ret <> 0 ->
  nau8360_reply_from_dsp ci data_size data addr d = (ret, data, d').
Proof.
  intros Hdata Hrep Hret. apply Z.eqb_neq in Hret.
  unfold nau8360_reply_from_dsp.
  destruct (reply_data ci) eqn:Hrd; cbn [negb].
  - destruct data as [buf|]; [|exfalso; apply Hdata; reflexivity].
    rewrite Hrep, Hret. reflexivity.
  - rewrite Hrep, Hret. reflexivity.
Qed.

(** ** The dispatcher *)

Lemma send_rejected cmd ks addr d :
  request_check cmd ks <> 0 ->
  nau8360_send_dsp_command cmd (Some ks) addr d
  = (request_check cmd ks, get_data ks, d).
Proof.
  unfold request_check, nau8360_send_dsp_command. intros H.
  destruct (negb (nau8360_dsp_commands cmd)); [reflexivity|].
  destruct (_ || _ || _); [reflexivity|].
  destruct (_ && _); [reflexivity|]. congruence.
Qed.

Lemma send_accepted cmd ks addr d :
  request_check cmd ks = 0 ->
  nau8360_send_dsp_command cmd (Some ks) addr d
  = let cmd_info := nau8360_dsp_cmd_table cmd in
    let '(ret, d1) :=
      nau8360_massage_to_dsp cmd_info (message_frag_len cmd_info (set_len ks))
        (set_kcs_offset ks) (set_len ks) (set_kcs_data ks) addr d in
    if negb (ret =? 0) then (ret, get_data ks, d1)
    else nau8360_reply_from_dsp cmd_info (get_len ks) (get_data ks) addr d1.
Proof.
  unfold request_check, nau8360_send_dsp_command. intros H.
  destruct (negb (nau8360_dsp_commands cmd)); [discriminate|].
  destruct (_ || _ || _); [discriminate|].
  destruct (_ && _); [discriminate|]. reflexivity.
Qed.

Lemma request_check_reply_data cmd ks :
  request_check cmd ks = 0 ->
  reply_data (nau8360_dsp_cmd_table cmd) = true -> get_data ks <> None.
Proof.
  unfold request_check. intros H Hr.
  destruct (negb (nau8360_dsp_commands cmd)); [discriminate|].
  rewrite Hr in H. destruct (get_data ks); [discriminate|].
  cbn [is_null andb] in H. rewrite !orb_true_r in H. discriminate.
Qed.

Lemma payload_loop_reads n ci addr st :
  reads_only (d_dev st) (d_dev (snd (payload_loop n ci addr st))) /\
  (nreads (d_dev (snd (payload_loop n ci addr st))) <= nreads (d_dev st) + n)%nat.
Proof.
  revert st. induction n as [|n IH]; intros st; cbn [payload_loop].
  - split; [apply reads_only_refl | cbn [snd]; lia].
  - rewrite regmap_read_eq.
    destruct (negb (fst (oracle (d_dev st) (nreads (d_dev st))) =? 0)).
    + cbn [snd d_dev]. split; [apply reads_only_read | rewrite nreads_read; lia].
    + destruct (msg_param ci).
      * destruct (NAU8360_DSP_DATA_BYTE <=? d_count st).
        -- match goal with |- context [payload_loop n ci addr ?s] =>
             destruct (IH s) as [A B] end.
           cbn [d_dev] in A, B. split.
           ++ eapply reads_only_trans; [apply reads_only_read | exact A].
           ++ rewrite nreads_read in B. lia.
        -- destruct (copy_loop _ _ _ _ _ _) as [buf cnt]. cbn [snd d_dev].
           split; [apply reads_only_read | rewrite nreads_read; lia].
      * match goal with |- context [payload_loop n ci addr ?s] =>
          destruct (IH s) as [A B] end.
        cbn [d_dev] in A, B. split.
        -- eapply reads_only_trans; [apply reads_only_read | exact A].
        -- rewrite nreads_read in B. lia.
Qed.

Lemma reply_body_reads ci data_size buf frag_len addr d :
  reads_only d (snd (reply_body ci data_size buf frag_len addr d)).
Proof.
  unfold reply_body.
  match goal with |- context [payload_loop ?n ci addr ?s] =>
    pose proof (proj1 (payload_loop_reads n ci addr s)) as A;
    destruct (payload_loop n ci addr s) as [ret st] end.
  cbn [snd d_dev] in A.
  destruct (negb (ret =? 0)); [exact A|].
  rewrite regmap_read_eq.
  assert (B : reads_only d (snd (regmap_read addr (d_dev st))))
    by (eapply reads_only_trans; [exact A | apply reads_only_read]).
  destruct (negb (fst _ =? 0)); [exact B|].
  destruct (negb (_ =? frag_len)); [exact B|].
  destruct (negb (_ =? _)); exact B.
Qed.

Lemma dsp_replied_reads addr d :
  reads_only d (snd (nau8360_dsp_replied addr d)).
Proof. apply dsp_replied_loop_reads. Qed.

(** The decoder only reads. *)
Lemma reply_from_dsp_reads ci data_size data addr d :
  reads_only d (snd (nau8360_reply_from_dsp ci data_size data addr d)).
Proof.
  assert (G : forall d0, reads_only d d0 ->
    reads_only d (snd (
      match data with
      | None => (- EINVAL, data, d0)
      | Some buf =>
          let '(ret, frag_len, d1) := nau8360_dsp_replied addr d0 in
          if negb (ret =? 0) then (ret, data, d1)
          else if frag_len =? 0 then (0, data, d1)
          else
            let '(ret, buf, d2) :=
              reply_body ci data_size buf frag_len addr d1 in
            (ret, Some buf, d2)
      end))).
  { intros d0 H0. destruct data as [buf|]; [|exact H0].
    pose proof (dsp_replied_reads addr d0) as A.
    destruct (nau8360_dsp_replied addr d0) as [[ret fl] d1]. cbn [snd] in A.
    assert (B : reads_only d d1) by (eapply reads_only_trans; eauto).
    destruct (negb (ret =? 0)); [exact B|].
    destruct (fl =? 0); [exact B|].
    pose proof (reply_body_reads ci data_size buf fl addr d1) as C.
    destruct (reply_body ci data_size buf fl addr d1) as [[r b] d2].
    cbn [snd] in *. eapply reads_only_trans; eauto. }
  unfold nau8360_reply_from_dsp.
  destruct (negb (reply_data ci)).
  - pose proof (dsp_replied_reads addr d) as A.
    destruct (nau8360_dsp_replied addr d) as [[ret fl] d1]. cbn [snd] in A.
    destruct (negb (ret =? 0)); [exact A|].
    destruct (fl =? 0); [exact A|].
    apply G. exact A.
  - apply G. apply reads_only_refl.
Qed.

(** ** The command table *)

Lemma commands_cases cmd :
  nau8360_dsp_commands cmd = true ->
  cmd = NAU8360_DSP_CMD_GET_COUNTER \/ cmd = NAU8360_DSP_CMD_GET_FRAME_STATUS \/
  cmd = NAU8360_DSP_CMD_GET_REVISION \/ cmd = NAU8360_DSP_CMD_GET_KCS_RSLTS \/
  cmd = NAU8360_DSP_CMD_GET_KCS_SETUP \/ cmd = NAU8360_DSP_CMD_SET_KCS_SETUP \/
  cmd = NAU8360_DSP_CMD_CLK_STOP \/ cmd = NAU8360_DSP_CMD_CLK_RESTART.
Proof.
  unfold nau8360_dsp_commands. rewrite !orb_true_iff, !Z.eqb_eq. tauto.
Qed.

Lemma table_cmd_id cmd :
  nau8360_dsp_commands cmd = true ->
  cmd_id (nau8360_dsp_cmd_table cmd) = cmd /\ 0 <= cmd < 64 /\
  (setup_data (nau8360_dsp_cmd_table cmd) = true ->
   msg_param (nau8360_dsp_cmd_table cmd) = true).
Proof.
  intros H. apply commands_cases in H.
  repeat (destruct H as [H|H]); subst cmd; cbn; repeat split; auto; try lia;
    discriminate.
Qed.

Lemma request_check_commands cmd ks :
  request_check cmd ks = 0 -> nau8360_dsp_commands cmd = true.
Proof.
  unfold request_check.
  destruct (nau8360_dsp_commands cmd); [reflexivity | discriminate].
Qed.

Lemma has_preamble_frag cmd n : has_preamble (preamble_frag cmd n) = true.
Proof. reflexivity. Qed.

Lemma message_frag_len_setup ci len :
  msg_param ci = true -> setup_data ci = true -> 0 <= len ->
  message_frag_len ci len = 2 + (len + 3) / 4.
Proof.
  intros Hp Hs Hl. unfold message_frag_len, NAU8360_DSP_DATA_BYTE.
  rewrite Hp, Hs. rewrite Z.quot_div_nonneg by lia.
  replace (len + 4 - 1) with (len + 3) by lia. lia.
Qed.

Lemma message_frag_len_param ci len :
  msg_param ci = true -> setup_data ci = false -> message_frag_len ci len = 2.
Proof. intros Hp Hs. unfold message_frag_len. rewrite Hp, Hs. reflexivity. Qed.

Lemma message_frag_len_bare ci len :
  msg_param ci = false -> setup_data ci = false -> message_frag_len ci len = 0.
Proof. intros Hp Hs. unfold message_frag_len. rewrite Hp, Hs. reflexivity. Qed.

Lemma map_u8_bytes l : Forall is_byte l -> map u8 l = l.
Proof.
  induction 1 as [|x l Hx _ IH]; cbn [map]; [reflexivity|].
  rewrite IH, u8_small by exact Hx. reflexivity.
Qed.

Lemma param_frag_bytes off size :
  is_byte (b0 (param_frag off size)) /\ is_byte (b1 (param_frag off size)) /\
  is_byte (b2 (param_frag off size)) /\ is_byte (b3 (param_frag off size)).
Proof. unfold param_frag; cbn [b0 b1 b2 b3]. repeat split; apply u8_range. Qed.

(** The descriptor word holds offset and size, low byte first. *)
Lemma param_frag_fields off size :
  0 <= off < 65536 -> 0 <= size < 65536 ->
  b0 (param_frag off size) + 256 * b1 (param_frag off size) = off /\
  b2 (param_frag off size) + 256 * b3 (param_frag off size) = size.
Proof.
  intros Ho Hs. unfold param_frag, u8; cbn [b0 b1 b2 b3].
  rewrite !Z.shiftr_div_pow2 by lia. change (2 ^ 8) with 256.
  split; Z.div_mod_to_equations; lia.
Qed.

Lemma preamble_reply_id_range w :
  0 <= preamble_reply_id (frag_of_word w) <= 63.
Proof.
  unfold preamble_reply_id. destruct (frag_of_word_bytes w) as (_ & _ & H & _).
  unfold is_byte in H. rewrite Z.shiftr_div_pow2 by lia. change (2 ^ 2) with 4.
  Z.div_mod_to_equations. lia.
Qed.

(** With a preamble of status OK that announces fragments, the decoder
    goes on to the payload and the trailer. *)
Lemma reply_from_dsp_body ci data_size buf addr d fl d1 :
  reply_data ci = true ->
  nau8360_dsp_replied addr d = (0, fl, d1) -> fl <> 0 ->
  nau8360_reply_from_dsp ci data_size (Some buf) addr d
  = let '(ret, buf', d2) := reply_body ci data_size buf fl addr d1 in
    (ret, Some buf', d2).
Proof.
  intros Hr Hrep Hfl. unfold nau8360_reply_from_dsp. rewrite Hr. cbn [negb].
  rewrite Hrep. cbn [negb Z.eqb]. apply Z.eqb_neq in Hfl. rewrite Hfl.
  reflexivity.
Qed.

Lemma copy_loop_count b pos buf cnt :
  1 <= cnt <= 3 -> snd (copy_loop 4 0 b pos buf cnt) = 0.
Proof.
  intros H.
  assert (C : cnt = 1 \/ cnt = 2 \/ cnt = 3) by lia.
  destruct C as [ -> | [ -> | -> ] ]; reflexivity.
Qed.

(** When the preamble announces exactly the fragments the request needs,
    the payload loop ends with every requested byte received. *)
Lemma payload_loop_exact ci addr n : forall st st',
  msg_param ci = true ->
  payload_loop n ci addr st = (0, st') ->
  0 <= d_count st -> Z.of_nat n = (d_count st + 3) / 4 ->
  d_count st' = 0.
Proof.
  induction n as [|n IH]; intros st st' Hp Hrun Hc Hn.
  - cbn [payload_loop] in Hrun. injection Hrun as Hst. subst st'.
    cbn [Z.of_nat] in Hn. Z.div_mod_to_equations. lia.
  - cbn [payload_loop] in Hrun. rewrite regmap_read_eq in Hrun.
    destruct (negb (fst (oracle (d_dev st) (nreads (d_dev st))) =? 0)) eqn:E.
    + injection Hrun as E1 _. apply negb_true_iff, Z.eqb_neq in E. congruence.
    + rewrite Hp in Hrun. unfold NAU8360_DSP_DATA_BYTE in Hrun.
      destruct (4 <=? d_count st) eqn:E4.
      * apply Z.leb_le in E4. apply IH in Hrun; auto; cbn [d_count].
        -- lia.
        -- rewrite Nat2Z.inj_succ in Hn. Z.div_mod_to_equations. lia.
      * apply Z.leb_gt in E4.
        assert (Hcnt : 1 <= d_count st <= 3)
          by (rewrite Nat2Z.inj_succ in Hn; Z.div_mod_to_equations; lia).
        pose proof (copy_loop_count
                      (frag_of_word (u32 (snd (oracle (d_dev st) (nreads (d_dev st))))))
                      (d_pos st) (d_buf st) (d_count st) Hcnt) as C.
        destruct (copy_loop _ _ _ _ _ _) as [b c]. cbn [snd] in C.
        injection Hrun as Hst. subst st'. cbn [d_count]. exact C.
Qed.

(** ** The caller buffer on the fixed-width path *)

Lemma skipn4_store_byte buf p v :
  (p < 4)%nat -> skipn 4 (store_byte buf p v) = skipn 4 buf.
Proof.
  intros Hp. unfold store_byte.
  destruct p as [|[|[|[|p]]]]; [| | | |lia];
    destruct buf as [|a [|b [|c [|e tl]]]]; reflexivity.
Qed.

Lemma length_store_byte buf p v : length (store_byte buf p v) = length buf.
Proof.
  unfold store_byte. destruct (p <? length buf)%nat eqn:E; [|reflexivity].
  apply Nat.ltb_lt in E.
  rewrite length_app. cbn [length]. rewrite length_firstn, length_skipn. lia.
Qed.

Lemma skipn4_store_word buf w :
  skipn 4 (store_word buf 0 w) = skipn 4 buf.
Proof.
  unfold store_word. cbn [Nat.add].
  rewrite !skipn4_store_byte by lia. reflexivity.
Qed.

Lemma length_store_word buf pos w :
  length (store_word buf pos w) = length buf.
Proof. unfold store_word. rewrite !length_store_byte. reflexivity. Qed.

Lemma firstn4_store_word buf w :
  (4 <= length buf)%nat ->
  firstn 4 (store_word buf 0 w) = frag_bytes (frag_of_word w).
Proof.
  intros H. destruct buf as [|a [|b [|c [|e tl]]]]; cbn [length] in H; try lia.
  destruct (frag_of_word_bytes w) as (H0 & H1 & H2 & H3).
  unfold store_word, store_byte, frag_bytes. cbn.
  rewrite !u8_small by assumption. reflexivity.
Qed.

Lemma u32_range x : 0 <= u32 x < 2 ^ 32.
Proof. unfold u32. apply Z.mod_pos_bound. lia. Qed.

(** Without parameters the payload loop never moves [data_buf], and every
    store goes to the first word of the buffer. *)
Lemma payload_loop_fixed_frame ci addr n : forall st,
  msg_param ci = false -> d_pos st = 0%nat ->
  d_pos (snd (payload_loop n ci addr st)) = 0%nat /\
  length (d_buf (snd (payload_loop n ci addr st))) = length (d_buf st) /\
  skipn 4 (d_buf (snd (payload_loop n ci addr st))) = skipn 4 (d_buf st).
Proof.
  induction n as [|n IH]; intros st Hp Hpos; cbn [payload_loop].
  - cbn [snd]. auto.
  - rewrite regmap_read_eq.
    destruct (negb (fst (oracle (d_dev st) (nreads (d_dev st))) =? 0)).
    + cbn [snd d_pos d_buf]. auto.
    + rewrite Hp, Hpos.
      match goal with |- context [payload_loop n ci addr ?s] =>
        destruct (IH s Hp) as (A & B & C); [reflexivity|] end.
      cbn [d_buf] in B, C.
      rewrite length_store_word in B. rewrite skipn4_store_word in C.
      auto.
Qed.

(** ... and what stays in the first word is the last payload word read. *)
Lemma payload_loop_fixed_last ci addr ws : forall st,
  msg_param ci = false -> d_pos st = 0%nat ->
  (4 <= length (d_buf st))%nat ->
  (forall j, (j < length ws)%nat -> good_read (d_dev st) j (nth j ws 0)) ->
  ws <> [] ->
  fst (payload_loop (length ws) ci addr st) = 0 /\
  firstn 4 (d_buf (snd (payload_loop (length ws) ci addr st)))
  = frag_bytes (frag_of_word (last ws 0)) /\
  nreads (d_dev (snd (payload_loop (length ws) ci addr st)))
  = (nreads (d_dev st) + length ws)%nat.
Proof.
  induction ws as [|w ws IH]; intros st Hp Hpos Hlen Hreads Hne; [congruence|].
  cbn [length payload_loop]. rewrite regmap_read_eq.
  destruct (Hreads 0%nat ltac:(cbn [length]; lia)) as [E1 E2].
  rewrite Nat.add_0_r in E1, E2. cbn [nth] in E2.
  rewrite E1, E2, Hp, Hpos. cbn [negb Z.eqb].
  assert (Hw : 0 <= w < 2 ^ 32) by (rewrite <- E2; apply u32_range).
  rewrite le32_frag_of_word by exact Hw.
  destruct ws as [|w' ws].
  - cbn [length payload_loop fst snd d_buf d_dev last].
    split; [reflexivity|]. split.
    + apply firstn4_store_word. exact Hlen.
    + rewrite nreads_read. lia.
  - match goal with |- context [payload_loop _ ci addr ?s] =>
      destruct (IH s Hp) as (A & B & C) end.
    + reflexivity.
    + cbn [d_buf]. rewrite length_store_word. exact Hlen.
    + intros j Hj. cbn [d_dev]. apply good_read_shift.
      apply (Hreads (S j)). cbn [length] in *. lia.
    + discriminate.
    + split; [exact A|]. split; [exact B|].
      rewrite C. cbn [d_dev]. rewrite nreads_read. cbn [length]. lia.
Qed.

(** ** The uploader *)

Section UploaderFacts.
Context {S : Type}.
Variable send : Z -> nau8360_kcs_setup -> S -> Z * option (list Z) * S.

Lemma chunk_len_pos rem : 0 < rem -> 0 < chunk_len rem <= 96 /\ chunk_len rem <= rem.
Proof.
  intros H. unfold chunk_len, NAU8360_DSP_KCS_TX_MAX.
  destruct (96 <? rem) eqn:E; [apply Z.ltb_lt in E | apply Z.ltb_ge in E]; lia.
Qed.

Lemma chunk_len_neg rem : rem < 0 -> chunk_len rem = rem.
Proof.
  intros H. unfold chunk_len, NAU8360_DSP_KCS_TX_MAX.
  destruct (96 <? rem) eqn:E; [apply Z.ltb_lt in E; lia | reflexivity].
Qed.

(** With enough fuel the loop returns; the observed loop returns the same
    value and final state, and logs a run of the shape [upload_run]. *)
Lemma kcs_setup_loop_run fuel : forall st l0 s,
  (need st <= fuel)%nat ->
  exists ret l s',
    kcs_setup_loop (observed send) fuel st (l0, s) = Some (ret, (l0 ++ l, s')) /\
    kcs_setup_loop send fuel st s = Some (ret, s') /\
    upload_run (u_data_buf st) (u_addr_offset st) (u_data_rem st)
               (u_retries st) l ret.
Proof.
  induction fuel as [|fuel IH]; intros st l0 s Hneed;
    [unfold need in Hneed; lia|].
  cbn [kcs_setup_loop].
  destruct (u_data_rem st =? 0) eqn:Erem.
  { apply Z.eqb_eq in Erem. exists 0, [], s. rewrite app_nil_r.
    split; [reflexivity|]. split; [reflexivity|]. rewrite Erem. constructor. }
  apply Z.eqb_neq in Erem.
  fold (chunk_len (u_data_rem st)).
  set (ks := mkKcs (chunk_len (u_data_rem st)) (u_addr_offset st)
                   (Some (u_data_buf st)) (u_get_len st) (u_get_data st)).
  unfold observed at 1. cbn [fst snd].
  destruct (send NAU8360_DSP_CMD_SET_KCS_SETUP ks s) as [[r rst] s1] eqn:Eset.
  set (c := mkCall NAU8360_DSP_CMD_SET_KCS_SETUP ks r).
  assert (Hc : is_set_call (u_data_buf st) (u_addr_offset st) (u_data_rem st) c)
    by (repeat split).
  destruct (r <? 0) eqn:Er.
  - apply Z.ltb_lt in Er.
    destruct (u_retries st <? NAU8360_DSP_RETRY_MAX) eqn:En.
    + apply Z.ltb_lt in En.
      match goal with |- context [kcs_setup_loop send fuel ?st' s1] =>
        destruct (IH st' (l0 ++ [c]) s1) as (ret & l & s' & A & B & R) end.
      { unfold need in *. cbn [u_data_rem u_retries].
        unfold NAU8360_DSP_RETRY_MAX in En. lia. }
      exists ret, (c :: l), s'.
      rewrite A, <- app_assoc. split; [reflexivity|]. split; [exact B|].
      cbn [u_data_buf u_addr_offset u_data_rem u_retries] in R.
      apply run_retry; auto.
    + apply Z.ltb_ge in En. exists r, [c], s1.
      split; [reflexivity|]. split; [reflexivity|].
      apply (run_abort _ _ _ _ c); auto.
  - apply Z.ltb_ge in Er.
    set (kg := mkKcs NAU8360_DSP_DATA_BYTE 0 (Some (u_data_buf st))
                     NAU8360_DSP_DATA_BYTE rst).
    unfold observed at 1. cbn [fst snd].
    destruct (send NAU8360_DSP_CMD_GET_KCS_RSLTS kg s1) as [[r' rst'] s2] eqn:Eget.
    set (g := mkCall NAU8360_DSP_CMD_GET_KCS_RSLTS kg r').
    assert (Hg : is_check_call g) by (repeat split).
    destruct (r' <? 0) eqn:Er'.
    + apply Z.ltb_lt in Er'. exists r', [c; g], s2.
      rewrite <- app_assoc. split; [reflexivity|]. split; [reflexivity|].
      apply (run_check_failed _ _ _ _ c g); auto.
    + apply Z.ltb_ge in Er'.
      match goal with |- context [kcs_setup_loop send fuel ?st' s2] =>
        destruct (IH st' ((l0 ++ [c]) ++ [g]) s2) as (ret & l & s' & A & B & R) end.
      { unfold need in *. cbn [u_data_rem u_retries].
        destruct (Z.lt_ge_cases 0 (u_data_rem st)) as [Hpos|Hneg].
        - pose proof (chunk_len_pos _ Hpos). lia.
        - rewrite chunk_len_neg by lia. lia. }
      exists ret, (c :: g :: l), s'.
      rewrite A, <- !app_assoc. split; [reflexivity|]. split; [exact B|].
      cbn [u_data_buf u_addr_offset u_data_rem u_retries] in R.
      apply run_next; auto.
Qed.

(** The uploader returns, and the observed uploader agrees with it. *)
Lemma dsp_kcs_setup_run offset size l get_len0 kcs_rst0 s :
  size <= NAU8360_DSP_KCS_DAT_LEN_MAX -> offset <= NAU8360_DSP_KCS_OFFSET_MAX ->
  exists ret calls s',
    dsp_kcs_setup (observed send) offset size (Some l) get_len0 kcs_rst0 ([], s)
    = Some (ret, (calls, s')) /\
    dsp_kcs_setup send offset size (Some l) get_len0 kcs_rst0 s
    = Some (ret, s') /\
    upload_run l offset size 0 calls ret.
Proof.
  intros Hs Ho. unfold dsp_kcs_setup.
  apply Z.ltb_ge in Hs. apply Z.ltb_ge in Ho. rewrite Hs, Ho. cbn [orb].
  apply (kcs_setup_loop_run (kcs_setup_fuel size)
           (mkUp l offset size 0 get_len0 (Some kcs_rst0)) [] s).
  unfold need, kcs_setup_fuel. cbn [u_data_rem u_retries]. lia.
Qed.

(** Requests beyond the transport caps, or without data, are refused
    before the dispatcher is called. *)
Lemma dsp_kcs_setup_refused offset size data get_len0 kcs_rst0 s :
  NAU8360_DSP_KCS_DAT_LEN_MAX < size \/ NAU8360_DSP_KCS_OFFSET_MAX < offset ->
  dsp_kcs_setup send offset size data get_len0 kcs_rst0 s = Some (- EINVAL, s).
Proof.
  intros H. unfold dsp_kcs_setup. destruct data as [l|]; [|reflexivity].
  assert (E : (NAU8360_DSP_KCS_DAT_LEN_MAX <? size)
              || (NAU8360_DSP_KCS_OFFSET_MAX <? offset) = true).
  { apply orb_true_iff. destruct H; [left | right]; apply Z.ltb_lt; lia. }
  rewrite E. reflexivity.
Qed.

End UploaderFacts.

(** ** Runs of the uploader *)

Lemma set_call_is_set buf off rem c :
  is_set_call buf off rem c -> is_set c = true /\ is_check c = false.
Proof.
  intros (H & _). unfold is_set, is_check. rewrite H. split; reflexivity.
Qed.

Lemma check_call_is_check g :
  is_check_call g -> is_check g = true /\ is_set g = false.
Proof.
  intros (H & _). unfold is_set, is_check. rewrite H. split; reflexivity.
Qed.

Lemma failed_not_succeeded (c : call) : c_ret c < 0 -> succeeded c = false.
Proof. intros H. unfold succeeded. apply Z.leb_gt. exact H. Qed.

Lemma ok_succeeded (c : call) : 0 <= c_ret c -> succeeded c = true.
Proof. intros H. unfold succeeded. apply Z.leb_le. exact H. Qed.

Ltac call_flags :=
  repeat match goal with
  | H : is_set_call _ _ _ ?c |- _ =>
      let A := fresh "Hset" in let B := fresh "Hnchk" in
      destruct (set_call_is_set _ _ _ _ H) as [A B]; clear H
  | H : is_check_call ?g |- _ =>
      let A := fresh "Hchk" in let B := fresh "Hnset" in
      destruct (check_call_is_check _ H) as [A B]; clear H
  | H : c_ret ?c < 0 |- _ => apply failed_not_succeeded in H
  | H : 0 <= c_ret ?c |- _ => apply ok_succeeded in H
  end.

Lemma upload_run_head buf off rem n l ret :
  upload_run buf off rem n l ret ->
  match l with c :: _ => is_set_call buf off rem c | [] => rem = 0 end.
Proof. destruct 1; auto. Qed.

Lemma upload_run_checks_follow buf off rem n l ret :
  upload_run buf off rem n l ret -> checks_follow l.
Proof.
  induction 1; cbn [checks_follow]; call_flags; auto;
    repeat split; auto;
    rewrite ?Hset, ?Hnset, ?Hchk; try rewrite H1; try rewrite H3;
    cbn [andb]; try congruence; auto.
Qed.

Lemma upload_run_retries_follow buf off rem n l ret :
  upload_run buf off rem n l ret -> retries_follow l.
Proof.
  induction 1; cbn [retries_follow].
  - exact I.
  - split; [|assumption]. intros _.
    apply upload_run_head in H3. destruct l as [|c' l]; [exact I|].
    destruct H0 as (A1 & A2 & A3 & A4). destruct H3 as (B1 & B2 & B3 & B4).
    repeat split; congruence.
  - split; [|exact I]. auto.
  - call_flags. rewrite H1, Hnset. cbn [andb negb].
    split; [intros E; rewrite andb_false_r in E; discriminate|].
    split; [discriminate | exact I].
  - call_flags. rewrite H1, Hnset. cbn [andb negb].
    split; [intros E; rewrite andb_false_r in E; discriminate|].
    split; [discriminate | assumption].
Qed.

Lemma upload_run_failed_check_last buf off rem n l ret :
  upload_run buf off rem n l ret -> failed_check_last l.
Proof.
  induction 1; cbn [failed_check_last]; call_flags;
    rewrite ?Hnchk, ?Hchk, ?H1, ?H3; cbn [andb negb];
    repeat split; auto; try discriminate.
Qed.

Lemma failed_sets_cons_failed (c : call) l :
  is_set c = true -> succeeded c = false ->
  failed_sets (c :: l) = c :: failed_sets l.
Proof. intros A B. unfold failed_sets. cbn [filter]. rewrite A, B. reflexivity. Qed.

Lemma failed_sets_cons_other (c : call) l :
  is_set c = false \/ succeeded c = true ->
  failed_sets (c :: l) = failed_sets l.
Proof.
  intros H. unfold failed_sets. cbn [filter].
  destruct H as [-> | ->]; [reflexivity|].
  cbn [negb]. rewrite andb_false_r. reflexivity.
Qed.

Lemma ok_sets_cons_ok (c : call) l :
  is_set c = true -> succeeded c = true -> ok_sets (c :: l) = c :: ok_sets l.
Proof. intros A B. unfold ok_sets. cbn [filter]. rewrite A, B. reflexivity. Qed.

Lemma ok_sets_cons_other (c : call) l :
  is_set c = false \/ succeeded c = false -> ok_sets (c :: l) = ok_sets l.
Proof.
  intros H. unfold ok_sets. cbn [filter].
  destruct H as [-> | ->]; [reflexivity | rewrite andb_false_r; reflexivity].
Qed.

(** At most three retries: with [n] retries used, at most [4 - n] chunk
    writes can still fail. *)
Lemma upload_run_failed_count buf off rem n l ret :
  upload_run buf off rem n l ret -> 0 <= n <= 3 ->
  Z.of_nat (length (failed_sets l)) <= 4 - n.
Proof.
  induction 1; intros Hn; unfold NAU8360_DSP_RETRY_MAX in *; call_flags.
  - unfold failed_sets; cbn [filter length]. lia.
  - rewrite failed_sets_cons_failed by assumption. cbn [length].
    specialize (IHupload_run ltac:(lia)). lia.
  - rewrite failed_sets_cons_failed by assumption.
    unfold failed_sets; cbn [filter length]. lia.
  - rewrite failed_sets_cons_other by auto.
    rewrite failed_sets_cons_other by auto.
    unfold failed_sets; cbn [filter length]. lia.
  - rewrite failed_sets_cons_other by auto.
    rewrite failed_sets_cons_other by auto. auto.
Qed.

(** A run that ends with a failed call returns the value of that call, and
    it ends with a failed chunk write only when that is the fourth. *)
Lemma upload_run_last buf off rem n l ret :
  upload_run buf off rem n l ret -> 0 <= n <= 3 ->
  forall before c, l = before ++ [c] -> c_ret c < 0 ->
  ret = c_ret c /\
  (is_set c = true -> Z.of_nat (length (failed_sets l)) = 4 - n).
Proof.
  induction 1; intros Hn before x Hl Hx; unfold NAU8360_DSP_RETRY_MAX in *.
  - destruct before; discriminate.
  - destruct before as [|y before]; cbn [app] in Hl.
    + injection Hl as E1 E2. subst. apply upload_run_head in H3. contradiction.
    + injection Hl as E1 E2. subst.
      destruct (IHupload_run ltac:(lia) before x eq_refl Hx) as [A B].
      split; [exact A|]. intros Hs. call_flags.
      rewrite failed_sets_cons_failed by assumption. cbn [length].
      specialize (B Hs). lia.
  - destruct before as [|y [|z before]]; cbn [app] in Hl; try discriminate.
    injection Hl as E1. subst. split; [reflexivity|]. intros _. call_flags.
    rewrite failed_sets_cons_failed by assumption.
    unfold failed_sets; cbn [filter length]. lia.
  - destruct before as [|y [|z [|u before]]]; cbn [app] in Hl; try discriminate.
    injection Hl as E1 E2. subst. split; [reflexivity|]. intros Hs. call_flags.
    congruence.
  - destruct before as [|y [|z before]]; cbn [app] in Hl.
    + discriminate.
    + injection Hl as E1 E2 E3. subst. lia.
    + injection Hl as E1 E2 E3. subst.
      destruct (IHupload_run Hn before x eq_refl Hx) as [A B].
      split; [exact A|]. intros Hs. call_flags.
      rewrite failed_sets_cons_other by auto.
      rewrite failed_sets_cons_other by auto. auto.
Qed.

(** A run that returns an error ends with the call that failed with it. *)
Lemma upload_run_error buf off rem n l ret :
  upload_run buf off rem n l ret -> ret <> 0 ->
  exists before c, l = before ++ [c] /\ c_ret c = ret /\ ret < 0.
Proof.
  induction 1; intros Hret.
  - congruence.
  - destruct (IHupload_run Hret) as (b & x & -> & A & B).
    exists (c :: b), x. auto.
  - exists [], c. auto.
  - exists [c], g. auto.
  - destruct (IHupload_run Hret) as (b & x & -> & A & B).
    exists (c :: g :: b), x. auto.
Qed.

(** A run in which no call fails returns 0, and every chunk write of it
    succeeded. *)
Lemma upload_run_all_ok buf off rem n l ret :
  upload_run buf off rem n l ret ->
  Forall (fun c => succeeded c = true) l ->
  ret = 0 /\ filter is_set l = ok_sets l.
Proof.
  induction 1; intros Hall.
  - split; reflexivity.
  - inversion Hall; subst. call_flags. congruence.
  - inversion Hall; subst. call_flags. congruence.
  - inversion Hall as [|? ? ? Hall']; subst. inversion Hall'; subst.
    call_flags. congruence.
  - inversion Hall as [|? ? ? Hall']; subst. inversion Hall' as [|? ? ? Hall'']; subst.
    destruct (IHupload_run Hall'') as [A B]. split; [exact A|].
    call_flags. unfold ok_sets in *. cbn [filter].
    rewrite Hset, Hnset, H1. cbn [andb]. rewrite B. reflexivity.
Qed.

Lemma chunk_len_ceil rem : 0 < rem ->
  1 + (rem - chunk_len rem + 95) / 96 = (rem + 95) / 96.
Proof.
  intros H. unfold chunk_len, NAU8360_DSP_KCS_TX_MAX.
  destruct (96 <? rem) eqn:E; [apply Z.ltb_lt in E | apply Z.ltb_ge in E];
    Z.div_mod_to_equations; lia.
Qed.

(** The chunk writes that succeeded carry consecutive pieces of the
    buffer, of 1 to 96 bytes each; when the run returns 0 they are
    ceil(L/96) pieces that make up the whole buffer. *)
Lemma upload_run_content buf off rem n l ret :
  upload_run buf off rem n l ret -> rem = Z.of_nat (length buf) ->
  Forall (fun c => is_set c = true ->
                   0 < set_len (c_kcs c) <= 96 /\
                   Z.of_nat (length (chunk_of c)) = set_len (c_kcs c)) l /\
  (exists rest, concat (map chunk_of (ok_sets l)) ++ rest = buf /\
                (ret = 0 -> rest = [])) /\
  (ret = 0 -> Z.of_nat (length (ok_sets l)) = (rem + 95) / 96).
Proof.
  assert (Hchunk : forall buf off rem c,
    is_set_call buf off rem c -> rem = Z.of_nat (length buf) -> rem <> 0 ->
    0 < set_len (c_kcs c) <= 96 /\
    Z.of_nat (length (chunk_of c)) = set_len (c_kcs c) /\
    chunk_of c = firstn (Z.to_nat (chunk_len rem)) buf /\
    u8 (chunk_len rem) = chunk_len rem /\ chunk_len rem <= rem).
  { intros b o r c (A1 & A2 & A3 & A4) Hr Hr0.
    destruct (chunk_len_pos r ltac:(lia)) as [P1 P2].
    unfold chunk_of. rewrite A2, A4, length_firstn.
    repeat split; try lia. apply u8_small. lia. }
  induction 1; intros Hrem.
  - destruct buf; [|cbn [length] in Hrem; lia].
    split; [constructor|]. split; [exists []; auto | reflexivity].
  - destruct (IHupload_run Hrem) as (A & B & C).
    destruct (Hchunk _ _ _ _ H0 Hrem H) as (P1 & P2 & _).
    call_flags. rewrite ok_sets_cons_other by auto.
    split; [constructor; auto|]. split; assumption.
  - destruct (Hchunk _ _ _ _ H0 Hrem H) as (P1 & P2 & _).
    assert (Hneg : c_ret c <> 0) by lia.
    call_flags. rewrite ok_sets_cons_other by auto.
    split; [constructor; auto|]. split.
    + exists buf. split; [reflexivity | congruence].
    + congruence.
  - destruct (Hchunk _ _ _ _ H0 Hrem H) as (P1 & P2 & P3 & _).
    assert (Hneg : c_ret g <> 0) by lia.
    call_flags.
    rewrite ok_sets_cons_ok by auto. rewrite ok_sets_cons_other by auto.
    split.
    { constructor; [auto|]. constructor; [intros E; congruence | constructor]. }
    split.
    + exists (skipn (Z.to_nat (chunk_len rem)) buf). cbn [map concat ok_sets filter].
      rewrite app_nil_r, P3. split; [apply firstn_skipn | congruence].
    + congruence.
  - destruct (Hchunk _ _ _ _ H0 Hrem H) as (P1 & P2 & P3 & P4 & P5).
    rewrite P4 in *.
    assert (Hpos : 0 < rem) by lia.
    pose proof (chunk_len_pos rem Hpos) as Hcl.
    destruct IHupload_run as (A & (rest & B1 & B2) & C).
    { rewrite length_skipn. lia. }
    call_flags.
    rewrite ok_sets_cons_ok by auto. rewrite ok_sets_cons_other by auto.
    split.
    { constructor; [auto|]. constructor; [intros E; congruence | exact A]. }
    split.
    + exists rest. cbn [map concat]. rewrite <- app_assoc, B1, P3.
      split; [apply firstn_skipn | exact B2].
    + intros Hret. cbn [length]. rewrite Nat2Z.inj_succ, (C Hret).
      rewrite <- (chunk_len_ceil rem Hpos). lia.
Qed.

Lemma reply_body_buf ci data_size buf fl addr d :
  snd (fst (reply_body ci data_size buf fl addr d))
  = d_buf (snd (payload_loop (Z.to_nat (fl - 1)) ci addr
                  (mkDec 0 (if msg_param ci then data_size else 0) buf d))).
Proof.
  unfold reply_body.
  destruct (payload_loop _ ci addr _) as [ret st]. cbn [snd].
  destruct (negb (ret =? 0)); [reflexivity|].
  rewrite regmap_read_eq.
  destruct (negb (fst _ =? 0)); [reflexivity|].
  destruct (negb (_ =? fl)); [reflexivity|].
  destruct (negb (_ =? _)); reflexivity.
Qed.

(** ** Accepted requests reach the mailbox *)

Lemma setup_loop_nreads n : forall i bd addr st,
  nreads (e_dev (setup_loop n i bd addr st)) = nreads (e_dev st).
Proof.
  induction n as [|n IH]; intros i bd addr st; cbn [setup_loop]; [reflexivity|].
  rewrite IH. destruct (_ =? NAU8360_DSP_DATA_BYTE); reflexivity.
Qed.

Lemma massage_nreads ci frag_len off size pd addr d :
  nreads (snd (nau8360_massage_to_dsp ci frag_len off size pd addr d))
  = nreads (snd (nau8360_dsp_idle addr d)).
Proof.
  unfold nau8360_massage_to_dsp.
  destruct (nau8360_dsp_idle addr d) as [ret d1]. cbn [snd].
  destruct (negb (ret =? 0)); [reflexivity|].
  destruct (negb (msg_param ci)); [reflexivity|].
  destruct (setup_data ci).
  - match goal with |- context [setup_loop ?n ?i ?bd addr ?st] =>
      pose proof (setup_loop_nreads n i bd addr st) as E;
      destruct (setup_loop n i bd addr st) as [da ds fc dv] end.
    cbn [e_data e_data_size e_frag_cnt e_dev nreads snd_soc_component_write] in *.
    destruct ((0 <? ds) && (ds <? NAU8360_DSP_DATA_BYTE));
      match goal with |- context [negb ?b] => destruct (negb b) end;
      cbn [snd nreads snd_soc_component_write]; exact E.
  - match goal with |- context [negb ?b] => destruct (negb b) end; reflexivity.
Qed.

Lemma dsp_idle_loop_once r addr d :
  (nreads d < nreads (snd (dsp_idle_loop (S r) addr d)))%nat.
Proof.
  cbn [dsp_idle_loop]. rewrite regmap_read_eq.
  destruct (negb (fst (oracle d (nreads d)) =? 0)).
  - cbn [snd]. rewrite nreads_read. lia.
  - destruct (u32 (snd (oracle d (nreads d))) =? NAU8360_DSP_COMM_IDLE_WORD).
    + cbn [snd]. rewrite nreads_read. lia.
    + destruct (dsp_idle_loop_reads r addr (snd (regmap_read addr d)))
        as ((_ & _ & A) & _).
      rewrite nreads_read in A. lia.
Qed.

Lemma idle_reads_once addr d :
  (nreads d < nreads (snd (nau8360_dsp_idle addr d)))%nat.
Proof. apply (dsp_idle_loop_once 9). Qed.

(** A request that passes the argument checks reads the mailbox. *)
Lemma send_accepted_reads cmd ks addr d :
  request_check cmd ks = 0 ->
  (nreads d < nreads (snd (nau8360_send_dsp_command cmd (Some ks) addr d)))%nat.
Proof.
  intros H. rewrite send_accepted by exact H. cbv zeta.
  match goal with |- context [nau8360_massage_to_dsp ?a ?b ?c ?e ?f addr d] =>
    pose proof (massage_nreads a b c e f addr d) as E;
    destruct (nau8360_massage_to_dsp a b c e f addr d) as [ret d1] end.
  cbn [snd] in E. pose proof (idle_reads_once addr d) as I.
  destruct (negb (ret =? 0)).
  - cbn [snd]. lia.
  - match goal with |- context [nau8360_reply_from_dsp ?a ?b ?c addr d1] =>
      destruct (reply_from_dsp_reads a b c addr d1) as (_ & _ & R) end.
    lia.
Qed.

Lemma send_reads_mono cmd ks addr d :
  (nreads d <= nreads (snd (nau8360_send_dsp_command cmd (Some ks) addr d)))%nat.
Proof.
  destruct (Z.eq_dec (request_check cmd ks) 0) as [H|H].
  - pose proof (send_accepted_reads cmd ks addr d H). lia.
  - rewrite send_rejected by exact H. cbn [snd]. lia.
Qed.

Lemma kcs_setup_loop_reads_mono addr fuel : forall st d ret d',
  kcs_setup_loop (dispatch addr) fuel st d = Some (ret, d') ->
  (nreads d <= nreads d')%nat.
Proof.
  induction fuel as [|fuel IH]; intros st d ret d' H; [discriminate|].
  cbn [kcs_setup_loop] in H.
  destruct (u_data_rem st =? 0).
  { injection H as _ E. subst. lia. }
  match type of H with context [dispatch addr ?c ?k d] =>
    pose proof (send_reads_mono c k addr d) as M1;
    fold (dispatch addr c k d) in M1;
    destruct (dispatch addr c k d) as [[r rst] d1] end.
  cbn [snd] in M1.
  destruct (r <? 0).
  - destruct (u_retries st <? NAU8360_DSP_RETRY_MAX).
    + apply IH in H. lia.
    + injection H as _ E. subst. lia.
  - match type of H with context [dispatch addr ?c ?k d1] =>
      pose proof (send_reads_mono c k addr d1) as M2;
      fold (dispatch addr c k d1) in M2;
      destruct (dispatch addr c k d1) as [[r' rst'] d2] end.
    cbn [snd] in M2.
    destruct (r' <? 0).
    + injection H as _ E. subst. lia.
    + apply IH in H. lia.
Qed.

Lemma kcs_setup_loop_first_read addr fuel st d ret d' :
  u_data_rem st <> 0 -> u_get_data st <> None ->
  kcs_setup_loop (dispatch addr) (S fuel) st d = Some (ret, d') ->
  (nreads d < nreads d')%nat.
Proof.
  intros Hz Hg H. cbn [kcs_setup_loop] in H.
  apply Z.eqb_neq in Hz. rewrite Hz in H. apply Z.eqb_neq in Hz.
  fold (chunk_len (u_data_rem st)) in H.
  assert (Hc : chunk_len (u_data_rem st) <> 0).
  { unfold chunk_len, NAU8360_DSP_KCS_TX_MAX.
    destruct (96 <? u_data_rem st); lia. }
  match type of H with context [dispatch addr ?c ?k d] =>
    assert (Hchk : request_check c k = 0)
  end.
  { unfold request_check. cbn [set_len set_kcs_data get_data set_kcs_offset].
    apply Z.eqb_neq in Hc.
    destruct (u_get_data st); [|congruence].
    cbn. rewrite Hc. reflexivity. }
  match type of H with context [dispatch addr ?c ?k d] =>
    pose proof (send_accepted_reads c k addr d Hchk) as M1;
    fold (dispatch addr c k d) in M1;
    destruct (dispatch addr c k d) as [[r rst] d1]
  end.
  cbn [snd] in M1.
  destruct (r <? 0).
  - destruct (u_retries st <? NAU8360_DSP_RETRY_MAX).
    + apply kcs_setup_loop_reads_mono in H. lia.
    + injection H as _ E. subst. lia.
  - match type of H with context [dispatch addr ?c ?k d1] =>
      pose proof (send_reads_mono c k addr d1) as M2;
      fold (dispatch addr c k d1) in M2;
      destruct (dispatch addr c k d1) as [[r' rst'] d2] end.
    cbn [snd] in M2.
    destruct (r' <? 0).
    + injection H as _ E. subst. lia.
    + apply kcs_setup_loop_reads_mono in H. lia.
Qed.

(** An upload of a non-empty buffer within the caps reads the mailbox. *)
Lemma kcs_setup_reads offset size l addr get_len0 kcs_rst0 d ret d' :
  size <= 1024 -> offset <= 3072 -> size <> 0 ->
  nau8360_dsp_kcs_setup offset size (Some l) addr get_len0 kcs_rst0 d
  = Some (ret, d') ->
  (nreads d < nreads d')%nat.
Proof.
  intros Hs Ho Hz H. unfold nau8360_dsp_kcs_setup, dsp_kcs_setup in H.
  apply Z.ltb_ge in Hs. apply Z.ltb_ge in Ho.
  unfold NAU8360_DSP_KCS_DAT_LEN_MAX, NAU8360_DSP_KCS_OFFSET_MAX in H.
  rewrite Hs, Ho in H. cbn [orb] in H.
  unfold kcs_setup_fuel in H.
  replace (Z.to_nat (Z.abs size) + 5)%nat
    with (S (Z.to_nat (Z.abs size) + 4)) in H by lia.
  apply kcs_setup_loop_first_read in H; auto. discriminate.
Qed.

(** Without parameters, whatever the device answers, the decoder leaves
    the length of the caller buffer and everything after its first four
    bytes as they were. *)
Lemma fixed_reply_frame ci ds buf addr d :
  msg_param ci = false ->
  exists buf',
    snd (fst (nau8360_reply_from_dsp ci ds (Some buf) addr d)) = Some buf' /\
    length buf' = length buf /\ skipn 4 buf' = skipn 4 buf.
Proof.
  intros Hp.
  assert (G : forall d0,
    exists buf',
      snd (fst (let '(ret, frag_len, d1) := nau8360_dsp_replied addr d0 in
                if negb (ret =? 0) then (ret, Some buf, d1)
                else if frag_len =? 0 then (0, Some buf, d1)
                else
                  let '(ret, buf0, d2) := reply_body ci ds buf frag_len addr d1 in
                  (ret, Some buf0, d2))) = Some buf' /\
      length buf' = length buf /\ skipn 4 buf' = skipn 4 buf).
  { intros d0. destruct (nau8360_dsp_replied addr d0) as [[ret fl] d1].
    destruct (negb (ret =? 0)); [exists buf; auto|].
    destruct (fl =? 0); [exists buf; auto|].
    pose proof (reply_body_buf ci ds buf fl addr d1) as E.
    destruct (reply_body ci ds buf fl addr d1) as [[r b] d2].
    cbn [fst snd] in *. exists b. split; [reflexivity|]. subst b.
    rewrite Hp.
    destruct (payload_loop_fixed_frame ci addr (Z.to_nat (fl - 1))
                (mkDec 0 0 buf d1) Hp eq_refl) as (_ & A & B).
    cbn [d_buf] in *. auto. }
  unfold nau8360_reply_from_dsp.
  destruct (negb (reply_data ci)).
  - destruct (nau8360_dsp_replied addr d) as [[ret fl] d1].
    destruct (negb (ret =? 0)); [exists buf; auto|].
    destruct (fl =? 0); [exists buf; auto|].
    apply G.
  - apply G.
Qed.

(** * Properties of the protocol *)

(** ** C9: the idle wait *)

(** C9.  The idle wait reads the mailbox at most 10 times and never
    writes.  When the first [k] reads (k < 10) show other words and read
    number [k] shows 0xF4F3F2F1, it succeeds after exactly [k + 1] reads;
    when 10 reads in a row show other words it fails with [-EIO], the
    driver's time-out value, after exactly 10 reads, and every request
    that [nau8360_send_dsp_command] accepts then fails with the same value
    on the same device state: no word, so no preamble, was written. *)
Theorem idle_wait_bounded_poll (addr : Z) (d : dev) :
  let r := nau8360_dsp_idle addr d in
  (nreads (snd r) <= nreads d + 10)%nat /\
  written (snd r) = written d /\
  (forall k, (k < 10)%nat ->
     (forall j, (j < k)%nat -> busy_read d j) -> idle_read d k ->
     fst r = 0 /\ nreads (snd r) = (nreads d + k + 1)%nat) /\
  ((forall j, (j < 10)%nat -> busy_read d j) ->
   fst r = - EIO /\ nreads (snd r) = (nreads d + 10)%nat /\
   forall cmd ks, request_check cmd ks = 0 ->
     nau8360_send_dsp_command cmd (Some ks) addr d
     = (- EIO, get_data ks, snd r) /\
     written (snd (nau8360_send_dsp_command cmd (Some ks) addr d)) = written d).
Proof.
  intros r.
  assert (Hw : written (snd r) = written d) by apply idle_reads_only.
  split; [apply (dsp_idle_loop_reads NAU8360_DSP_IDLE_RETRY)|].
  split; [exact Hw|]. split.
  - intros k Hk Hbusy Hidle.
    apply (dsp_idle_loop_found NAU8360_DSP_IDLE_RETRY addr d k Hk Hbusy Hidle).
  - intros Hbusy.
    destruct (dsp_idle_loop_timeout NAU8360_DSP_IDLE_RETRY addr d Hbusy)
      as [A B].
    fold (nau8360_dsp_idle addr d) in A, B.
    split; [exact A|]. split; [exact B|]. intros cmd ks Hchk.
    assert (Hr : nau8360_dsp_idle addr d = (- EIO, snd r)).
    { subst r. destruct (nau8360_dsp_idle addr d) as [x y].
      cbn [fst snd] in *. congruence. }
    assert (Hs : nau8360_send_dsp_command cmd (Some ks) addr d
                 = (- EIO, get_data ks, snd r)).
    { rewrite send_accepted by exact Hchk. cbv zeta.
      rewrite (massage_not_idle _ _ _ _ _ addr d (- EIO) (snd r) Hr)
        by (unfold EIO; lia).
      reflexivity. }
    split; [exact Hs|]. rewrite Hs. exact Hw.
Qed.

(** A mailbox that shows the idle word at the third read: the wait
    succeeds after three reads.  A mailbox that shows 0 ten times:
    GetCounter times out and nothing is written. *)
Lemma idle_wait_bounded_poll_witness :
  nau8360_dsp_idle 0xF000 dev_idle_third
  = (0, snd (nau8360_dsp_idle 0xF000 dev_idle_third)) /\
  nreads (snd (nau8360_dsp_idle 0xF000 dev_idle_third)) = 3%nat /\
  fst (nau8360_dsp_idle 0xF000 dev_busy) = - EIO /\
  nreads (snd (nau8360_dsp_idle 0xF000 dev_busy)) = 10%nat /\
  nau8360_send_dsp_command NAU8360_DSP_CMD_GET_COUNTER (Some ks_query) 0xF000
                           dev_busy
  = (- EIO, get_data ks_query, snd (nau8360_dsp_idle 0xF000 dev_busy)) /\
  written (snd (nau8360_send_dsp_command NAU8360_DSP_CMD_GET_COUNTER
                  (Some ks_query) 0xF000 dev_busy)) = [].
Proof.
  destruct (idle_wait_bounded_poll 0xF000 dev_idle_third) as (_ & _ & F & _).
  destruct (F 2%nat) as [F1 F2].
  { lia. }
  { intros j Hj.
    destruct j as [|[|j]]; [vm_compute; split; [reflexivity | discriminate] ..|lia]. }
  { vm_compute. split; reflexivity. }
  destruct (idle_wait_bounded_poll 0xF000 dev_busy) as (_ & _ & _ & T).
  destruct T as (A & B & C).
  { intros j Hj. unfold busy_read, dev_busy, script; cbn [oracle nreads].
    do 10 (destruct j as [|j]; [vm_compute; split; [reflexivity | discriminate]|]).
    lia. }
  destruct (C NAU8360_DSP_CMD_GET_COUNTER ks_query eq_refl) as [C1 C2].
  split.
  { destruct (nau8360_dsp_idle 0xF000 dev_idle_third) as [x y].
    cbn [fst snd] in *. congruence. }
  split; [exact F2|]. split; [exact A|]. split; [exact B|].
  split; [exact C1 | exact C2].
Defined.

(** ** C3: commands without parameters *)

(** C3 (amended).  For every command whose table entry has no parameter,
    once the idle pattern has been seen, [nau8360_send_dsp_command] writes
    exactly one word, the preamble, and the fragment count encoded in that
    word is 0: the count covers the words that follow the preamble. *)
Theorem bare_command_sends_preamble_only (cmd : Z) (ks : nau8360_kcs_setup)
    (addr : Z) (d d1 : dev) :
  request_check cmd ks = 0 ->
  msg_param (nau8360_dsp_cmd_table cmd) = false ->
  nau8360_dsp_idle addr d = (0, d1) ->
  let w := word_of_frag (preamble_frag cmd 0) in
  written (snd (nau8360_send_dsp_command cmd (Some ks) addr d))
  = written d ++ [w] /\
  has_preamble (frag_of_word w) = true /\
  preamble_reply_id (frag_of_word w) = cmd /\
  preamble_length (frag_of_word w) = 0.
Proof.
  intros Hchk Hp Hidle w.
  pose proof (request_check_commands _ _ Hchk) as Hc.
  destruct (table_cmd_id cmd Hc) as (Hid & Hrange & Hsetup).
  assert (Hs : setup_data (nau8360_dsp_cmd_table cmd) = false).
  { destruct (setup_data (nau8360_dsp_cmd_table cmd)); [|reflexivity].
    rewrite Hsetup in Hp by reflexivity. discriminate. }
  assert (Hf : frag_of_word w = preamble_frag cmd 0).
  { apply frag_of_word_of_frag; apply preamble_frag_bytes. }
  split.
  - rewrite send_accepted by exact Hchk. cbv zeta.
    unfold message_frag_len. rewrite Hp, Hs.
    rewrite (massage_bare _ _ _ _ _ addr d d1 Hidle Hp). cbn [negb Z.eqb].
    rewrite Hid.
    match goal with |- written (snd (nau8360_reply_from_dsp ?a ?b ?c ?e ?f)) = _ =>
      destruct (reply_from_dsp_reads a b c e f) as (_ & W & _); rewrite W end.
    rewrite written_write.
    destruct (idle_reads_only addr d) as (_ & W' & _).
    rewrite Hidle in W'. cbn [snd] in W'. rewrite W'. reflexivity.
  - rewrite Hf. split; [apply has_preamble_frag|]. split.
    + apply preamble_reply_id_frag. exact Hrange.
    + apply preamble_length_frag; lia.
Qed.

(** GetCounter on an idle DSP that answers with one payload word. *)
Lemma bare_command_sends_preamble_only_witness :
  request_check NAU8360_DSP_CMD_GET_COUNTER ks_query = 0 /\
  written (snd (nau8360_send_dsp_command NAU8360_DSP_CMD_GET_COUNTER
                  (Some ks_query) 0xF000 dev_counter))
  = [] ++ [word_of_frag (preamble_frag NAU8360_DSP_CMD_GET_COUNTER 0)] /\
  has_preamble
    (frag_of_word (word_of_frag (preamble_frag NAU8360_DSP_CMD_GET_COUNTER 0)))
  = true /\
  preamble_reply_id
    (frag_of_word (word_of_frag (preamble_frag NAU8360_DSP_CMD_GET_COUNTER 0)))
  = NAU8360_DSP_CMD_GET_COUNTER /\
  preamble_length
    (frag_of_word (word_of_frag (preamble_frag NAU8360_DSP_CMD_GET_COUNTER 0)))
  = 0.
Proof.
  split; [reflexivity|].
  apply (bare_command_sends_preamble_only NAU8360_DSP_CMD_GET_COUNTER ks_query
           0xF000 dev_counter (snd (nau8360_dsp_idle 0xF000 dev_counter)));
    reflexivity.
Defined.

(** The preamble that [send(GetCounter)] writes is 0x0004B2A1; its
    fragment-count field is 0 and not 1. *)
Lemma bare_command_fragcount_not_one :
  fst (fst (nau8360_send_dsp_command NAU8360_DSP_CMD_GET_COUNTER
              (Some ks_query) 0xF000 dev_counter)) = 0 /\
  written (snd (nau8360_send_dsp_command NAU8360_DSP_CMD_GET_COUNTER
                  (Some ks_query) 0xF000 dev_counter)) = [0x0004b2a1] /\
  preamble_length (frag_of_word 0x0004b2a1) = 0 /\
  preamble_length (frag_of_word 0x0004b2a1) <> 1.
Proof. vm_compute. repeat split; discriminate. Qed.

(** ** C2: payload fragments and padding *)

(** C2.  For a command with parameters and setup data, once the idle
    pattern has been seen, the encoder writes, between the descriptor word
    and the trailer, exactly ceil(L/4) payload words for a payload of L
    bytes; their bytes in order are the payload bytes followed by zero
    bytes up to the word boundary; the padding field of the trailer is
    4*ceil(L/4) - L, a value in 0..3; and with the fragment count that
    [nau8360_send_dsp_command] computes the encoder's cross-check passes. *)
Theorem setup_payload_fragments (ci : nau8360_cmd_info) (off : Z)
    (l rest : list Z) (addr : Z) (d d1 : dev) :
  nau8360_dsp_idle addr d = (0, d1) ->
  msg_param ci = true -> setup_data ci = true ->
  let L := Z.of_nat (length l) in
  let r := nau8360_massage_to_dsp ci (message_frag_len ci L) off L
             (Some (l ++ rest)) addr d in
  exists ws w_tr,
    fst r = 0 /\
    written (snd r)
    = written d
      ++ [word_of_frag (preamble_frag (cmd_id ci) (message_frag_len ci L));
          word_of_frag (param_frag off L)]
      ++ ws ++ [w_tr] /\
    Z.of_nat (length ws) = (L + 3) / 4 /\
    words_bytes ws = map u8 l ++ repeat 0 (Z.to_nat (4 * ((L + 3) / 4) - L)) /\
    trailer_pad_len (frag_of_word w_tr) = 4 * ((L + 3) / 4) - L /\
    0 <= 4 * ((L + 3) / 4) - L <= 3.
Proof.
  intros Hidle Hp Hs L r.
  destruct (pad_of_spec l) as [Hpad Hrange]. fold L in Hpad.
  exists (payload_words l),
    (word_of_frag (trailer_frag (2 + Z.of_nat (length (payload_words l)))
                                (pad_of l))).
  subst r. rewrite (massage_setup ci _ off l rest addr d d1 Hidle Hp Hs).
  cbn [fst snd]. rewrite length_payload_words. fold L.
  rewrite message_frag_len_setup by (auto; lia). rewrite Z.eqb_refl.
  split; [reflexivity|]. split.
  - rewrite written_write_all.
    destruct (idle_reads_only addr d) as (_ & W & _).
    rewrite Hidle in W. cbn [snd] in W. rewrite W. reflexivity.
  - split; [reflexivity|]. split.
    + rewrite words_bytes_payload, Hpad. reflexivity.
    + split; [|lia].
      rewrite frag_of_word_of_frag by apply trailer_frag_bytes.
      rewrite trailer_pad_len_frag by lia. exact Hpad.
Qed.

(** SetKcsSetup with the five bytes 1..5: two payload words, padding 3. *)
Lemma setup_payload_fragments_witness :
  nau8360_dsp_idle 0xF000 dev_idle = (0, snd (nau8360_dsp_idle 0xF000 dev_idle)) /\
  exists ws w_tr,
    fst (nau8360_massage_to_dsp
           (nau8360_dsp_cmd_table NAU8360_DSP_CMD_SET_KCS_SETUP)
           (message_frag_len
              (nau8360_dsp_cmd_table NAU8360_DSP_CMD_SET_KCS_SETUP) 5)
           0 5 (Some ([1; 2; 3; 4; 5] ++ [])) 0xF000 dev_idle) = 0 /\
    written (snd (nau8360_massage_to_dsp
                    (nau8360_dsp_cmd_table NAU8360_DSP_CMD_SET_KCS_SETUP)
                    (message_frag_len
                       (nau8360_dsp_cmd_table NAU8360_DSP_CMD_SET_KCS_SETUP) 5)
                    0 5 (Some ([1; 2; 3; 4; 5] ++ [])) 0xF000 dev_idle))
    = [] ++ [0x011cb2a1; 0x00050000] ++ ws ++ [w_tr] /\
    Z.of_nat (length ws) = 2 /\
    words_bytes ws = [1; 2; 3; 4; 5] ++ [0; 0; 0] /\
    trailer_pad_len (frag_of_word w_tr) = 3 /\
    0 <= 3 <= 3.
Proof.
  split; [reflexivity|].
  apply (setup_payload_fragments
           (nau8360_dsp_cmd_table NAU8360_DSP_CMD_SET_KCS_SETUP) 0
           [1; 2; 3; 4; 5] [] 0xF000 dev_idle
           (snd (nau8360_dsp_idle 0xF000 dev_idle))); reflexivity.
Defined.

(** ** C1: what a message frame carries *)

(** C1 (amended).  The message encoder is lossless.  For every supported
    opcode, offset in 0..65535 and payload of L <= 4084 bytes, once the idle
    pattern has been seen the encoder writes a preamble word followed by as
    many words as the preamble's fragment count says, and the fields of
    these words, read the way the driver's own decoder reads preamble and
    trailer fields, give back the request: the opcode (in the preamble bits
    where a reply carries its reply-id); for a command with parameters the
    offset and the size (descriptor word, low byte first) and the fragment
    count again (trailer); for a command with setup data also the payload
    bytes (the first L bytes of the ceil(L/4) payload words) and the
    padding 4*ceil(L/4) - L (trailer). *)
Theorem message_frame_fields (cmd off : Z) (l rest : list Z) (addr : Z)
    (d d1 : dev) :
  nau8360_dsp_commands cmd = true ->
  nau8360_dsp_idle addr d = (0, d1) ->
  0 <= off < 65536 ->
  Z.of_nat (length l) <= 4084 ->
  Forall is_byte l ->
  let ci := nau8360_dsp_cmd_table cmd in
  let L := Z.of_nat (length l) in
  let n := message_frag_len ci L in
  let r := nau8360_massage_to_dsp ci n off L (Some (l ++ rest)) addr d in
  exists w_pre after,
    fst r = 0 /\
    written (snd r) = written d ++ w_pre :: after /\
    has_preamble (frag_of_word w_pre) = true /\
    preamble_reply_id (frag_of_word w_pre) = cmd /\
    preamble_length (frag_of_word w_pre) = n /\
    Z.of_nat (length after) = n /\
    (msg_param ci = false -> after = []) /\
    (msg_param ci = true ->
     exists w_par ws w_tr,
       after = w_par :: ws ++ [w_tr] /\
       b0 (frag_of_word w_par) + 256 * b1 (frag_of_word w_par) = off /\
       b2 (frag_of_word w_par) + 256 * b3 (frag_of_word w_par) = L /\
       trailer_len_pos (frag_of_word w_tr) = n /\
       (setup_data ci = false ->
        ws = [] /\ trailer_pad_len (frag_of_word w_tr) = 0) /\
       (setup_data ci = true ->
        Z.of_nat (length ws) = (L + 3) / 4 /\
        firstn (length l) (words_bytes ws) = l /\
        trailer_pad_len (frag_of_word w_tr) = 4 * ((L + 3) / 4) - L)).
Proof.
  intros Hc Hidle Hoff HL Hbytes ci L n r.
  destruct (table_cmd_id cmd Hc) as (Hid & Hrange & Hsetup). fold ci in Hid, Hsetup.
  destruct (idle_reads_only addr d) as (_ & W & _).
  rewrite Hidle in W. cbn [snd] in W.
  destruct (pad_of_spec l) as [Hpad Hpr]. fold L in Hpad.
  assert (HL0 : 0 <= L) by (subst L; lia).
  assert (Hdiv : 0 <= (L + 3) / 4 <= 1021)
    by (fold L in HL; Z.div_mod_to_equations; lia).
  exists (word_of_frag (preamble_frag cmd n)).
  rewrite (frag_of_word_of_frag (preamble_frag cmd n))
    by apply preamble_frag_bytes.
  destruct (msg_param ci) eqn:Hp.
  - destruct (setup_data ci) eqn:Hs.
    + (* parameters and setup data *)
      assert (Hn : n = 2 + (L + 3) / 4)
        by (subst n; apply message_frag_len_setup; auto).
      exists (word_of_frag (param_frag off L) :: payload_words l
              ++ [word_of_frag (trailer_frag n (pad_of l))]).
      subst r. rewrite (massage_setup ci n off l rest addr d d1 Hidle Hp Hs : nau8360_massage_to_dsp ci n off L _ addr d = _).
      cbn [fst snd]. rewrite length_payload_words. fold L. rewrite <- Hn.
      rewrite Z.eqb_refl, Hid.
      split; [reflexivity|].
      split; [rewrite written_write_all, W; reflexivity|].
      split; [apply has_preamble_frag|].
      split; [apply preamble_reply_id_frag; exact Hrange|].
      split; [apply preamble_length_frag; lia|].
      split.
      { cbn [length]. rewrite length_app. cbn [length].
        rewrite Nat2Z.inj_succ, Nat2Z.inj_add, length_payload_words.
        fold L. cbn [Z.of_nat]. lia. }
      split; [discriminate|]. intros _.
      exists (word_of_frag (param_frag off L)), (payload_words l),
        (word_of_frag (trailer_frag n (pad_of l))).
      rewrite (frag_of_word_of_frag (param_frag off L))
        by apply param_frag_bytes.
      rewrite (frag_of_word_of_frag (trailer_frag n (pad_of l)))
        by apply trailer_frag_bytes.
      split; [reflexivity|].
      destruct (param_frag_fields off L Hoff ltac:(lia)) as [F1 F2].
      split; [exact F1|]. split; [exact F2|].
      split; [apply trailer_len_pos_frag; lia|].
      split; [discriminate|]. intros _.
      split; [apply length_payload_words|]. split.
      * rewrite words_bytes_payload, map_u8_bytes by exact Hbytes.
        rewrite firstn_app, Nat.sub_diag, firstn_all. cbn [firstn].
        apply app_nil_r.
      * rewrite trailer_pad_len_frag by lia. exact Hpad.
    + (* parameters only *)
      assert (Hn : n = 2) by (subst n; apply message_frag_len_param; auto).
      exists [word_of_frag (param_frag off L); word_of_frag (trailer_frag 2 0)].
      subst r. rewrite (massage_param ci n off L _ addr d d1 Hidle Hp Hs).
      cbn [fst snd]. rewrite Hn. cbn [Z.eqb Pos.eqb]. rewrite Hid.
      split; [reflexivity|].
      split; [rewrite written_write_all, W; reflexivity|].
      split; [apply has_preamble_frag|].
      split; [apply preamble_reply_id_frag; exact Hrange|].
      split; [apply preamble_length_frag; lia|].
      split; [reflexivity|].
      split; [discriminate|]. intros _.
      exists (word_of_frag (param_frag off L)), [],
        (word_of_frag (trailer_frag 2 0)).
      rewrite (frag_of_word_of_frag (param_frag off L))
        by apply param_frag_bytes.
      split; [reflexivity|].
      destruct (param_frag_fields off L Hoff ltac:(lia)) as [F1 F2].
      split; [exact F1|]. split; [exact F2|].
      split; [reflexivity|].
      split; [intros _; split; reflexivity | discriminate].
  - (* no parameters: the preamble alone *)
    assert (Hs : setup_data ci = false).
    { destruct (setup_data ci); [|reflexivity].
      specialize (Hsetup eq_refl). discriminate. }
    assert (Hn : n = 0) by (subst n; apply message_frag_len_bare; auto).
    exists [].
    subst r. rewrite (massage_bare ci n off L _ addr d d1 Hidle Hp).
    cbn [fst snd]. rewrite Hid.
    split; [reflexivity|].
    split; [rewrite written_write, W; reflexivity|].
    split; [apply has_preamble_frag|].
    split; [apply preamble_reply_id_frag; exact Hrange|].
    split; [rewrite Hn; apply preamble_length_frag; lia|].
    split; [rewrite Hn; reflexivity|].
    split; [reflexivity | discriminate].
Qed.

(** SetKcsSetup, offset 0, payload 1..5. *)
Lemma message_frame_fields_witness :
  Forall is_byte [1; 2; 3; 4; 5] /\
  exists w_pre w_par ws w_tr,
    fst frame_set5 = 0 /\
    written (snd frame_set5) = w_pre :: w_par :: ws ++ [w_tr] /\
    has_preamble (frag_of_word w_pre) = true /\
    preamble_reply_id (frag_of_word w_pre) = NAU8360_DSP_CMD_SET_KCS_SETUP /\
    preamble_length (frag_of_word w_pre) = 4 /\
    b0 (frag_of_word w_par) + 256 * b1 (frag_of_word w_par) = 0 /\
    b2 (frag_of_word w_par) + 256 * b3 (frag_of_word w_par) = 5 /\
    trailer_len_pos (frag_of_word w_tr) = 4 /\
    Z.of_nat (length ws) = 2 /\
    firstn 5 (words_bytes ws) = [1; 2; 3; 4; 5] /\
    trailer_pad_len (frag_of_word w_tr) = 3.
Proof.
  assert (B : Forall is_byte [1; 2; 3; 4; 5])
    by (repeat constructor; unfold is_byte; lia).
  split; [exact B|].
  destruct (message_frame_fields NAU8360_DSP_CMD_SET_KCS_SETUP 0
              [1; 2; 3; 4; 5] [] 0xF000 dev_idle
              (snd (nau8360_dsp_idle 0xF000 dev_idle)))
    as (w_pre & after & R & W & P1 & P2 & P3 & _ & _ & Q);
    [reflexivity | reflexivity | lia | cbn; lia | exact B |].
  destruct (Q eq_refl) as (w_par & ws & w_tr & E & F1 & F2 & F3 & _ & G).
  destruct (G eq_refl) as (G1 & G2 & G3).
  exists w_pre, w_par, ws, w_tr. subst after.
  split; [exact R|]. split; [exact W|]. split; [exact P1|].
  split; [exact P2|]. split; [exact P3|]. split; [exact F1|].
  split; [exact F2|]. split; [exact F3|]. split; [exact G1|].
  split; [exact G2 | exact G3].
Defined.

(** The driver has no decoder for message frames.  Its only decoder,
    [nau8360_reply_from_dsp], given the five words of the SetKcsSetup frame
    for the payload 1..5, takes the opcode 7 for a reply-id, fails with -7
    after the first word and delivers no payload byte. *)
Lemma message_frame_not_decoded :
  fst frame_set5 = 0 /\
  written (snd frame_set5)
  = [0x011cb2a1; 0x00050000; 0x04030201; 0x00000005; 0x00003004] /\
  fst (fst (nau8360_reply_from_dsp
              (nau8360_dsp_cmd_table NAU8360_DSP_CMD_SET_KCS_SETUP) 5
              (Some [0; 0; 0; 0; 0; 0; 0; 0]) 0xF000
              (replay (written (snd frame_set5))))) = - 7 /\
  snd (fst (nau8360_reply_from_dsp
              (nau8360_dsp_cmd_table NAU8360_DSP_CMD_SET_KCS_SETUP) 5
              (Some [0; 0; 0; 0; 0; 0; 0; 0]) 0xF000
              (replay (written (snd frame_set5)))))
  = Some [0; 0; 0; 0; 0; 0; 0; 0] /\
  nreads (snd (nau8360_reply_from_dsp
                 (nau8360_dsp_cmd_table NAU8360_DSP_CMD_SET_KCS_SETUP) 5
                 (Some [0; 0; 0; 0; 0; 0; 0; 0]) 0xF000
                 (replay (written (snd frame_set5))))) = 1%nat.
Proof. vm_compute. repeat split. Qed.

(** ** C7: a reply that reports a status *)

(** C7 (amended).  When the preamble of the reply carries a non-zero
    reply-id, the exchange returns the negated reply-id, the reply buffer
    is left as it was, and nothing is read after the preamble word (nor
    written).  The reply-id is a value in 1..63; its negation never equals
    [-EPROTO], differs for different reply-ids, and for the reply-ids 1..4
    (so for 3, command does not exist) differs from every errno value the
    driver itself produces: [-EIO] (time-out), [-EINVAL], [-EFAULT] and
    [-ERANGE]. *)
Theorem reply_status_ends_exchange (cmd : Z) (ks : nau8360_kcs_setup)
    (addr : Z) (d d1 : dev) (k : nat) (w : Z) :
  request_check cmd ks = 0 ->
  nau8360_massage_to_dsp (nau8360_dsp_cmd_table cmd)
    (message_frag_len (nau8360_dsp_cmd_table cmd) (set_len ks))
    (set_kcs_offset ks) (set_len ks) (set_kcs_data ks) addr d = (0, d1) ->
  (k < 10)%nat ->
  (forall j, (j < k)%nat -> skipped_read d1 j) ->
  preamble_read d1 k w ->
  preamble_reply_id (frag_of_word w) <> 0 ->
  let id := preamble_reply_id (frag_of_word w) in
  exists d',
    nau8360_send_dsp_command cmd (Some ks) addr d = (- id, get_data ks, d') /\
    nreads d' = (nreads d1 + k + 1)%nat /\
    written d' = written d1 /\
    1 <= id <= 63 /\
    - id <> - EPROTO /\
    (forall id', id' <> id -> - id' <> - id) /\
    (id <= 4 ->
     - id <> - EIO /\ - id <> - EINVAL /\ - id <> - EFAULT /\ - id <> - ERANGE) /\
    (id = NAU8360_DSP_REPLY_COMMAND_DOESNT_EXISTS_ERR ->
     fst (fst (nau8360_send_dsp_command cmd (Some ks) addr d)) = - 3).
Proof.
  intros Hchk Hmsg Hk Hskip Hpre Hid id.
  destruct (dsp_replied_loop_found NAU8360_DSP_IDLE_RETRY addr d1 k w Hk Hskip
              Hpre) as (d' & Hrep & (_ & Hw & _) & Hn).
  fold (nau8360_dsp_replied addr d1) in Hrep. fold id in Hrep.
  apply Z.eqb_neq in Hid. fold id in Hid. rewrite Hid in Hrep.
  apply Z.eqb_neq in Hid.
  pose proof (preamble_reply_id_range w) as Hr. fold id in Hr.
  assert (Hsend : nau8360_send_dsp_command cmd (Some ks) addr d
                  = (- id, get_data ks, d')).
  { rewrite send_accepted by exact Hchk. cbv zeta. rewrite Hmsg.
    cbn [negb Z.eqb].
    apply (reply_from_dsp_stops _ _ _ addr d1 (- id)
             (preamble_length (frag_of_word w)) d').
    - apply request_check_reply_data. exact Hchk.
    - exact Hrep.
    - lia. }
  exists d'. split; [exact Hsend|]. split; [exact Hn|]. split; [exact Hw|].
  split; [lia|]. split; [unfold EPROTO; lia|]. split; [intros; lia|].
  split; [unfold EIO, EINVAL, EFAULT, ERANGE; lia|].
  intros E. rewrite Hsend. cbn [fst]. rewrite E. reflexivity.
Qed.

(** GetCounter answered with reply-id 3. *)
Lemma reply_status_ends_exchange_witness :
  request_check NAU8360_DSP_CMD_GET_COUNTER ks_query = 0 /\
  exists d',
    nau8360_send_dsp_command NAU8360_DSP_CMD_GET_COUNTER (Some ks_query) 0xF000
      (script [ok 0xf4f3f2f1; ok 0x000cb2a1])
    = (- 3, get_data ks_query, d') /\
    nreads d' = (1 + 0 + 1)%nat /\
    written d' = [0x0004b2a1] /\
    1 <= 3 <= 63 /\
    - 3 <> - EPROTO /\
    (forall id', id' <> 3 -> - id' <> - 3) /\
    (3 <= 4 ->
     - 3 <> - EIO /\ - 3 <> - EINVAL /\ - 3 <> - EFAULT /\ - 3 <> - ERANGE) /\
    (3 = NAU8360_DSP_REPLY_COMMAND_DOESNT_EXISTS_ERR ->
     fst (fst (nau8360_send_dsp_command NAU8360_DSP_CMD_GET_COUNTER
                 (Some ks_query) 0xF000 (script [ok 0xf4f3f2f1; ok 0x000cb2a1])))
     = - 3).
Proof.
  split; [reflexivity|].
  apply (reply_status_ends_exchange NAU8360_DSP_CMD_GET_COUNTER ks_query 0xF000
           (script [ok 0xf4f3f2f1; ok 0x000cb2a1])
           (snd (nau8360_massage_to_dsp
                   (nau8360_dsp_cmd_table NAU8360_DSP_CMD_GET_COUNTER) 0 0 4 None
                   0xF000 (script [ok 0xf4f3f2f1; ok 0x000cb2a1])))
           0 0x000cb2a1).
  - reflexivity.
  - reflexivity.
  - lia.
  - intros j Hj. lia.
  - vm_compute. repeat split.
  - vm_compute. discriminate.
Defined.

(** Reply-id 5 (message too long) is returned as -5, which is [-EIO]: the
    value the same call returns when the reply preamble never shows up. *)
Lemma reply_too_long_is_eio :
  preamble_reply_id (frag_of_word 0x0014b2a1) = NAU8360_DSP_REPLY_MSG_TOO_LONG /\
  fst (fst (nau8360_send_dsp_command NAU8360_DSP_CMD_GET_COUNTER
              (Some ks_query) 0xF000 dev_too_long)) = - EIO /\
  nreads (snd (nau8360_send_dsp_command NAU8360_DSP_CMD_GET_COUNTER
                 (Some ks_query) 0xF000 dev_too_long)) = 2%nat /\
  fst (fst (nau8360_send_dsp_command NAU8360_DSP_CMD_GET_COUNTER
              (Some ks_query) 0xF000 dev_idle)) = - EIO /\
  nreads (snd (nau8360_send_dsp_command NAU8360_DSP_CMD_GET_COUNTER
                 (Some ks_query) 0xF000 dev_idle)) = 11%nat.
Proof. vm_compute. repeat split. Qed.

(** ** C8: the trailer check *)




(** ** C10: the buffer of a fixed-width reply *)



(** The same reply, run: the buffer ends with the second payload word in
    its first four bytes and its last four bytes untouched. *)
Lemma fixed_reply_two_words :
  fst (nau8360_reply_from_dsp
         (nau8360_dsp_cmd_table NAU8360_DSP_CMD_GET_COUNTER) 4
         (Some [9; 9; 9; 9; 7; 7; 7; 7]) 0xF000
         (replay [0x0003b2a1; 0x11111111; 0x22222222; 0x00000003]))
  = (0, Some [0x22; 0x22; 0x22; 0x22; 7; 7; 7; 7]).
Proof. reflexivity. Qed.

(** ** C4: the chunks of an upload *)



(** The same upload, run: three chunk writes of 96, 96 and 8 bytes at the
    offsets 0, 96 and 192, each followed by a GetKcsResults check, and the
    three chunks make up the buffer. *)
Lemma upload_200_bytes :
  ret_of (nau8360_dsp_kcs_setup_observed 0 200 (Some data200) 0xF000 0
            [0; 0; 0; 0] dev_coop) = Some 0 /\
  map call_view
      (calls_of (nau8360_dsp_kcs_setup_observed 0 200 (Some data200) 0xF000 0
                   [0; 0; 0; 0] dev_coop))
  = [(NAU8360_DSP_CMD_SET_KCS_SETUP, 0, 96, 0);
     (NAU8360_DSP_CMD_GET_KCS_RSLTS, 0, 4, 0);
     (NAU8360_DSP_CMD_SET_KCS_SETUP, 96, 96, 0);
     (NAU8360_DSP_CMD_GET_KCS_RSLTS, 0, 4, 0);
     (NAU8360_DSP_CMD_SET_KCS_SETUP, 192, 8, 0);
     (NAU8360_DSP_CMD_GET_KCS_RSLTS, 0, 4, 0)] /\
  concat (map chunk_of
            (filter is_set
               (calls_of (nau8360_dsp_kcs_setup_observed 0 200 (Some data200)
                            0xF000 0 [0; 0; 0; 0] dev_coop))))
  = data200.
Proof. vm_compute. repeat split. Qed.


(** ** C5: retries of the uploader *)

(** C5 (amended).  For every upload the driver accepts (size <= 1024,
    offset <= 3072), on any device: a chunk write that fails, with any
    negative value, is followed at once by a chunk write for the same
    chunk unless it is the last call of the upload; at most four chunk
    writes fail in one upload (three retries for the whole upload); a
    GetKcsResults check that fails is the last call; and when the last call
    failed the upload returns its value, and if that call was a chunk write
    it was the fourth chunk write to fail.  An upload that returns an
    error ends with the call that failed with it. *)
Theorem chunk_retry_policy (offset size : Z) (l : list Z)
    (addr get_len0 : Z) (kcs_rst0 : list Z) (d : dev) :
  size <= 1024 -> offset <= 3072 ->
  exists ret calls d',
    nau8360_dsp_kcs_setup_observed offset size (Some l) addr get_len0 kcs_rst0 d
    = Some (ret, (calls, d')) /\
    nau8360_dsp_kcs_setup offset size (Some l) addr get_len0 kcs_rst0 d
    = Some (ret, d') /\
    retries_follow calls /\
    (length (failed_sets calls) <= 4)%nat /\
    failed_check_last calls /\
    (forall before c, calls = before ++ [c] -> c_ret c < 0 ->
       ret = c_ret c /\
       (is_set c = true -> length (failed_sets calls) = 4%nat)) /\
    (ret <> 0 ->
     exists before c, calls = before ++ [c] /\ c_ret c = ret /\ ret < 0).
Proof.
  intros Hs Ho.
  destruct (dsp_kcs_setup_run (dispatch addr) offset size l get_len0 kcs_rst0 d)
    as (ret & calls & d' & A & B & R).
  { exact Hs. }
  { exact Ho. }
  exists ret, calls, d'.
  split; [exact A|]. split; [exact B|].
  split; [eapply upload_run_retries_follow; exact R|].
  split.
  { pose proof (upload_run_failed_count _ _ _ _ _ _ R ltac:(lia)). lia. }
  split; [eapply upload_run_failed_check_last; exact R|].
  split.
  - intros before c Hl Hc.
    destruct (upload_run_last _ _ _ _ _ _ R ltac:(lia) before c Hl Hc) as [E F].
    split; [exact E|]. intros Hset. specialize (F Hset). lia.
  - eapply upload_run_error. exact R.
Qed.

(** The four bytes 1..4 on a mailbox that never shows the idle word: the
    upload fails with the value of its last call, the fourth chunk write
    that failed. *)
Lemma chunk_retry_policy_witness :
  4 <= 1024 /\
  exists calls d' before c,
    nau8360_dsp_kcs_setup_observed 0 4 (Some [1; 2; 3; 4]) 0xF000 0
      [0; 0; 0; 0] dev_busy = Some (- EIO, (calls, d')) /\
    nau8360_dsp_kcs_setup 0 4 (Some [1; 2; 3; 4]) 0xF000 0 [0; 0; 0; 0]
      dev_busy = Some (- EIO, d') /\
    retries_follow calls /\
    calls = before ++ [c] /\ c_ret c = - EIO /\
    (is_set c = true -> length (failed_sets calls) = 4%nat).
Proof.
  split; [lia|].
  destruct (chunk_retry_policy 0 4 [1; 2; 3; 4] 0xF000 0 [0; 0; 0; 0] dev_busy)
    as (ret & calls & d' & A & B & C & _ & _ & D & F); [lia | lia |].
  assert (E : ret_of (nau8360_dsp_kcs_setup_observed 0 4 (Some [1; 2; 3; 4])
                        0xF000 0 [0; 0; 0; 0] dev_busy) = Some (- EIO))
    by (vm_compute; reflexivity).
  rewrite A in E. cbn [ret_of] in E. injection E as E. subst ret.
  destruct F as (before & c & F1 & F2 & F3); [unfold EIO; lia|].
  exists calls, d', before, c.
  split; [exact A|]. split; [exact B|]. split; [exact C|].
  split; [exact F1|]. split; [exact F2|].
  apply (D before c F1). lia.
Defined.

(** A chunk write that fails with [-EPROTO] (the trailer of its reply does
    not match the preamble) is retried, and the upload then succeeds; and
    on a mailbox that never shows the idle word the chunk write is
    attempted four times before the upload gives up. *)
Lemma protocol_failure_is_retried :
  ret_of (nau8360_dsp_kcs_setup_observed 0 4 (Some [1; 2; 3; 4]) 0xF000 0
            [0; 0; 0; 0] dev_bad_trailer_once) = Some 0 /\
  map call_view
      (calls_of (nau8360_dsp_kcs_setup_observed 0 4 (Some [1; 2; 3; 4]) 0xF000
                   0 [0; 0; 0; 0] dev_bad_trailer_once))
  = [(NAU8360_DSP_CMD_SET_KCS_SETUP, 0, 4, - EPROTO);
     (NAU8360_DSP_CMD_SET_KCS_SETUP, 0, 4, 0);
     (NAU8360_DSP_CMD_GET_KCS_RSLTS, 0, 4, 0)] /\
  ret_of (nau8360_dsp_kcs_setup_observed 0 4 (Some [1; 2; 3; 4]) 0xF000 0
            [0; 0; 0; 0] dev_busy) = Some (- EIO) /\
  map call_view
      (calls_of (nau8360_dsp_kcs_setup_observed 0 4 (Some [1; 2; 3; 4]) 0xF000
                   0 [0; 0; 0; 0] dev_busy))
  = [(NAU8360_DSP_CMD_SET_KCS_SETUP, 0, 4, - EIO);
     (NAU8360_DSP_CMD_SET_KCS_SETUP, 0, 4, - EIO);
     (NAU8360_DSP_CMD_SET_KCS_SETUP, 0, 4, - EIO);
     (NAU8360_DSP_CMD_SET_KCS_SETUP, 0, 4, - EIO)].
Proof. vm_compute. repeat split. Qed.

(** ** C6: the transport caps *)

(** C6 (amended).  A GetKcsSetup request whose size exceeds 1024 or whose
    offset exceeds 3072 is refused by the dispatcher, and an upload whose
    size exceeds 1024 or whose offset exceeds 3072 is refused by the
    uploader; in both cases the device is left untouched: no register is
    read or written.  The uploader returns [-EINVAL].  The dispatcher
    returns [-ERANGE] when the request has a length other than 0 and a
    reply buffer, and [-EFAULT] when it has not: that test comes first.
    A GetKcsSetup request with a length and a reply buffer, or an upload
    of a non-empty buffer, with size <= 1024 and offset <= 3072 (so size
    1024 at offset 3072) passes the check and reads the mailbox.  The
    dispatcher applies the caps to GetKcsSetup only. *)
Theorem transport_caps_before_io (ks : nau8360_kcs_setup) (addr : Z) (d : dev)
    (offset size : Z) (data : option (list Z)) (get_len0 : Z)
    (kcs_rst0 : list Z) :
  let s := nau8360_send_dsp_command NAU8360_DSP_CMD_GET_KCS_SETUP (Some ks)
             addr d in
  let u := nau8360_dsp_kcs_setup offset size data addr get_len0 kcs_rst0 d in
  (1024 < set_len ks \/ 3072 < set_kcs_offset ks ->
   snd s = d /\ snd (fst s) = get_data ks /\
   (set_len ks <> 0 -> get_data ks <> None -> fst (fst s) = - ERANGE) /\
   (set_len ks = 0 \/ get_data ks = None -> fst (fst s) = - EFAULT)) /\
  (set_len ks <= 1024 /\ set_kcs_offset ks <= 3072 ->
   set_len ks <> 0 -> get_data ks <> None ->
   (nreads d < nreads (snd s))%nat) /\
  (1024 < size \/ 3072 < offset -> u = Some (- EINVAL, d)) /\
  (size <= 1024 /\ offset <= 3072 -> size <> 0 -> data <> None ->
   exists ret d', u = Some (ret, d') /\ (nreads d < nreads d')%nat).
Proof.
  intros s u.
  assert (Hchk : request_check NAU8360_DSP_CMD_GET_KCS_SETUP ks
                 = if (set_len ks =? 0) || is_null (get_data ks)
                   then - EFAULT
                   else if (1024 <? set_len ks) || (3072 <? set_kcs_offset ks)
                        then - ERANGE else 0).
  { unfold request_check. cbn [nau8360_dsp_commands nau8360_dsp_cmd_table
      msg_param setup_data reply_data Z.eqb Pos.eqb orb negb andb].
    rewrite orb_false_r. reflexivity. }
  split; [|split; [|split]].
  - intros H.
    assert (E : (1024 <? set_len ks) || (3072 <? set_kcs_offset ks) = true).
    { apply orb_true_iff. destruct H; [left | right]; apply Z.ltb_lt; lia. }
    rewrite E in Hchk.
    assert (R : s = (request_check NAU8360_DSP_CMD_GET_KCS_SETUP ks,
                     get_data ks, d)).
    { subst s. apply send_rejected. rewrite Hchk.
      destruct ((set_len ks =? 0) || is_null (get_data ks));
        unfold EFAULT, ERANGE; lia. }
    rewrite R, Hchk. cbn [fst snd].
    split; [reflexivity|]. split; [reflexivity|]. split.
    + intros Hlen Hdata. apply Z.eqb_neq in Hlen. rewrite Hlen.
      destruct (get_data ks); [reflexivity | congruence].
    + intros [Hlen | Hdata].
      * rewrite Hlen. reflexivity.
      * rewrite Hdata. cbn [is_null]. now rewrite orb_true_r.
  - intros [H1 H2] Hlen Hdata.
    apply Z.ltb_ge in H1. apply Z.ltb_ge in H2. rewrite H1, H2 in Hchk.
    apply Z.eqb_neq in Hlen. rewrite Hlen in Hchk.
    destruct (get_data ks) eqn:G; [|congruence]. cbn [is_null orb] in Hchk.
    apply send_accepted_reads. exact Hchk.
  - intros H. apply dsp_kcs_setup_refused. exact H.
  - intros [H1 H2] Hz Hd. destruct data as [l|]; [|congruence].
    destruct (dsp_kcs_setup_run (dispatch addr) offset size l get_len0 kcs_rst0
                d H1 H2) as (ret & calls & d' & _ & B & _).
    exists ret, d'. split; [exact B|].
    eapply kcs_setup_reads; eauto.
Qed.

(** GetKcsSetup for 1024 bytes at offset 3072, for 1025 bytes, and for
    2000 bytes without a reply buffer; an upload of four bytes at offset
    3072 and at offset 3073. *)
Lemma transport_caps_before_io_witness :
  (nreads dev_coop
   < nreads (snd (nau8360_send_dsp_command NAU8360_DSP_CMD_GET_KCS_SETUP
                    (Some ks_read_max) 0xF000 dev_coop)))%nat /\
  (exists ret d',
     nau8360_dsp_kcs_setup 3072 4 (Some [1; 2; 3; 4]) 0xF000 0 [0; 0; 0; 0]
       dev_coop = Some (ret, d') /\
     (nreads dev_coop < nreads d')%nat) /\
  fst (fst (nau8360_send_dsp_command NAU8360_DSP_CMD_GET_KCS_SETUP
              (Some (mkKcs 1025 0 None 1025 (Some []))) 0xF000 dev_coop))
  = - ERANGE /\
  snd (nau8360_send_dsp_command NAU8360_DSP_CMD_GET_KCS_SETUP
         (Some (mkKcs 1025 0 None 1025 (Some []))) 0xF000 dev_coop)
  = dev_coop /\
  fst (fst (nau8360_send_dsp_command NAU8360_DSP_CMD_GET_KCS_SETUP
              (Some (mkKcs 2000 0 None 2000 None)) 0xF000 dev_coop))
  = - EFAULT /\
  nau8360_dsp_kcs_setup 3073 4 (Some [1; 2; 3; 4]) 0xF000 0 [0; 0; 0; 0]
    dev_coop = Some (- EINVAL, dev_coop).
Proof.
  destruct (transport_caps_before_io ks_read_max 0xF000 dev_coop 3072 4
              (Some [1; 2; 3; 4]) 0 [0; 0; 0; 0]) as (_ & A & _ & B).
  split; [apply A; [cbn; lia | cbn; lia | discriminate]|].
  split; [apply B; [lia | lia | discriminate]|].
  destruct (transport_caps_before_io (mkKcs 1025 0 None 1025 (Some [])) 0xF000
              dev_coop 3073 4 (Some [1; 2; 3; 4]) 0 [0; 0; 0; 0])
    as (C & _ & D & _).
  destruct C as (C1 & _ & C2 & _); [cbn; lia|].
  split; [apply C2; [cbn; lia | discriminate]|].
  split; [exact C1|].
  destruct (transport_caps_before_io (mkKcs 2000 0 None 2000 None) 0xF000
              dev_coop 0 0 None 0 []) as (F & _).
  destruct F as (_ & _ & _ & F); [cbn; lia|].
  split; [apply F; right; reflexivity | apply D; lia].
Defined.

(** The boundary values, run: GetKcsSetup for 1025 bytes or at offset 3073
    and an upload of 1025 bytes or at offset 3073 are refused on an
    untouched device; an upload of four bytes at offset 3072 succeeds. *)
Lemma transport_caps_boundaries :
  nau8360_send_dsp_command NAU8360_DSP_CMD_GET_KCS_SETUP
    (Some (mkKcs 1025 0 None 1025 (Some []))) 0xF000 dev_coop
  = (- ERANGE, Some [], dev_coop) /\
  nau8360_send_dsp_command NAU8360_DSP_CMD_GET_KCS_SETUP
    (Some (mkKcs 4 3073 None 4 (Some []))) 0xF000 dev_coop
  = (- ERANGE, Some [], dev_coop) /\
  nau8360_dsp_kcs_setup 0 1025 (Some [1; 2; 3; 4]) 0xF000 0 [0; 0; 0; 0] dev_coop
  = Some (- EINVAL, dev_coop) /\
  nau8360_dsp_kcs_setup 3073 4 (Some [1; 2; 3; 4]) 0xF000 0 [0; 0; 0; 0] dev_coop
  = Some (- EINVAL, dev_coop) /\
  ret_of (nau8360_dsp_kcs_setup_observed 3072 4 (Some [1; 2; 3; 4]) 0xF000 0
            [0; 0; 0; 0] dev_coop) = Some 0.
Proof. repeat split; reflexivity. Qed.

(** The dispatcher does not apply the caps to other opcodes: a
    GetKcsResults request with offset 3073 is sent and succeeds, and a
    SetKcsSetup request of 1025 bytes is written to the mailbox, 260 words
    in all. *)
Lemma caps_only_for_get_kcs_setup :
  3072 < set_kcs_offset ks_query_far /\
  fst (nau8360_send_dsp_command NAU8360_DSP_CMD_GET_KCS_RSLTS
         (Some ks_query_far) 0xF000 dev_counter)
  = (0, Some [0x44; 0x33; 0x22; 0x11]) /\
  length (written (snd (nau8360_send_dsp_command NAU8360_DSP_CMD_GET_KCS_RSLTS
                          (Some ks_query_far) 0xF000 dev_counter))) = 3%nat /\
  1024 < set_len ks_set_long /\
  fst (fst (nau8360_send_dsp_command NAU8360_DSP_CMD_SET_KCS_SETUP
              (Some ks_set_long) 0xF000 dev_coop)) = 0 /\
  length (written (snd (nau8360_send_dsp_command NAU8360_DSP_CMD_SET_KCS_SETUP
                          (Some ks_set_long) 0xF000 dev_coop))) = 260%nat.
Proof. vm_compute. repeat split. Qed.

(** * More of the driver *)

(** ** Access sequences *)

Lemma run_from_refl d : run_from d d [].
Proof. split; [reflexivity|]. now rewrite app_nil_r. Qed.

Lemma run_from_trans d1 d2 d3 es1 es2 :
  run_from d1 d2 es1 -> run_from d2 d3 es2 -> run_from d1 d3 (es1 ++ es2).
Proof.
  intros [A B] [C D]. split; [congruence|].
  rewrite D, B. now rewrite app_assoc.
Qed.

Lemma run_from_read addr d :
  run_from d (snd (regmap_read addr d))
    [EvRead addr (fst (oracle d (nreads d))) (u32 (snd (oracle d (nreads d))))].
Proof. split; reflexivity. Qed.

Lemma run_from_write addr v d :
  run_from d (snd_soc_component_write addr v d) [EvWrite addr v].
Proof. split; reflexivity. Qed.

Lemma run_from_inj d d' es es' :
  run_from d d' es -> run_from d d' es' -> es = es'.
Proof.
  intros [_ A] [_ B]. rewrite A in B. now apply app_inv_head in B.
Qed.

Lemma clean_app es1 es2 : clean es1 -> clean es2 -> clean (es1 ++ es2).
Proof. intros A B. apply Forall_app. now split. Qed.

Lemma stops_clean_prefix ret es1 es2 :
  clean es1 -> stops_at_failure ret es2 -> stops_at_failure ret (es1 ++ es2).
Proof.
  intros A [B | (pre & a & v & E & C & N)].
  - left. now apply clean_app.
  - right. exists (es1 ++ pre), a, v. subst es2.
    rewrite app_assoc. split; [reflexivity|]. split; [now apply clean_app|assumption].
Qed.

Lemma stops_zero es : stops_at_failure 0 es -> clean es.
Proof. intros [A | (pre & a & v & _ & _ & N)]; [assumption | now elim N]. Qed.

Lemma stops_failed_read addr ret v : ret <> 0 ->
  stops_at_failure ret [EvRead addr ret v].
Proof.
  intros N. right. exists [], addr, v. split; [reflexivity|].
  split; [constructor | assumption].
Qed.

Lemma clean_read addr v : clean [EvRead addr 0 v].
Proof. repeat constructor. Qed.

Lemma clean_writes addr es : writes_on addr es -> clean es.
Proof.
  intros H. eapply Forall_impl; [|exact H].
  intros e (v & ->). reflexivity.
Qed.

Lemma reads_on_app addr es1 es2 :
  reads_on addr es1 -> reads_on addr es2 -> reads_on addr (es1 ++ es2).
Proof. intros A B. apply Forall_app. now split. Qed.

Lemma writes_on_app addr es1 es2 :
  writes_on addr es1 -> writes_on addr es2 -> writes_on addr (es1 ++ es2).
Proof. intros A B. apply Forall_app. now split. Qed.

Lemma reads_on_addr addr es :
  reads_on addr es -> Forall (fun e => ev_addr e = addr) es.
Proof.
  intros H. eapply Forall_impl; [|exact H].
  intros e (r & v & ->). reflexivity.
Qed.

Lemma writes_on_addr addr es :
  writes_on addr es -> Forall (fun e => ev_addr e = addr) es.
Proof.
  intros H. eapply Forall_impl; [|exact H].
  intros e (v & ->). reflexivity.
Qed.

Lemma writes_of_app es1 es2 :
  writes_of (es1 ++ es2) = writes_of es1 ++ writes_of es2.
Proof. unfold writes_of. now rewrite flat_map_app. Qed.

Lemma writes_of_reads addr es : reads_on addr es -> writes_of es = [].
Proof.
  induction 1 as [|e es (r & v & ->) _ IH]; [reflexivity|]. exact IH.
Qed.

(** A failed read inside a sequence that stops at its first failure is the
    last access of the sequence. *)
Lemma stops_at_failure_last ret es pre a r v post :
  stops_at_failure ret es -> es = pre ++ EvRead a r v :: post -> r <> 0 ->
  post = [] /\ ret = r.
Proof.
  intros S E N.
  assert (F : failed_read (EvRead a r v) = true).
  { cbn. apply negb_true_iff. now apply Z.eqb_neq. }
  destruct S as [C | (pre' & a' & v' & E' & C & N')].
  - subst es. apply Forall_app in C as [_ C]. inversion C as [|? ? H _]; subst.
    congruence.
  - rewrite E in E'. clear E. destruct post as [|p post].
    + change (pre ++ [EvRead a r v] = pre' ++ [EvRead a' ret v']) in E'.
      apply app_inj_tail in E' as [_ E']. inversion E'. auto.
    + exfalso.
      assert (H : In (EvRead a r v) pre').
      { assert (L : pre' ++ [EvRead a' ret v']
                    = (pre ++ EvRead a r v :: removelast (p :: post))
                      ++ [last (p :: post) p]).
        { rewrite <- E'. rewrite <- app_assoc. f_equal. cbn [app]. f_equal.
          apply app_removelast_last. discriminate. }
        apply app_inj_tail in L as [L _]. rewrite L. apply in_elt. }
      unfold clean in C. rewrite Forall_forall in C. specialize (C _ H).
      congruence.
Qed.

Lemma read_run_refl addr ret d : read_run addr ret d d.
Proof.
  exists []. split; [apply run_from_refl|]. split; [constructor|left; constructor].
Qed.

Lemma read_run_ret addr ret ret' d d' :
  read_run addr ret d d' -> ret = 0 -> read_run addr ret' d d'.
Proof.
  intros (es & A & B & C) ->. exists es. split; [assumption|].
  split; [assumption|]. left. now apply stops_zero.
Qed.

(** A read that fails ends the run; a read that succeeds is followed by
    the rest of the run. *)
Lemma read_run_step addr d ret d' :
  (fst (oracle d (nreads d)) <> 0 ->
   ret = fst (oracle d (nreads d)) /\ d' = snd (regmap_read addr d)) ->
  (fst (oracle d (nreads d)) = 0 ->
   read_run addr ret (snd (regmap_read addr d)) d') ->
  read_run addr ret d d'.
Proof.
  intros F G. destruct (Z.eq_dec (fst (oracle d (nreads d))) 0) as [E | N].
  - destruct (G E) as (es & A & B & C).
    exists ([EvRead addr (fst (oracle d (nreads d)))
                    (u32 (snd (oracle d (nreads d))))] ++ es).
    split; [eapply run_from_trans; [apply run_from_read | exact A]|].
    split.
    + apply reads_on_app; [|assumption]. repeat constructor. eauto.
    + apply stops_clean_prefix; [|assumption]. rewrite E. apply clean_read.
  - destruct (F N) as [-> ->].
    exists [EvRead addr (fst (oracle d (nreads d)))
                   (u32 (snd (oracle d (nreads d))))].
    split; [apply run_from_read|]. split.
    + repeat constructor. eauto.
    + now apply stops_failed_read.
Qed.

Lemma read_run_trans addr ret d1 d2 d3 :
  read_run addr 0 d1 d2 -> read_run addr ret d2 d3 -> read_run addr ret d1 d3.
Proof.
  intros (es1 & A1 & B1 & C1) (es2 & A2 & B2 & C2).
  exists (es1 ++ es2). split; [eapply run_from_trans; eassumption|].
  split; [now apply reads_on_app|].
  apply stops_clean_prefix; [now apply stops_zero | assumption].
Qed.

Lemma dsp_idle_loop_run retries addr : forall d,
  read_run addr (fst (dsp_idle_loop retries addr d)) d
           (snd (dsp_idle_loop retries addr d)).
Proof.
  induction retries as [|r IH]; intros d.
  - apply read_run_refl.
  - cbn [dsp_idle_loop]. rewrite (regmap_read_eq addr d).
    destruct (fst (oracle d (nreads d)) =? 0) eqn:E; cbn [negb].
    + apply Z.eqb_eq in E.
      apply read_run_step; [intros N; now elim N|intros _].
      destruct (u32 (snd (oracle d (nreads d))) =? NAU8360_DSP_COMM_IDLE_WORD).
      * apply read_run_refl.
      * apply IH.
    + apply Z.eqb_neq in E.
      apply read_run_step; [intros _; now split | intros Z0; now elim E].
Qed.

Lemma dsp_replied_loop_run retries addr : forall d,
  read_run addr (fst (fst (dsp_replied_loop retries addr d))) d
           (snd (dsp_replied_loop retries addr d)).
Proof.
  induction retries as [|r IH]; intros d.
  - apply read_run_refl.
  - cbn [dsp_replied_loop]. rewrite (regmap_read_eq addr d).
    destruct (fst (oracle d (nreads d)) =? 0) eqn:E; cbn [negb].
    + apply Z.eqb_eq in E.
      apply read_run_step; [intros N; now elim N|intros _].
      destruct (has_preamble _).
      * destruct (_ =? NAU8360_DSP_REPLY_OK); apply read_run_refl.
      * apply IH.
    + apply Z.eqb_neq in E.
      apply read_run_step; [intros _; now split | intros Z0; now elim E].
Qed.

Lemma payload_loop_run n ci addr : forall st,
  read_run addr (fst (payload_loop n ci addr st)) (d_dev st)
           (d_dev (snd (payload_loop n ci addr st))).
Proof.
  induction n as [|n IH]; intros st.
  - apply read_run_refl.
  - cbn [payload_loop]. rewrite (regmap_read_eq addr (d_dev st)).
    destruct (fst (oracle (d_dev st) (nreads (d_dev st))) =? 0) eqn:E;
      cbn [negb].
    + apply Z.eqb_eq in E.
      apply read_run_step; [intros N; now elim N|intros _].
      destruct (msg_param ci).
      * destruct (NAU8360_DSP_DATA_BYTE <=? d_count st).
        -- apply (IH (mkDec _ _ _ _)).
        -- destruct (copy_loop _ _ _ _ _ _) as [b c]. apply read_run_refl.
      * apply (IH (mkDec _ _ _ _)).
    + apply Z.eqb_neq in E.
      apply read_run_step; [intros _; now split | intros Z0; now elim E].
Qed.

Lemma reply_body_run ci ds buf fl addr d :
  read_run addr (fst (fst (reply_body ci ds buf fl addr d))) d
           (snd (reply_body ci ds buf fl addr d)).
Proof.
  unfold reply_body.
  pose proof (payload_loop_run (Z.to_nat (fl - 1)) ci addr
                (mkDec 0 (if msg_param ci then ds else 0) buf d)) as P.
  destruct (payload_loop _ _ _ _) as [ret st]. cbn [fst snd d_dev] in P.
  destruct (ret =? 0) eqn:E; cbn [negb]; [|exact P].
  apply Z.eqb_eq in E. subst ret.
  eapply read_run_trans; [exact P|].
  rewrite (regmap_read_eq addr (d_dev st)).
  destruct (fst (oracle (d_dev st) (nreads (d_dev st))) =? 0) eqn:E; cbn [negb].
  - apply Z.eqb_eq in E.
    apply read_run_step; [intros N; now elim N|intros _].
    destruct (negb (_ =? fl)); [apply read_run_refl|].
    destruct (negb (_ =? _)); apply read_run_refl.
  - apply Z.eqb_neq in E.
    apply read_run_step; [intros _; now split | intros Z0; now elim E].
Qed.

Lemma dsp_replied_run addr d :
  read_run addr (fst (fst (nau8360_dsp_replied addr d))) d
           (snd (nau8360_dsp_replied addr d)).
Proof. apply dsp_replied_loop_run. Qed.

Lemma reply_from_dsp_run ci ds data addr d :
  read_run addr (fst (fst (nau8360_reply_from_dsp ci ds data addr d))) d
           (snd (nau8360_reply_from_dsp ci ds data addr d)).
Proof.
  assert (G : forall d0,
    read_run addr
      (fst (fst (match data with
                 | None => (- EINVAL, data, d0)
                 | Some buf =>
                     let '(ret, frag_len, d1) := nau8360_dsp_replied addr d0 in
                     if negb (ret =? 0) then (ret, data, d1)
                     else if frag_len =? 0 then (0, data, d1)
                     else
                       let '(ret, buf, d2) :=
                         reply_body ci ds buf frag_len addr d1 in
                       (ret, Some buf, d2)
                 end))) d0
      (snd (match data with
            | None => (- EINVAL, data, d0)
            | Some buf =>
                let '(ret, frag_len, d1) := nau8360_dsp_replied addr d0 in
                if negb (ret =? 0) then (ret, data, d1)
                else if frag_len =? 0 then (0, data, d1)
                else
                  let '(ret, buf, d2) :=
                    reply_body ci ds buf frag_len addr d1 in
                  (ret, Some buf, d2)
            end))).
  { intros d0. destruct data as [buf|]; [|apply read_run_refl].
    pose proof (dsp_replied_run addr d0) as R.
    destruct (nau8360_dsp_replied addr d0) as [[ret fl] d1].
    cbn [fst snd] in R.
    destruct (ret =? 0) eqn:E; cbn [negb]; [|exact R].
    apply Z.eqb_eq in E. subst ret.
    destruct (fl =? 0); [exact R|].
    pose proof (reply_body_run ci ds buf fl addr d1) as B.
    destruct (reply_body ci ds buf fl addr d1) as [[r b] d2].
    cbn [fst snd] in *. eapply read_run_trans; eassumption. }
  unfold nau8360_reply_from_dsp.
  destruct (negb (reply_data ci)); [|apply G].
  pose proof (dsp_replied_run addr d) as R.
  destruct (nau8360_dsp_replied addr d) as [[ret fl] d1]. cbn [fst snd] in R.
  destruct (ret =? 0) eqn:E; cbn [negb]; [|exact R].
  apply Z.eqb_eq in E. subst ret.
  destruct (fl =? 0); [exact R|].
  eapply read_run_trans; [exact R | apply G].
Qed.

Lemma setup_loop_run n addr : forall i bd st,
  exists ws, run_from (e_dev st) (e_dev (setup_loop n i bd addr st)) ws /\
             writes_on addr ws.
Proof.
  induction n as [|n IH]; intros i bd st.
  - exists []. split; [apply run_from_refl | constructor].
  - cbn [setup_loop].
    destruct (e_data_size st + 1 =? NAU8360_DSP_DATA_BYTE).
    + destruct (IH (i + 1) bd
                  (mkEnc frag_zero 0 (e_frag_cnt st + 1)
                     (snd_soc_component_write addr
                        (word_of_frag
                           (set_byte (e_data st) (Z.rem i NAU8360_DSP_DATA_BYTE)
                                     (nth (Z.to_nat i) bd 0)))
                        (e_dev st)))) as (ws & A & B).
      cbn [e_dev] in A. eexists. split.
      * eapply run_from_trans; [apply run_from_write | exact A].
      * apply writes_on_app; [|assumption]. repeat constructor. eauto.
    + apply (IH (i + 1) bd (mkEnc _ _ _ (e_dev st))).
Qed.

Lemma massage_run ci fl off size pd addr d :
  let i := nau8360_dsp_idle addr d in
  let r := nau8360_massage_to_dsp ci fl off size pd addr d in
  exists es ws,
    run_from d (snd r) (es ++ ws) /\ reads_on addr es /\ writes_on addr ws /\
    stops_at_failure (fst i) es /\
    (fst i <> 0 -> ws = [] /\ fst r = fst i) /\
    (fst i = 0 -> fst r = 0 \/ fst r = - EPROTO).
Proof.
  intros i r. subst i r. unfold nau8360_massage_to_dsp.
  destruct (dsp_idle_loop_run NAU8360_DSP_IDLE_RETRY addr d)
    as (es & A & B & C).
  fold (nau8360_dsp_idle addr d) in *.
  destruct (nau8360_dsp_idle addr d) as [ret d1]. cbn [fst snd] in *.
  destruct (ret =? 0) eqn:E; cbn [negb].
  - apply Z.eqb_eq in E. subst ret.
    assert (W : forall ws d2 (x : Z),
              run_from d1 d2 ws -> writes_on addr ws -> (x = 0 \/ x = - EPROTO) ->
              exists es0 ws0,
                run_from d d2 (es0 ++ ws0) /\ reads_on addr es0 /\
                writes_on addr ws0 /\ stops_at_failure 0 es0 /\
                (0 <> 0 -> ws0 = [] /\ x = 0) /\
                (0 = 0 -> x = 0 \/ x = - EPROTO)).
    { intros ws d2 x R Wr X. exists es, ws.
      split; [eapply run_from_trans; eassumption|].
      repeat (split; [assumption|]). split; [intros N; now elim N | auto]. }
    destruct (msg_param ci); cbn [negb].
    + destruct (setup_data ci).
      * set (st0 := mkEnc frag_zero 0 1 _).
        destruct (setup_loop_run (Z.to_nat size) addr 0
                    (match pd with Some l => l | None => [] end) st0)
          as (ws & R & Wr).
        set (st := setup_loop _ _ _ _ _) in *.
        subst st0. cbn [e_dev] in R.
        assert (R0 : run_from d1 (e_dev st)
                       ([EvWrite addr (word_of_frag (preamble_frag (cmd_id ci) fl));
                         EvWrite addr (word_of_frag (param_frag off size))] ++ ws)).
        { eapply run_from_trans; [|exact R].
          eapply (run_from_trans _ _ _ [_] [_]); apply run_from_write. }
        assert (W0 : writes_on addr
                       ([EvWrite addr (word_of_frag (preamble_frag (cmd_id ci) fl));
                         EvWrite addr (word_of_frag (param_frag off size))] ++ ws)).
        { apply writes_on_app; [|assumption]. repeat constructor; eauto. }
        destruct ((0 <? e_data_size st) && (e_data_size st <? NAU8360_DSP_DATA_BYTE)).
        -- match goal with
           | |- context [if negb (?a =? ?b) then _ else _] =>
               destruct (negb (a =? b))
           end; cbn [fst snd];
           (eapply W;
            [eapply run_from_trans;
             [eapply run_from_trans; [exact R0 | apply run_from_write]
             | apply run_from_write]
            | apply writes_on_app;
              [apply writes_on_app; [exact W0 | repeat constructor; eauto]
              | repeat constructor; eauto]
            | auto ]).
        -- match goal with
           | |- context [if negb (?a =? ?b) then _ else _] =>
               destruct (negb (a =? b))
           end; cbn [fst snd];
           (eapply W;
            [eapply run_from_trans; [exact R0 | apply run_from_write]
            | apply writes_on_app; [exact W0 | repeat constructor; eauto]
            | auto ]).
      * match goal with
        | |- context [if negb (?a =? ?b) then _ else _] =>
            destruct (negb (a =? b))
        end; cbn [fst snd];
        (eapply W;
         [eapply run_from_trans;
          [eapply (run_from_trans _ _ _ [_] [_]); apply run_from_write
          | apply run_from_write]
         | repeat constructor; eauto
         | auto ]).
    + cbn [fst snd]. eapply W; [apply run_from_write | repeat constructor; eauto | auto].
  - apply Z.eqb_neq in E. exists es, []. rewrite app_nil_r.
    split; [assumption|]. split; [assumption|]. split; [constructor|].
    split; [assumption|]. split; [auto | intros Z0; now elim E].
Qed.

Lemma exchange_run_refl addr ret d : exchange_run addr ret d d.
Proof.
  exists [], [], []. split; [apply run_from_refl|].
  repeat (split; [constructor|]). left. constructor.
Qed.

Lemma send_run cmd kcs addr d :
  exchange_run addr (fst (fst (nau8360_send_dsp_command cmd kcs addr d))) d
               (snd (nau8360_send_dsp_command cmd kcs addr d)).
Proof.
  unfold nau8360_send_dsp_command.
  destruct kcs as [ks|]; [|apply exchange_run_refl].
  destruct (negb (nau8360_dsp_commands cmd)); [apply exchange_run_refl|].
  match goal with |- context [if ?c then (- EFAULT, _, _) else _] =>
    destruct c end; [apply exchange_run_refl|].
  match goal with |- context [if ?c then (- ERANGE, _, _) else _] =>
    destruct c end; [apply exchange_run_refl|].
  destruct (massage_run (nau8360_dsp_cmd_table cmd)
              (message_frag_len (nau8360_dsp_cmd_table cmd) (set_len ks))
              (set_kcs_offset ks) (set_len ks) (set_kcs_data ks) addr d)
    as (es & ws & R & Rd & Wr & St & F & G).
  destruct (nau8360_massage_to_dsp _ _ _ _ _ _ _) as [ret d1].
  cbn [fst snd] in *.
  destruct (ret =? 0) eqn:E; cbn [negb].
  - apply Z.eqb_eq in E. subst ret.
    assert (I0 : fst (nau8360_dsp_idle addr d) = 0).
    { destruct (Z.eq_dec (fst (nau8360_dsp_idle addr d)) 0) as [Z0|N];
        [assumption|]. destruct (F N) as [_ X]. congruence. }
    rewrite I0 in St.
    destruct (reply_from_dsp_run (nau8360_dsp_cmd_table cmd) (get_len ks)
                (get_data ks) addr d1) as (es2 & R2 & Rd2 & St2).
    exists es, ws, es2.
    split; [rewrite app_assoc; eapply run_from_trans; eassumption|].
    repeat (split; [assumption|]).
    apply stops_clean_prefix; [now apply stops_zero|].
    apply stops_clean_prefix; [now apply (clean_writes addr) | assumption].
  - apply Z.eqb_neq in E. cbn [fst snd].
    exists es, ws, []. rewrite app_nil_r.
    split; [assumption|]. repeat (split; [assumption|]).
    split; [constructor|].
    destruct (Z.eq_dec (fst (nau8360_dsp_idle addr d)) 0) as [Z0|N].
    + rewrite Z0 in St. left.
      apply clean_app; [now apply stops_zero | now apply (clean_writes addr)].
    + destruct (F N) as [-> ->]. now rewrite app_nil_r.
Qed.

(** ** Stores into the reply buffer *)

Lemma store_byte_mid pre mid x tl v :
  store_byte (pre ++ mid ++ x :: tl) (length pre + length mid) v
  = pre ++ mid ++ u8 v :: tl.
Proof.
  unfold store_byte.
  assert (L : (length pre + length mid <? length (pre ++ mid ++ x :: tl))%nat
              = true).
  { apply Nat.ltb_lt. rewrite !length_app. cbn [length]. lia. }
  rewrite L. rewrite !app_assoc. rewrite <- length_app.
  rewrite <- (Nat.add_0_r (length (pre ++ mid))) at 1.
  rewrite firstn_app_2. cbn [firstn]. rewrite app_nil_r.
  f_equal.
  replace (S (length (pre ++ mid))) with (length ((pre ++ mid) ++ [x]))
    by (rewrite (length_app (pre ++ mid)); cbn [length]; lia).
  replace ((pre ++ mid) ++ x :: tl) with (((pre ++ mid) ++ [x]) ++ tl)
    by (rewrite <- (app_assoc (pre ++ mid)); reflexivity).
  now rewrite skipn_app, skipn_all, Nat.sub_diag.
Qed.

Lemma store_word_mid pre a b c e tl w :
  store_word (pre ++ a :: b :: c :: e :: tl) (length pre) w
  = pre ++ frag_bytes (frag_of_word w) ++ tl.
Proof.
  unfold store_word.
  pose proof (frag_of_word_bytes w) as (B0 & B1 & B2 & B3).
  set (f := frag_of_word w) in *.
  pose proof (store_byte_mid pre [] a (b :: c :: e :: tl) (b0 f)) as S0.
  cbn [app length] in S0. rewrite Nat.add_0_r in S0. rewrite S0.
  pose proof (store_byte_mid pre [u8 (b0 f)] b (c :: e :: tl) (b1 f)) as S1.
  cbn [app length] in S1. rewrite S1.
  pose proof (store_byte_mid pre [u8 (b0 f); u8 (b1 f)] c (e :: tl) (b2 f)) as S2.
  cbn [app length] in S2. rewrite S2.
  pose proof (store_byte_mid pre [u8 (b0 f); u8 (b1 f); u8 (b2 f)] e tl (b3 f))
    as S3.
  cbn [app length] in S3. rewrite S3.
  unfold frag_bytes. cbn [app].
  now rewrite !u8_small by assumption.
Qed.

Lemma words_bytes_cons w ws :
  words_bytes (w :: ws) = frag_bytes (frag_of_word w) ++ words_bytes ws.
Proof. reflexivity. Qed.

Lemma length_words_bytes ws : length (words_bytes ws) = (4 * length ws)%nat.
Proof.
  induction ws as [|w ws IH]; [reflexivity|].
  rewrite words_bytes_cons, length_app, IH. cbn [frag_bytes length]. lia.
Qed.

Lemma good_read_step addr d w :
  good_read d 0 w -> regmap_read addr d = ((0, w), snd (regmap_read addr d)).
Proof.
  intros [A B]. rewrite Nat.add_0_r in A, B.
  rewrite (regmap_read_eq addr d). now rewrite A, B.
Qed.

(** The payload loop over fragments that are stored whole: [region] is
    the part of the buffer they go to. *)
Lemma payload_loop_words ci addr n : forall ws pre region post cnt d,
  msg_param ci = true ->
  length region = (4 * length ws)%nat ->
  4 * Z.of_nat (length ws) <= cnt ->
  (forall j, (j < length ws)%nat -> good_read d j (nth j ws 0)) ->
  exists d',
    payload_loop (length ws + n) ci addr
      (mkDec (length pre) cnt (pre ++ region ++ post) d)
    = payload_loop n ci addr
        (mkDec (length pre + 4 * length ws) (cnt - 4 * Z.of_nat (length ws))
               (pre ++ words_bytes ws ++ post) d') /\
    oracle d' = oracle d /\ nreads d' = (nreads d + length ws)%nat /\
    written d' = written d.
Proof.
  induction ws as [|w ws IH]; intros pre region post cnt d Hp Hl Hc Hr.
  - destruct region; [|discriminate]. exists d. cbn [length app words_bytes flat_map].
    rewrite Nat.mul_0_r, !Nat.add_0_r. cbn [Z.of_nat Nat.add].
    rewrite Z.mul_0_r, Z.sub_0_r. auto.
  - destruct region as [|a [|b [|c [|e region]]]];
      try (cbn [length] in Hl; lia).
    cbn [length] in Hl, Hc.
    cbn [length Nat.add payload_loop d_dev d_count d_buf d_pos].
    rewrite (good_read_step addr d w) by (apply (Hr 0%nat); cbn; lia).
    cbn [negb Z.eqb]. rewrite Hp.
    assert (G : (NAU8360_DSP_DATA_BYTE <=? cnt) = true).
    { apply Z.leb_le. unfold NAU8360_DSP_DATA_BYTE. lia. }
    rewrite G.
    change ((a :: b :: c :: e :: region) ++ post)
      with (a :: b :: c :: e :: (region ++ post)).
    rewrite store_word_mid.
    destruct (IH (pre ++ frag_bytes (frag_of_word w)) region post
                 (cnt - NAU8360_DSP_DATA_BYTE) (snd (regmap_read addr d)) Hp)
      as (d' & E & O & N & W).
    { lia. }
    { unfold NAU8360_DSP_DATA_BYTE. lia. }
    { intros j Hj. apply good_read_shift. apply (Hr (S j)). cbn [length]. lia. }
    exists d'. split; [|split; [|split]].
    + rewrite length_app in E. cbn [frag_bytes length] in E.
      rewrite <- app_assoc in E. rewrite E.
      rewrite words_bytes_cons. rewrite <- !app_assoc.
      f_equal. f_equal; [lia | unfold NAU8360_DSP_DATA_BYTE; lia].
    + now rewrite O, oracle_read.
    + rewrite N, nreads_read. lia.
    + now rewrite W, written_read.
Qed.

(** The byte-wise copy of the last, short fragment. *)
Lemma copy_loop_short pre region post w cnt :
  1 <= cnt <= 3 -> Z.of_nat (length region) = cnt ->
  copy_loop 4 0 (frag_of_word w) (length pre) (pre ++ region ++ post) cnt
  = (pre ++ firstn (length region) (frag_bytes (frag_of_word w)) ++ post, 0).
Proof.
  intros Hc Hl.
  pose proof (frag_of_word_bytes w) as (B0 & B1 & B2 & B3).
  pose proof (fun x tl => store_byte_mid pre [] x tl (b0 (frag_of_word w))) as S0.
  pose proof (fun m0 x tl =>
                store_byte_mid pre [m0] x tl (b1 (frag_of_word w))) as S1.
  pose proof (fun m0 m1 x tl =>
                store_byte_mid pre [m0; m1] x tl (b2 (frag_of_word w))) as S2.
  cbn [app length] in S0, S1, S2.
  rewrite (u8_small _ B0) in S0. rewrite (u8_small _ B1) in S1.
  rewrite (u8_small _ B2) in S2.
  assert (C : cnt = 1 \/ cnt = 2 \/ cnt = 3) by lia.
  destruct C as [ -> | [ -> | -> ] ].
  - destruct region as [|x [|? ?]]; try (cbn [length] in Hl; lia).
    cbn [copy_loop length firstn frag_bytes app].
    change (1 - 1 <=? 0) with true. cbv iota.
    change (Z.to_nat 0) with 0%nat.
    change (get_byte (frag_of_word w) 0) with (b0 (frag_of_word w)).
    now rewrite S0.
  - destruct region as [|x [|y [|? ?]]]; try (cbn [length] in Hl; lia).
    cbn [copy_loop length firstn frag_bytes app].
    change (2 - 1 <=? 0) with false. change (2 - 1 - 1 <=? 0) with true.
    cbv iota.
    change (Z.to_nat 0) with 0%nat. change (Z.to_nat (0 + 1)) with 1%nat.
    change (get_byte (frag_of_word w) 0) with (b0 (frag_of_word w)).
    change (get_byte (frag_of_word w) (0 + 1)) with (b1 (frag_of_word w)).
    now rewrite S0, S1.
  - destruct region as [|x [|y [|z [|? ?]]]]; try (cbn [length] in Hl; lia).
    cbn [copy_loop length firstn frag_bytes app].
    change (3 - 1 <=? 0) with false. change (3 - 1 - 1 <=? 0) with false.
    change (3 - 1 - 1 - 1 <=? 0) with true. cbv iota.
    change (Z.to_nat 0) with 0%nat. change (Z.to_nat (0 + 1)) with 1%nat.
    change (Z.to_nat (0 + 1 + 1)) with 2%nat.
    change (get_byte (frag_of_word w) 0) with (b0 (frag_of_word w)).
    change (get_byte (frag_of_word w) (0 + 1)) with (b1 (frag_of_word w)).
    change (get_byte (frag_of_word w) (0 + 1 + 1)) with (b2 (frag_of_word w)).
    now rewrite S0, S1, S2.
Qed.

(** The byte-wise copy when nothing is left to store: one byte is stored
    all the same. *)
Lemma copy_loop_spent pre y post w cnt :
  cnt <= 0 ->
  copy_loop 4 0 (frag_of_word w) (length pre) (pre ++ y :: post) cnt
  = (pre ++ b0 (frag_of_word w) :: post, cnt - 1).
Proof.
  intros Hc.
  pose proof (frag_of_word_bytes w) as (B0 & _).
  pose proof (store_byte_mid pre [] y post (b0 (frag_of_word w))) as S0.
  cbn [app length] in S0. rewrite (u8_small _ B0) in S0.
  cbn [copy_loop]. change (Z.to_nat 0) with 0%nat.
  change (get_byte (frag_of_word w) 0) with (b0 (frag_of_word w)).
  rewrite S0.
  destruct (cnt - 1 <=? 0) eqn:E; [reflexivity|].
  apply Z.leb_gt in E. lia.
Qed.

(** The payload loop of a read-back whose reply has exactly the fragments
    the request needs: [region] is the part of the buffer that was asked
    for. *)
Lemma payload_loop_readback ci addr : forall ws pre region post d,
  msg_param ci = true ->
  Z.of_nat (length ws) = (Z.of_nat (length region) + 3) / 4 ->
  (forall j, (j < length ws)%nat -> good_read d j (nth j ws 0)) ->
  exists p' d',
    payload_loop (length ws) ci addr
      (mkDec (length pre) (Z.of_nat (length region)) (pre ++ region ++ post) d)
    = (0, mkDec p' 0
            (pre ++ firstn (length region) (words_bytes ws) ++ post) d') /\
    oracle d' = oracle d /\ nreads d' = (nreads d + length ws)%nat /\
    written d' = written d.
Proof.
  induction ws as [|w ws IH]; intros pre region post d Hp Hl Hr.
  - cbn [length Z.of_nat] in Hl.
    assert (length region = 0%nat).
    { apply Nat2Z.inj. cbn [Z.of_nat].
      pose proof (Nat2Z.is_nonneg (length region)).
      Z.div_mod_to_equations. lia. }
    destruct region; [|discriminate]. exists (length pre), d.
    cbn [payload_loop length Z.of_nat firstn app]. rewrite Nat.add_0_r. auto.
  - cbn [length payload_loop d_dev d_count d_buf d_pos].
    rewrite (good_read_step addr d w) by (apply (Hr 0%nat); cbn; lia).
    cbn [negb Z.eqb]. rewrite Hp.
    destruct (NAU8360_DSP_DATA_BYTE <=? Z.of_nat (length region)) eqn:G.
    + apply Z.leb_le in G. unfold NAU8360_DSP_DATA_BYTE in G.
      destruct region as [|a [|b [|c [|e region]]]];
        try (cbn [length] in G; lia).
      change ((a :: b :: c :: e :: region) ++ post)
        with (a :: b :: c :: e :: (region ++ post)).
      rewrite store_word_mid.
      destruct (IH (pre ++ frag_bytes (frag_of_word w)) region post
                   (snd (regmap_read addr d)) Hp)
        as (p' & d' & E & O & N & W).
      { cbn [length] in Hl. rewrite !Nat2Z.inj_succ in Hl.
        Z.div_mod_to_equations. lia. }
      { intros j Hj. apply good_read_shift. apply (Hr (S j)). cbn [length]. lia. }
      exists p', d'. split; [|split; [|split]].
      * rewrite length_app in E. cbn [frag_bytes length] in E.
        rewrite <- app_assoc in E.
        replace (Z.of_nat (length (a :: b :: c :: e :: region))
                 - NAU8360_DSP_DATA_BYTE) with (Z.of_nat (length region))
          by (cbn [length]; unfold NAU8360_DSP_DATA_BYTE; lia).
        rewrite E. rewrite words_bytes_cons.
        replace (firstn (length (a :: b :: c :: e :: region))
                   (frag_bytes (frag_of_word w) ++ words_bytes ws))
          with (frag_bytes (frag_of_word w)
                ++ firstn (length region) (words_bytes ws))
          by (unfold frag_bytes; reflexivity).
        now rewrite <- !app_assoc.
      * now rewrite O, oracle_read.
      * rewrite N, nreads_read. lia.
      * now rewrite W, written_read.
    + apply Z.leb_gt in G. unfold NAU8360_DSP_DATA_BYTE in G.
      assert (L1 : 1 <= Z.of_nat (length region) <= 3).
      { cbn [length] in Hl. rewrite Nat2Z.inj_succ in Hl.
        pose proof (Nat2Z.is_nonneg (length ws)).
        Z.div_mod_to_equations. lia. }
      assert (ws = []).
      { destruct ws; [reflexivity|]. cbn [length] in Hl.
        rewrite !Nat2Z.inj_succ in Hl.
        pose proof (Nat2Z.is_nonneg (length ws)).
        Z.div_mod_to_equations. lia. }
      subst ws.
      rewrite (copy_loop_short pre region post w _ L1 eq_refl).
      exists (length pre), (snd (regmap_read addr d)).
      split; [|split; [|split]].
      * rewrite words_bytes_cons. cbn [words_bytes flat_map].
        now rewrite app_nil_r.
      * apply oracle_read.
      * rewrite nreads_read. cbn [length]. lia.
      * apply written_read.
Qed.

(** ** Exchanges in sequence *)

Lemma send_at cmd kcs addr d :
  exists es,
    run_from d (snd (nau8360_send_dsp_command cmd kcs addr d)) es /\
    Forall (fun e => ev_addr e = addr) es /\
    stops_at_failure (fst (fst (nau8360_send_dsp_command cmd kcs addr d))) es.
Proof.
  destruct (send_run cmd kcs addr d) as (es1 & ws & es2 & R & A & B & C & S).
  exists (es1 ++ ws ++ es2). split; [assumption|]. split; [|assumption].
  apply Forall_app. split; [now apply reads_on_addr|].
  apply Forall_app. split; [now apply writes_on_addr | now apply reads_on_addr].
Qed.

(** A command without parameters writes one word at most: its preamble. *)
Lemma bare_send_writes cmd ks addr d :
  nau8360_dsp_commands cmd = true ->
  msg_param (nau8360_dsp_cmd_table cmd) = false ->
  let r := nau8360_send_dsp_command cmd (Some ks) addr d in
  let w := word_of_frag (preamble_frag cmd 0) in
  exists es,
    run_from d (snd r) es /\
    Forall (fun e => ev_addr e = addr) es /\
    stops_at_failure (fst (fst r)) es /\
    (writes_of es = [] \/ writes_of es = [(addr, w)]) /\
    (fst (fst r) = 0 -> writes_of es = [(addr, w)]).
Proof.
  intros Hc Hp r w. subst r w.
  destruct (table_cmd_id cmd Hc) as (Hid & _ & Hs).
  assert (Hsd : setup_data (nau8360_dsp_cmd_table cmd) = false).
  { destruct (setup_data (nau8360_dsp_cmd_table cmd)); [|reflexivity].
    rewrite Hs in Hp by reflexivity. discriminate. }
  destruct (Z.eq_dec (request_check cmd ks) 0) as [Z0 | N].
  - rewrite (send_accepted cmd ks addr d Z0). cbv zeta.
    rewrite (message_frag_len_bare _ _ Hp Hsd).
    pose proof (dsp_idle_loop_run NAU8360_DSP_IDLE_RETRY addr d)
      as (es & R & Rd & St).
    fold (nau8360_dsp_idle addr d) in R, St.
    destruct (nau8360_dsp_idle addr d) as [ri d1] eqn:Ei. cbn [fst snd] in *.
    destruct (Z.eq_dec ri 0) as [-> | Ni].
    + rewrite (massage_bare _ 0 _ _ _ addr d d1 Ei Hp). cbn [negb Z.eqb].
      rewrite Hid.
      destruct (reply_from_dsp_run (nau8360_dsp_cmd_table cmd) (get_len ks)
                  (get_data ks) addr
                  (snd_soc_component_write addr
                     (word_of_frag (preamble_frag cmd 0)) d1))
        as (es2 & R2 & Rd2 & St2).
      exists (es ++ [EvWrite addr (word_of_frag (preamble_frag cmd 0))] ++ es2).
      split.
      { eapply run_from_trans; [exact R|].
        eapply run_from_trans; [apply run_from_write | exact R2]. }
      split.
      { apply Forall_app. split; [now apply reads_on_addr|].
        apply Forall_app. split; [repeat constructor | now apply reads_on_addr]. }
      split.
      { apply stops_clean_prefix; [now apply stops_zero|].
        apply stops_clean_prefix; [repeat constructor | assumption]. }
      assert (Wr : writes_of
                     (es ++ [EvWrite addr (word_of_frag (preamble_frag cmd 0))]
                         ++ es2)
                   = [(addr, word_of_frag (preamble_frag cmd 0))]).
      { rewrite !writes_of_app, (writes_of_reads addr es Rd),
          (writes_of_reads addr es2 Rd2). reflexivity. }
      split; [now right | intros _; exact Wr].
    + rewrite (massage_not_idle _ _ _ _ _ addr d ri d1 Ei Ni).
      assert (B : (ri =? 0) = false) by now apply Z.eqb_neq.
      rewrite B. cbn [negb fst snd].
      exists es. split; [assumption|]. split; [now apply reads_on_addr|].
      split; [assumption|].
      split; [left; now apply (writes_of_reads addr) | intros Z0'; now elim Ni].
  - rewrite (send_rejected cmd ks addr d N). cbn [fst snd].
    exists []. split; [apply run_from_refl|]. split; [constructor|].
    split; [left; constructor|]. split; [now left | intros Z0; now elim N].
Qed.

Lemma broadcast_loop_two a1 a2 cmd kcs d :
  send_dsp_broadcast_loop [a1; a2] cmd kcs d
  = let '(ret, buf, d1) := nau8360_send_dsp_command cmd kcs a1 d in
    if negb (ret =? 0) then (ret, buf, d1)
    else
      let '(ret, buf, d2) :=
        nau8360_send_dsp_command cmd
          (option_map (fun ks => with_get_data ks buf) kcs) a2 d1 in
      if negb (ret =? 0) then (ret, buf, d2)
      else (0, buf, d2).
Proof.
  cbn [send_dsp_broadcast_loop].
  destruct (nau8360_send_dsp_command cmd kcs a1 d) as [[ret buf] d1].
  destruct (negb (ret =? 0)); [reflexivity|].
  destruct (nau8360_send_dsp_command cmd _ a2 d1) as [[ret2 buf2] d2] eqn:E.
  destruct (negb (ret2 =? 0)); [reflexivity|].
  destruct kcs as [ks|]; cbn [option_map] in *.
  - reflexivity.
  - cbn in E. inversion E. reflexivity.
Qed.

(** ** The callers of the dispatcher *)

Lemma run_at_refl addr d : run_at addr d d.
Proof. exists []. split; [apply run_from_refl | constructor]. Qed.

Lemma run_at_trans addr d1 d2 d3 :
  run_at addr d1 d2 -> run_at addr d2 d3 -> run_at addr d1 d3.
Proof.
  intros (es1 & R1 & A1) (es2 & R2 & A2). exists (es1 ++ es2).
  split; [eapply run_from_trans; eassumption|].
  apply Forall_app. now split.
Qed.

Lemma send_run_at cmd kcs addr d :
  run_at addr d (snd (nau8360_send_dsp_command cmd kcs addr d)).
Proof.
  destruct (send_at cmd kcs addr d) as (es & R & A & _). now exists es.
Qed.

Lemma kcs_setup_loop_at addr fuel : forall st d ret d',
  kcs_setup_loop (dispatch addr) fuel st d = Some (ret, d') ->
  run_at addr d d'.
Proof.
  induction fuel as [|fuel IH]; intros st d ret d' H; [discriminate|].
  cbn [kcs_setup_loop] in H.
  destruct (u_data_rem st =? 0).
  { injection H as _ E. subst. apply run_at_refl. }
  match type of H with context [dispatch addr ?c ?k d] =>
    pose proof (send_run_at c (Some k) addr d) as M1;
    fold (dispatch addr c k d) in M1;
    destruct (dispatch addr c k d) as [[r rst] d1] end.
  cbn [snd] in M1.
  destruct (r <? 0).
  - destruct (u_retries st <? NAU8360_DSP_RETRY_MAX).
    + apply IH in H. eapply run_at_trans; eassumption.
    + injection H as _ E. subst. assumption.
  - match type of H with context [dispatch addr ?c ?k d1] =>
      pose proof (send_run_at c (Some k) addr d1) as M2;
      fold (dispatch addr c k d1) in M2;
      destruct (dispatch addr c k d1) as [[r' rst'] d2] end.
    cbn [snd] in M2.
    destruct (r' <? 0).
    + injection H as _ E. subst. eapply run_at_trans; eassumption.
    + apply IH in H. eapply run_at_trans; [|exact H].
      eapply run_at_trans; eassumption.
Qed.

Lemma kcs_setup_at offset size data addr get_len0 kcs_rst0 d ret d' :
  nau8360_dsp_kcs_setup offset size data addr get_len0 kcs_rst0 d
  = Some (ret, d') ->
  run_at addr d d'.
Proof.
  unfold nau8360_dsp_kcs_setup, dsp_kcs_setup. intros H.
  destruct data as [buf|].
  - destruct (_ || _).
    + injection H as _ E. subst. apply run_at_refl.
    + eapply kcs_setup_loop_at. exact H.
  - injection H as _ E. subst. apply run_at_refl.
Qed.

(** Every upload returns. *)
Lemma kcs_setup_returns offset size data addr get_len0 kcs_rst0 d :
  exists ret d',
    nau8360_dsp_kcs_setup offset size data addr get_len0 kcs_rst0 d
    = Some (ret, d').
Proof.
  destruct data as [l|]; [|now exists (- EINVAL), d].
  destruct (Z_le_gt_dec size NAU8360_DSP_KCS_DAT_LEN_MAX) as [Hs|Hs];
    [destruct (Z_le_gt_dec offset NAU8360_DSP_KCS_OFFSET_MAX) as [Ho|Ho]|].
  - destruct (dsp_kcs_setup_run (dispatch addr) offset size l get_len0 kcs_rst0
                d Hs Ho) as (ret & calls & d' & _ & E & _).
    now exists ret, d'.
  - exists (- EINVAL), d. apply dsp_kcs_setup_refused. right. lia.
  - exists (- EINVAL), d. apply dsp_kcs_setup_refused. left. lia.
Qed.

Lemma u16_range x : 0 <= u16 x < 2 ^ 16.
Proof. unfold u16. apply Z.mod_pos_bound. reflexivity. Qed.

Lemma u16_small x : 0 <= x < 2 ^ 16 -> u16 x = x.
Proof. intros H. unfold u16. now apply Z.mod_small. Qed.

Lemma u16_idem x : u16 (u16 x) = u16 x.
Proof. apply u16_small, u16_range. Qed.

Lemma get_cmd_put_eq addr cmd value joff jdata d :
  nau8360_dsp_get_cmd_put addr cmd value joff jdata d
  = nau8360_send_dsp_command cmd
      (Some (mkKcs sizeof_int joff jdata sizeof_int value)) (u16 addr) d.
Proof.
  unfold nau8360_dsp_get_cmd_put.
  destruct (nau8360_send_dsp_command _ _ _ _) as [[ret v] d1].
  destruct (ret =? 0) eqn:E; cbn [negb]; [|reflexivity].
  apply Z.eqb_eq in E. now subst.
Qed.

Lemma written_run_from d d' es :
  run_from d d' es -> written d' = written d ++ map snd (writes_of es).
Proof.
  intros [_ T]. unfold written. rewrite T, flat_map_app. f_equal. clear T.
  induction es as [|e es IH]; [reflexivity|].
  cbn [flat_map writes_of]. fold (writes_of es). rewrite map_app, <- IH.
  destruct e; reflexivity.
Qed.

Lemma int_status_bit v :
  Z.land (int_of_bytes (int_bytes v)) NAU8360_DSP_ALGO_OK
  = Z.land v NAU8360_DSP_ALGO_OK.
Proof.
  unfold int_of_bytes, int_bytes, frag_bytes, NAU8360_DSP_ALGO_OK.
  cbn [nth].
  pose proof (u32_range v) as R.
  replace (mkFrag (b0 (frag_of_word (u32 v))) (b1 (frag_of_word (u32 v)))
                  (b2 (frag_of_word (u32 v))) (b3 (frag_of_word (u32 v))))
    with (frag_of_word (u32 v)) by reflexivity.
  rewrite (word_of_frag_of_word _ R).
  change 1 with (Z.ones 1). rewrite !Z.land_ones by lia.
  change (2 ^ 1) with 2. unfold u32 in *.
  destruct (v mod 2 ^ 32 <? 2 ^ 31); Z.div_mod_to_equations; lia.
Qed.

(** The status query of the channel setup writes one word at most. *)
Lemma frame_status_query_writes addr value joff jdata d :
  let q := nau8360_dsp_get_cmd_put addr NAU8360_DSP_CMD_GET_FRAME_STATUS
             value joff jdata d in
  run_at (u16 addr) d (snd q) /\
  (written (snd q) = written d \/ written (snd q) = written d ++ [0x0024b2a1]) /\
  (fst (fst q) = 0 -> written (snd q) = written d ++ [0x0024b2a1]).
Proof.
  intros q. subst q. rewrite get_cmd_put_eq.
  destruct (bare_send_writes NAU8360_DSP_CMD_GET_FRAME_STATUS
              (mkKcs sizeof_int joff jdata sizeof_int value) (u16 addr) d
              eq_refl eq_refl) as (es & R & A & _ & W & Z0).
  split; [now exists es|].
  rewrite (written_run_from _ _ _ R). split.
  - destruct W as [-> | ->]; [left; apply app_nil_r | right; reflexivity].
  - intros E. now rewrite (Z0 E).
Qed.

Lemma chan_kcs_setup_returns rf addr stack size d :
  exists ret size' d',
    nau8360_dsp_chan_kcs_setup rf addr stack size d = Some (ret, size', d') /\
    run_at (u16 addr) d d' /\
    (size' = size \/ fst rf = 0 /\ size' = Z.of_nat (length (snd rf))) /\
    (ret = 0 ->
     fst rf = 0 /\ Z.of_nat (length (snd rf)) <= NAU8360_DSP_KCS_DAT_LEN_MAX /\
     size' = Z.of_nat (length (snd rf)) /\
     exists ws, written d' = written d ++ 0x0024b2a1 :: ws).
Proof.
  unfold nau8360_dsp_chan_kcs_setup.
  destruct (frame_status_query_writes addr (Some (int_bytes (k_status stack)))
              (k_offset stack) (k_data stack) d) as (A & W & W0).
  destruct (nau8360_dsp_get_cmd_put _ _ _ _ _ _) as [[ret st] d1].
  cbn [fst snd] in *.
  destruct (negb (ret =? 0) || _) eqn:E.
  { exists (- EIO), size, d1. split; [reflexivity|]. split; [assumption|].
    split; [now left | discriminate]. }
  apply orb_false_iff in E as [E _]. apply negb_false_iff, Z.eqb_eq in E.
  subst ret. specialize (W0 eq_refl).
  destruct rf as [e img]. cbn [fst snd].
  destruct (e =? 0) eqn:Ee; cbn [negb].
  2:{ apply Z.eqb_neq in Ee. exists e, size, d1. split; [reflexivity|].
      split; [assumption|]. split; [now left | intros Z0; now elim Ee]. }
  apply Z.eqb_eq in Ee. subst e.
  destruct (kcs_setup_returns 0 (Z.of_nat (length img)) (Some img) (u16 addr)
              (k_get_len stack) (k_kcs_rst stack) d1) as (ret & d2 & K).
  rewrite K.
  pose proof (kcs_setup_at _ _ _ _ _ _ _ _ _ K) as A2.
  assert (R : run_at (u16 addr) d d2) by (eapply run_at_trans; eassumption).
  assert (Wd : exists ws, written d2 = written d ++ 0x0024b2a1 :: ws).
  { destruct A2 as (es & Rf & _). rewrite (written_run_from _ _ _ Rf), W0.
    rewrite <- app_assoc. exists (map snd (writes_of es)). reflexivity. }
  destruct (ret =? 0) eqn:Er; cbn [negb].
  - apply Z.eqb_eq in Er. subst ret.
    exists 0, (Z.of_nat (length img)), d2. split; [reflexivity|].
    split; [assumption|]. split; [right; now split|]. intros _.
    split; [reflexivity|]. split; [|split; [reflexivity | assumption]].
    destruct (Z_le_gt_dec (Z.of_nat (length img)) NAU8360_DSP_KCS_DAT_LEN_MAX)
      as [L|G]; [assumption|].
    unfold nau8360_dsp_kcs_setup in K.
    rewrite (dsp_kcs_setup_refused (dispatch (u16 addr)) 0
               (Z.of_nat (length img))
               (Some img) (k_get_len stack) (k_kcs_rst stack) d1) in K
      by (left; lia).
    discriminate.
  - apply Z.eqb_neq in Er.
    exists ret, (Z.of_nat (length img)), d2. split; [reflexivity|].
    split; [assumption|]. split; [right; now split|]. intros Z0. now elim Er.
Qed.

(** ** Clock dividers *)

Lemma dyn_clk_div_loop_spec div_max fin fout n : forall c,
  0 <= c ->
  div_max + 1 - c < Z.of_nat n ->
  (forall k, 0 <= k < c -> fout < Z.quot fin (k + 1)) ->
  let x := dyn_clk_div_loop n c div_max fin fout in
  0 <= x /\
  ((x <= div_max /\ Z.quot fin (x + 1) <= fout /\
    forall k, 0 <= k < x -> fout < Z.quot fin (k + 1))
   \/
   (div_max < x /\ forall k, 0 <= k <= div_max -> fout < Z.quot fin (k + 1))).
Proof.
  induction n as [|n IH]; intros c Hc Hf Hk x; subst x.
  - cbn [dyn_clk_div_loop]. split; [assumption|]. right.
    cbn [Z.of_nat] in Hf. split; [lia|]. intros k Hkk. apply Hk. lia.
  - cbn [dyn_clk_div_loop].
    destruct (c <=? div_max) eqn:E1.
    + apply Z.leb_le in E1.
      destruct (Z.quot fin (c + 1) <=? fout) eqn:E2.
      * apply Z.leb_le in E2. split; [assumption|]. left. auto.
      * apply Z.leb_gt in E2. apply IH; [lia | lia |].
        intros k Hkk. destruct (Z.eq_dec k c) as [-> |]; [assumption|].
        apply Hk. lia.
    + apply Z.leb_gt in E1. split; [assumption|]. right.
      split; [assumption|]. intros k Hkk. apply Hk. lia.
Qed.

Lemma quot_le_iff fin fout k :
  0 <= fin -> 0 <= fout -> 0 <= k ->
  (Z.quot fin (k + 1) <= fout <-> fin / (fout + 1) <= k).
Proof.
  intros Hf Ho Hk. rewrite Z.quot_div_nonneg by lia.
  split; intros H.
  - apply Z.lt_succ_r. apply Z.div_lt_upper_bound; [lia|].
    assert (fin < (k + 1) * (fout + 1)); [|lia].
    pose proof (Z.mul_succ_div_gt fin (k + 1) ltac:(lia)). nia.
  - apply Z.lt_succ_r. apply Z.div_lt_upper_bound; [lia|].
    pose proof (Z.mul_succ_div_gt fin (fout + 1) ltac:(lia)). nia.
Qed.

Lemma tab_clk_div_loop_spec tab fin n : forall i,
  0 <= i ->
  Z.of_nat (length tab) - i < Z.of_nat n ->
  (forall k, 0 <= k < i ->
     CLK_DA_IVSNS_MAX < Z.quot fin (nth (Z.to_nat k) tab 0)) ->
  let x := tab_clk_div_loop n i tab (Z.of_nat (length tab)) fin in
  0 <= x /\
  ((x < Z.of_nat (length tab) /\
    Z.quot fin (nth (Z.to_nat x) tab 0) <= CLK_DA_IVSNS_MAX /\
    forall k, 0 <= k < x ->
      CLK_DA_IVSNS_MAX < Z.quot fin (nth (Z.to_nat k) tab 0))
   \/
   (x = Z.max i (Z.of_nat (length tab)) /\
    forall k, 0 <= k < Z.of_nat (length tab) ->
      CLK_DA_IVSNS_MAX < Z.quot fin (nth (Z.to_nat k) tab 0))).
Proof.
  induction n as [|n IH]; intros i Hi Hf Hk x; subst x.
  - cbn [tab_clk_div_loop]. split; [assumption|]. right.
    cbn [Z.of_nat] in Hf. split; [lia|]. intros k Hkk. apply Hk. lia.
  - cbn [tab_clk_div_loop].
    destruct (i <? Z.of_nat (length tab)) eqn:E1.
    + apply Z.ltb_lt in E1.
      destruct (Z.quot fin (nth (Z.to_nat i) tab 0) <=? CLK_DA_IVSNS_MAX) eqn:E2.
      * apply Z.leb_le in E2. split; [assumption|]. left. auto.
      * apply Z.leb_gt in E2.
        destruct (IH (i + 1)) as [P0 P]; [lia | lia | |].
        { intros k Hkk. destruct (Z.eq_dec k i) as [-> |]; [assumption|].
          apply Hk. lia. }
        split; [assumption|].
        destruct P as [P | [P1 P2]]; [now left|]. right. split; [lia | assumption].
    + apply Z.ltb_ge in E1. split; [assumption|]. right.
      split; [lia|]. intros k Hkk. apply Hk. lia.
Qed.

(** ** The PLL parameters *)

Lemma msel_loop_spec inp n : forall m,
  0 <= inp -> 1 <= m ->
  MSEL_MAX + 1 - m < Z.of_nat n ->
  (forall k, 1 <= k < m -> PLL_FREF_MAX < inp / k) ->
  let r := msel_loop n m inp in
  (m <= fst r <= MSEL_MAX /\ inp / fst r <= PLL_FREF_MAX /\
   snd r = inp / fst r /\
   forall k, 1 <= k < fst r -> PLL_FREF_MAX < inp / k)
  \/
  (fst r = Z.max m (MSEL_MAX + 1) /\ snd r = 0 /\
   forall k, 1 <= k <= MSEL_MAX -> PLL_FREF_MAX < inp / k).
Proof.
  induction n as [|n IH]; intros m Hi Hm Hf Hk r; subst r.
  - cbn [msel_loop fst snd]. right. cbn [Z.of_nat] in Hf.
    split; [lia|]. split; [reflexivity|]. intros k Hkk. apply Hk. lia.
  - cbn [msel_loop]. destruct (m <=? MSEL_MAX) eqn:E1.
    + apply Z.leb_le in E1. rewrite Z.quot_div_nonneg by lia.
      destruct (inp / m <=? PLL_FREF_MAX) eqn:E2.
      * apply Z.leb_le in E2. cbn [fst snd]. left.
        split; [lia|]. split; [assumption|]. split; [|assumption].
        apply Z.mod_small. pose proof (Z.div_pos inp m Hi ltac:(lia)).
        unfold PLL_FREF_MAX in E2. lia.
      * apply Z.leb_gt in E2.
        destruct (IH (m + 1) Hi) as [(A & B & C & D) | (A & B & C)];
          [lia | lia | | left | right].
        { intros k Hkk. destruct (Z.eq_dec k m) as [-> |]; [assumption|].
          apply Hk. lia. }
        { split; [lia|]. auto. }
        { split; [lia|]. auto. }
    + apply Z.leb_gt in E1. cbn [fst snd]. right.
      split; [lia|]. split; [reflexivity|]. intros k Hkk. apply Hk. lia.
Qed.

Lemma rsel_loop_spec outp n : forall r0,
  0 <= outp -> 1 <= r0 ->
  RSEL_MAX + 1 - r0 < Z.of_nat n ->
  (forall k, 1 <= k < r0 -> outp * k < PLL_FVCO_MIN) ->
  let r := rsel_loop n r0 outp in
  (r0 <= fst r <= RSEL_MAX /\ PLL_FVCO_MIN <= outp * fst r /\
   snd r = (outp * fst r) mod 2 ^ 64 /\
   forall k, 1 <= k < fst r -> outp * k < PLL_FVCO_MIN)
  \/
  (fst r = Z.max r0 (RSEL_MAX + 1) /\ snd r = 0 /\
   forall k, 1 <= k <= RSEL_MAX -> outp * k < PLL_FVCO_MIN).
Proof.
  induction n as [|n IH]; intros r0 Ho Hr Hf Hk r; subst r.
  - cbn [rsel_loop fst snd]. right. cbn [Z.of_nat] in Hf.
    split; [lia|]. split; [reflexivity|]. intros k Hkk. apply Hk. lia.
  - cbn [rsel_loop]. destruct (r0 <=? RSEL_MAX) eqn:E1.
    + apply Z.leb_le in E1.
      destruct (PLL_FVCO_MIN <=? outp * r0) eqn:E2.
      * apply Z.leb_le in E2. cbn [fst snd]. left.
        split; [lia|]. auto.
      * apply Z.leb_gt in E2.
        destruct (IH (r0 + 1) Ho) as [(A & B & C & D) | (A & B & C)];
          [lia | lia | | left | right].
        { intros k Hkk. destruct (Z.eq_dec k r0) as [-> |]; [assumption|].
          apply Hk. lia. }
        { split; [lia|]. auto. }
        { split; [lia|]. auto. }
    + apply Z.leb_gt in E1. cbn [fst snd]. right.
      split; [lia|]. split; [reflexivity|]. intros k Hkk. apply Hk. lia.
Qed.

Lemma calc_pll_cases internal pll :
  0 <= input pll ->
  let r := nau8360_calc_pll internal pll in
  let bad_in := src pll <> internal /\
                (PLL_FREQ_MAX < input pll \/ input pll < PLL_FREQ_MIN) in
  let bad_out := PLL_FOUT_MAX < output pll \/ output pll < PLL_FOUT_MIN in
  ((bad_in \/ bad_out) /\ r = (- EINVAL, pll))
  \/
  (~ bad_in /\ ~ bad_out /\ fst r = - ERANGE /\
   (input pll = 0 \/ 256000032 <= input pll))
  \/
  (~ bad_in /\ ~ bad_out /\ 1 <= input pll < 256000032 /\ fst r = 0 /\
   pll_settled pll (snd r)).
Proof.
  intros Hi r bad_in bad_out. subst r bad_in bad_out.
  unfold nau8360_calc_pll.
  destruct (negb (src pll =? internal)
            && ((PLL_FREQ_MAX <? input pll) || (input pll <? PLL_FREQ_MIN)))
    eqn:E1.
  { left. split; [|reflexivity]. left.
    apply andb_true_iff in E1 as [A B]. apply negb_true_iff, Z.eqb_neq in A.
    split; [assumption|].
    apply orb_true_iff in B as [B|B]; [left; now apply Z.ltb_lt in B
                                      | right; now apply Z.ltb_lt in B]. }
  assert (N1 : ~ (src pll <> internal /\
                  (PLL_FREQ_MAX < input pll \/ input pll < PLL_FREQ_MIN))).
  { intros [A B]. apply andb_false_iff in E1 as [E1|E1].
    - apply negb_false_iff, Z.eqb_eq in E1. contradiction.
    - apply orb_false_iff in E1 as [X Y].
      apply Z.ltb_ge in X. apply Z.ltb_ge in Y. lia. }
  destruct ((PLL_FOUT_MAX <? output pll) || (output pll <? PLL_FOUT_MIN)) eqn:E2.
  { left. split; [|reflexivity]. right.
    apply orb_true_iff in E2 as [B|B]; [left; now apply Z.ltb_lt in B
                                       | right; now apply Z.ltb_lt in B]. }
  apply orb_false_iff in E2 as [X Y]. apply Z.ltb_ge in X. apply Z.ltb_ge in Y.
  assert (N2 : ~ (PLL_FOUT_MAX < output pll \/ output pll < PLL_FOUT_MIN))
    by lia.
  right.
  pose proof (msel_loop_spec (input pll) (Z.to_nat MSEL_MAX + 1) 1 Hi) as M.
  cbv zeta in M.
  destruct (msel_loop (Z.to_nat MSEL_MAX + 1) 1 (input pll)) as [m fref].
  cbn [fst snd] in M.
  destruct M as [(M1 & M2 & M3 & M4) | (M1 & M2 & M3)];
    [lia | unfold MSEL_MAX; lia | intros k Hk; lia | |].
  2:{ (* the loop ran out *)
      left. subst fref. cbn [Z.eqb fst]. repeat (split; [assumption|]).
      split; [reflexivity|]. right.
      specialize (M3 32 ltac:(unfold MSEL_MAX; lia)).
      unfold PLL_FREF_MAX in M3.
      pose proof (Z.mul_div_le (input pll) 32 ltac:(lia)). lia. }
  assert (Lt : input pll < 256000032).
  { unfold PLL_FREF_MAX, MSEL_MAX in *.
    pose proof (Z.mul_succ_div_gt (input pll) m ltac:(lia)). nia. }
  destruct (Z.eq_dec (input pll) 0) as [Z0 | NZ].
  { left. rewrite Z0 in M3. rewrite Z.div_0_l in M3 by lia. subst fref.
    cbn [Z.eqb fst]. repeat (split; [assumption|]). split; [reflexivity|].
    now left. }
  assert (Fp : 1 <= input pll / m).
  { destruct (Z.eq_dec m 1) as [-> |].
    - rewrite Z.div_1_r. lia.
    - specialize (M4 (m - 1) ltac:(lia)).
      unfold PLL_FREF_MAX, MSEL_MAX in *.
      pose proof (Z.mul_div_le (input pll) (m - 1) ltac:(lia)).
      apply Z.div_le_lower_bound; nia. }
  right.
  assert (Fz : (fref =? 0) = false) by (apply Z.eqb_neq; lia).
  rewrite Fz. cbn [src input output msel rsel nsel xsel].
  pose proof (rsel_loop_spec (output pll) (Z.to_nat RSEL_MAX + 1) 1) as R.
  cbv zeta in R.
  destruct (rsel_loop (Z.to_nat RSEL_MAX + 1) 1 (output pll)) as [rs fvco].
  cbn [fst snd] in R. unfold PLL_FOUT_MIN, PLL_FOUT_MAX in *.
  destruct R as [(R1 & R2 & R3 & R4) | (R1 & R2 & R3)];
    [lia | lia | unfold RSEL_MAX; lia | intros k Hk; lia | |].
  2:{ exfalso. specialize (R3 4 ltac:(unfold RSEL_MAX; lia)).
      unfold PLL_FVCO_MIN in R3. lia. }
  assert (Vb : output pll * rs <= 125000000).
  { destruct (Z.eq_dec rs 1) as [-> |]; [lia|].
    specialize (R4 (rs - 1) ltac:(lia)). specialize (R4) as R5.
    unfold PLL_FVCO_MIN, RSEL_MAX in *. nia. }
  assert (Vm : fvco = output pll * rs).
  { rewrite R3. apply Z.mod_small. unfold PLL_FVCO_MIN in R2. lia. }
  assert (Fv : (fvco =? 0) = false).
  { apply Z.eqb_neq. unfold PLL_FVCO_MIN in R2. lia. }
  rewrite Fv. cbn [fst snd].
  repeat (split; [assumption|]). split; [lia|]. split; [reflexivity|].
  unfold pll_settled. cbn [src input output msel rsel nsel xsel].
  unfold PLL_FOUT_MAX.
  repeat (split; [first [reflexivity | assumption | lia]|]).
  assert (Sh : Z.shiftl fvco 12 mod 2 ^ 64 = output pll * rs * 4096).
  { rewrite Z.shiftl_mul_pow2 by lia. change (2 ^ 12) with 4096.
    rewrite Vm. apply Z.mod_small. unfold PLL_FVCO_MIN in R2. lia. }
  assert (Fm : fref mod 2 ^ 32 = input pll / m).
  { rewrite M3. apply Z.mod_small. unfold PLL_FREF_MAX in M2. lia. }
  rewrite Sh, Fm.
  change 0xfff with (Z.ones 12). change 0xff with (Z.ones 8).
  rewrite !Z.land_ones by lia. rewrite Z.shiftr_div_pow2 by lia.
  split; reflexivity.
Qed.

(** ** The NAU83G10/20 driver against the NAU83G60 driver *)

Lemma nau8310_massage_eq RF ci ci' fl off sz pd d :
  cmd_id ci = cmd_id ci' -> msg_param ci = msg_param ci' ->
  setup_data ci = setup_data ci' ->
  nau8310_massage_to_dsp RF ci fl off sz pd d
  = nau8360_massage_to_dsp ci' fl off sz pd RF d.
Proof.
  destruct ci as [i p s r], ci' as [i' p' s' r']. cbn [cmd_id msg_param setup_data].
  intros -> -> ->. reflexivity.
Qed.

Lemma payload_loop_msg_param ci ci' addr n : forall st,
  msg_param ci = msg_param ci' ->
  payload_loop n ci addr st = payload_loop n ci' addr st.
Proof.
  induction n as [|n IH]; intros st E; [reflexivity|].
  cbn [payload_loop]. rewrite E.
  destruct (regmap_read addr (d_dev st)) as [[ret payload] d1].
  destruct (negb (ret =? 0)); [reflexivity|].
  destruct (msg_param ci').
  - destruct (NAU8360_DSP_DATA_BYTE <=? d_count st); [|reflexivity].
    now apply IH.
  - now apply IH.
Qed.

Lemma reply_body_msg_param ci ci' ds buf fl addr d :
  msg_param ci = msg_param ci' ->
  reply_body ci ds buf fl addr d = reply_body ci' ds buf fl addr d.
Proof.
  intros E. unfold reply_body.
  rewrite (payload_loop_msg_param ci ci' addr _ _ E), E. reflexivity.
Qed.

Lemma nau8310_reply_eq RF ci ci' ds data d :
  reply_data ci' = true -> msg_param ci = msg_param ci' ->
  nau8310_reply_from_dsp RF ci ds data d
  = nau8360_reply_from_dsp ci' ds data RF d.
Proof.
  intros Hr Hm. unfold nau8310_reply_from_dsp, nau8360_reply_from_dsp.
  rewrite Hr. cbn [negb]. destruct data as [buf|]; [|reflexivity].
  change (nau8310_dsp_replied RF d) with (nau8360_dsp_replied RF d).
  destruct (nau8360_dsp_replied RF d) as [[ret fl] d1].
  destruct (negb (ret =? 0)); [reflexivity|].
  destruct (fl =? 0); [reflexivity|].
  now rewrite (reply_body_msg_param ci ci' ds buf fl RF d1 Hm).
Qed.

Lemma nau8310_table cmd :
  cmd_id (nau8310_dsp_cmd_table cmd) = cmd_id (nau8360_dsp_cmd_table cmd) /\
  msg_param (nau8310_dsp_cmd_table cmd) = msg_param (nau8360_dsp_cmd_table cmd) /\
  setup_data (nau8310_dsp_cmd_table cmd)
  = setup_data (nau8360_dsp_cmd_table cmd) /\
  (reply_data (nau8310_dsp_cmd_table cmd) = true ->
   reply_data (nau8360_dsp_cmd_table cmd) = true).
Proof.
  unfold nau8310_dsp_cmd_table, nau8360_dsp_cmd_table.
  repeat match goal with
         | |- context [if ?c then _ else _] => destruct c
         end; cbn; auto.
Qed.

(** The two dispatchers on a request with a reply buffer, for a command
    that has reply data in the NAU83G60 table. *)
Lemma nau8310_send_eq RF cmd ks d :
  get_data ks <> None ->
  reply_data (nau8360_dsp_cmd_table cmd) = true ->
  request_check cmd ks = 0 ->
  (cmd = NAU8360_DSP_CMD_GET_KCS_SETUP ->
   set_len ks <> NAU8360_DSP_KCS_DAT_LEN_MAX) ->
  nau8310_send_dsp_command RF cmd (Some ks) d
  = nau8360_send_dsp_command cmd (Some ks) RF d.
Proof.
  intros Hg Hr Hc Hl.
  destruct (nau8310_table cmd) as (Ti & Tm & Ts & _).
  assert (Gn : is_null (get_data ks) = false)
    by (destruct (get_data ks); [reflexivity | now elim Hg]).
  unfold request_check in Hc.
  unfold nau8310_send_dsp_command, nau8360_send_dsp_command.
  change (nau8310_dsp_commands cmd) with (nau8360_dsp_commands cmd).
  destruct (negb (nau8360_dsp_commands cmd)); [discriminate Hc|].
  rewrite Tm, Ts, Gn, !andb_false_r, !orb_false_r in *.
  destruct ((msg_param (nau8360_dsp_cmd_table cmd) && (set_len ks =? 0))
            || (setup_data (nau8360_dsp_cmd_table cmd)
                && is_null (set_kcs_data ks))); [discriminate Hc|].
  destruct (cmd =? NAU8360_DSP_CMD_GET_KCS_SETUP) eqn:Ek; cbn [andb] in *.
  - apply Z.eqb_eq in Ek. specialize (Hl Ek).
    destruct ((NAU8360_DSP_KCS_DAT_LEN_MAX <? set_len ks)
              || (NAU8360_DSP_KCS_OFFSET_MAX <? set_kcs_offset ks)) eqn:Ec;
      [discriminate Hc|].
    apply orb_false_iff in Ec as [E1 E2]. apply Z.ltb_ge in E1.
    assert (E3 : (NAU8310_DSP_KCS_DAT_LEN_MAX <? set_len ks) = false).
    { apply Z.ltb_ge. unfold NAU8360_DSP_KCS_DAT_LEN_MAX in *.
      change NAU8310_DSP_KCS_DAT_LEN_MAX with 1023. lia. }
    rewrite E3, E2. cbn [orb].
    unfold message_frag_len. rewrite Tm, Ts.
    fold (message_frag_len (nau8360_dsp_cmd_table cmd) (set_len ks)).
    rewrite (nau8310_massage_eq RF _ (nau8360_dsp_cmd_table cmd) _ _ _ _ d
               Ti Tm Ts).
    destruct (nau8360_massage_to_dsp _ _ _ _ _ _ _) as [ret d1].
    destruct (negb (ret =? 0)); [reflexivity|].
    rewrite (nau8310_reply_eq RF _ (nau8360_dsp_cmd_table cmd) _ _ d1 Hr Tm).
    destruct (nau8360_reply_from_dsp _ _ _ _ _) as [[r b] d2].
    destruct (r =? 0) eqn:E; cbn [negb]; [|reflexivity].
    apply Z.eqb_eq in E. now subst.
  - unfold message_frag_len. rewrite Tm, Ts.
    fold (message_frag_len (nau8360_dsp_cmd_table cmd) (set_len ks)).
    rewrite (nau8310_massage_eq RF _ (nau8360_dsp_cmd_table cmd) _ _ _ _ d
               Ti Tm Ts).
    destruct (nau8360_massage_to_dsp _ _ _ _ _ _ _) as [ret d1].
    destruct (negb (ret =? 0)); [reflexivity|].
    rewrite (nau8310_reply_eq RF _ (nau8360_dsp_cmd_table cmd) _ _ d1 Hr Tm).
    destruct (nau8360_reply_from_dsp _ _ _ _ _) as [[r b] d2].
    destruct (r =? 0) eqn:E; cbn [negb]; [|reflexivity].
    apply Z.eqb_eq in E. now subst.
Qed.

Lemma reply_keeps_buffer ci ds buf addr d :
  snd (fst (nau8360_reply_from_dsp ci ds (Some buf) addr d)) <> None.
Proof.
  assert (G : forall d0,
    snd (fst (let '(ret, frag_len, d1) := nau8360_dsp_replied addr d0 in
              if negb (ret =? 0) then (ret, Some buf, d1)
              else if frag_len =? 0 then (0, Some buf, d1)
              else
                let '(ret, buf0, d2) := reply_body ci ds buf frag_len addr d1 in
                (ret, Some buf0, d2))) <> None).
  { intros d0. destruct (nau8360_dsp_replied addr d0) as [[ret fl] d1].
    destruct (negb (ret =? 0)); [discriminate|].
    destruct (fl =? 0); [discriminate|].
    destruct (reply_body ci ds buf fl addr d1) as [[r b] d2]. discriminate. }
  unfold nau8360_reply_from_dsp.
  destruct (negb (reply_data ci)); [|apply G].
  destruct (nau8360_dsp_replied addr d) as [[ret fl] d1].
  destruct (negb (ret =? 0)); [discriminate|].
  destruct (fl =? 0); [discriminate|]. apply G.
Qed.

Lemma send_keeps_buffer cmd ks addr d :
  get_data ks <> None ->
  snd (fst (nau8360_send_dsp_command cmd (Some ks) addr d)) <> None.
Proof.
  intros Hg. unfold nau8360_send_dsp_command.
  destruct (negb (nau8360_dsp_commands cmd)); [assumption|].
  match goal with |- context [if ?c then (- EFAULT, _, _) else _] =>
    destruct c end; [assumption|].
  match goal with |- context [if ?c then (- ERANGE, _, _) else _] =>
    destruct c end; [assumption|].
  destruct (nau8360_massage_to_dsp _ _ _ _ _ _ _) as [ret d1].
  destruct (negb (ret =? 0)); [assumption|].
  destruct (get_data ks) as [buf|]; [|now elim Hg].
  apply reply_keeps_buffer.
Qed.

Lemma nau8310_loop_eq RF fuel : forall st d,
  u_get_data st <> None ->
  kcs_setup_loop (fun cmd ks d => nau8310_send_dsp_command RF cmd (Some ks) d)
                 fuel st d
  = kcs_setup_loop (dispatch RF) fuel st d.
Proof.
  induction fuel as [|fuel IH]; intros st d Hg; [reflexivity|].
  cbn [kcs_setup_loop].
  destruct (u_data_rem st =? 0) eqn:Ez; [reflexivity|].
  apply Z.eqb_neq in Ez. fold (chunk_len (u_data_rem st)).
  assert (Hc : chunk_len (u_data_rem st) <> 0).
  { unfold chunk_len, NAU8360_DSP_KCS_TX_MAX.
    destruct (96 <? u_data_rem st); lia. }
  set (ks := mkKcs (chunk_len (u_data_rem st)) (u_addr_offset st)
                   (Some (u_data_buf st)) (u_get_len st) (u_get_data st)).
  assert (E1 : nau8310_send_dsp_command RF NAU8360_DSP_CMD_SET_KCS_SETUP
                 (Some ks) d
               = dispatch RF NAU8360_DSP_CMD_SET_KCS_SETUP ks d).
  { apply nau8310_send_eq; [assumption | reflexivity | | discriminate].
    unfold request_check. cbn [negb nau8360_dsp_commands].
    change (nau8360_dsp_commands NAU8360_DSP_CMD_SET_KCS_SETUP) with true.
    cbn [negb]. cbn [msg_param setup_data reply_data set_len set_kcs_data
                     get_data ks is_null andb orb].
    change (nau8360_dsp_cmd_table NAU8360_DSP_CMD_SET_KCS_SETUP)
      with (mkCmd NAU8360_DSP_CMD_SET_KCS_SETUP true true true).
    cbn [msg_param setup_data reply_data andb orb].
    apply Z.eqb_neq in Hc. unfold ks. cbn [set_len set_kcs_data get_data is_null].
    rewrite Hc. destruct (u_get_data st); [reflexivity | now elim Hg]. }
  rewrite E1.
  pose proof (send_keeps_buffer NAU8360_DSP_CMD_SET_KCS_SETUP ks RF d Hg) as K1.
  fold (dispatch RF NAU8360_DSP_CMD_SET_KCS_SETUP ks d) in K1.
  destruct (dispatch RF NAU8360_DSP_CMD_SET_KCS_SETUP ks d) as [[r rst] d1].
  cbn [fst snd] in K1.
  destruct (r <? 0).
  - destruct (u_retries st <? NAU8360_DSP_RETRY_MAX); [|reflexivity].
    apply IH. assumption.
  - set (kg := mkKcs NAU8360_DSP_DATA_BYTE 0 (Some (u_data_buf st))
                     NAU8360_DSP_DATA_BYTE rst).
    assert (E2 : nau8310_send_dsp_command RF NAU8360_DSP_CMD_GET_KCS_RSLTS
                   (Some kg) d1
                 = dispatch RF NAU8360_DSP_CMD_GET_KCS_RSLTS kg d1).
    { apply nau8310_send_eq; [assumption | reflexivity | | discriminate].
      unfold request_check, kg.
      change (nau8360_dsp_commands NAU8360_DSP_CMD_GET_KCS_RSLTS) with true.
      change (nau8360_dsp_cmd_table NAU8360_DSP_CMD_GET_KCS_RSLTS)
        with (mkCmd NAU8360_DSP_CMD_GET_KCS_RSLTS true false true).
      cbn [negb msg_param setup_data reply_data set_len set_kcs_data get_data
                is_null andb orb].
      destruct rst; [reflexivity | now elim K1]. }
    rewrite E2.
    pose proof (send_keeps_buffer NAU8360_DSP_CMD_GET_KCS_RSLTS kg RF d1 K1)
      as K2.
    fold (dispatch RF NAU8360_DSP_CMD_GET_KCS_RSLTS kg d1) in K2.
    destruct (dispatch RF NAU8360_DSP_CMD_GET_KCS_RSLTS kg d1)
      as [[r' rst'] d2].
    cbn [fst snd] in K2.
    destruct (r' <? 0); [reflexivity|]. apply IH. assumption.
Qed.

Lemma set_kcs_setup_returns RF000 RF002 firmware stack size d :
  exists ret size' d',
    nau8360_dsp_set_kcs_setup RF000 RF002 firmware stack size d
    = Some (ret, size', d').
Proof.
  unfold nau8360_dsp_set_kcs_setup, nau8360_dsp_addr.
  cbn [set_kcs_setup_loop].
  destruct (chan_kcs_setup_returns (firmware 0%nat) (u16 RF000) (stack 0%nat)
              size d) as (retL & sL & dL & EL & _).
  rewrite EL. destruct (negb (retL =? 0)); [eauto|].
  destruct (chan_kcs_setup_returns (firmware 1%nat) (u16 RF002) (stack 1%nat)
              sL dL) as (retR & sR & dR & ER & _).
  rewrite ER. destruct (negb (retR =? 0)); eauto.
Qed.

(** * Further properties of the driver *)

(** ** The accesses of one exchange *)

(** X1.  Whatever the command, the structure and the device, the register
    accesses of one [nau8360_send_dsp_command] call all go to the mailbox
    register it was given, and they come in three phases: reads (the idle
    wait), then writes (the request frame), then reads (the reply).  No
    word is written once a word of the reply has been read. *)
Theorem exchange_stays_on_mailbox (cmd : Z) (kcs : option nau8360_kcs_setup)
    (addr : Z) (d : dev) :
  let r := nau8360_send_dsp_command cmd kcs addr d in
  exists es1 ws es2,
    trace (snd r) = trace d ++ es1 ++ ws ++ es2 /\
    reads_on addr es1 /\ writes_on addr ws /\ reads_on addr es2 /\
    Forall (fun e => ev_addr e = addr) (es1 ++ ws ++ es2) /\
    oracle (snd r) = oracle d.
Proof.
  intros r. subst r.
  destruct (send_run cmd kcs addr d) as (es1 & ws & es2 & [O T] & A & B & C & _).
  exists es1, ws, es2. repeat (split; [assumption|]).
  split; [|assumption].
  apply Forall_app. split; [now apply reads_on_addr|].
  apply Forall_app. split; [now apply writes_on_addr | now apply reads_on_addr].
Qed.

(** X2.  A register read that fails ends the exchange: when a read of the
    mailbox returns a non-zero value during [nau8360_send_dsp_command],
    that read is the last access of the call, and the call returns the
    value the read returned. *)
Theorem bus_error_ends_exchange (cmd : Z) (kcs : option nau8360_kcs_setup)
    (addr : Z) (d : dev) (pre post : list event) (a r v : Z) :
  trace (snd (nau8360_send_dsp_command cmd kcs addr d))
  = trace d ++ pre ++ EvRead a r v :: post ->
  r <> 0 ->
  post = [] /\ fst (fst (nau8360_send_dsp_command cmd kcs addr d)) = r.
Proof.
  intros T N.
  destruct (send_run cmd kcs addr d) as (es1 & ws & es2 & [_ T'] & _ & _ & _ & S).
  rewrite T' in T. apply app_inv_head in T.
  destruct (stops_at_failure_last _ _ _ _ _ _ _ S T N) as [P R]. auto.
Qed.

(** GetCounter on a bus whose second read, the first of the reply, fails
    with -121: the call returns -121 and reads nothing more. *)
Lemma bus_error_ends_exchange_witness :
  fst (fst (nau8360_send_dsp_command NAU8360_DSP_CMD_GET_COUNTER
              (Some ks_query) 0xF000
              (script [ok 0xf4f3f2f1; (- 121, 0); ok 0x0002b2a1])))
  = - 121 /\
  nreads (snd (nau8360_send_dsp_command NAU8360_DSP_CMD_GET_COUNTER
                 (Some ks_query) 0xF000
                 (script [ok 0xf4f3f2f1; (- 121, 0); ok 0x0002b2a1]))) = 2%nat.
Proof.
  split; [|reflexivity].
  apply (bus_error_ends_exchange NAU8360_DSP_CMD_GET_COUNTER (Some ks_query)
           0xF000 (script [ok 0xf4f3f2f1; (- 121, 0); ok 0x0002b2a1])
           [EvRead 0xF000 0 0xf4f3f2f1; EvWrite 0xF000 0x0004b2a1] []
           0xF000 (- 121) 0).
  - reflexivity.
  - discriminate.
Defined.

(** ** Argument checks of the dispatcher *)

(** X3.  [nau8360_send_dsp_command] leaves the device untouched exactly
    when it rejects its arguments, and then returns [-EINVAL] (opcode not
    in the command table), [-EFAULT] (a length or buffer the command needs
    is missing) or [-ERANGE] (read-back beyond the caps) with the reply
    buffer as it was; a request that passes the checks reads the mailbox
    at least once.  A NULL structure is rejected with [-EINVAL]. *)
Theorem rejected_request_no_access (cmd : Z) (ks : nau8360_kcs_setup)
    (addr : Z) (d : dev) :
  let r := nau8360_send_dsp_command cmd (Some ks) addr d in
  (snd r = d <-> request_check cmd ks <> 0) /\
  (request_check cmd ks <> 0 ->
   r = (request_check cmd ks, get_data ks, d) /\
   (request_check cmd ks = - EINVAL \/ request_check cmd ks = - EFAULT \/
    request_check cmd ks = - ERANGE)) /\
  (request_check cmd ks = - EINVAL <-> nau8360_dsp_commands cmd = false) /\
  (request_check cmd ks = 0 -> (nreads d < nreads (snd r))%nat) /\
  nau8360_send_dsp_command cmd None addr d = (- EINVAL, None, d).
Proof.
  intros r. subst r.
  assert (V : request_check cmd ks = 0 \/ request_check cmd ks = - EINVAL \/
              request_check cmd ks = - EFAULT \/ request_check cmd ks = - ERANGE).
  { unfold request_check. destruct (negb (nau8360_dsp_commands cmd)); [auto|].
    match goal with |- context [if ?c then - EFAULT else _] => destruct c end;
      [auto|].
    match goal with |- context [if ?c then - ERANGE else _] => destruct c end;
      auto. }
  split; [|split; [|split; [|split]]].
  - split.
    + intros E Z0. pose proof (send_accepted_reads cmd ks addr d Z0) as L.
      rewrite E in L. lia.
    + intros N. now rewrite (send_rejected cmd ks addr d N).
  - intros N. split; [now apply send_rejected|].
    destruct V as [V|V]; [now elim N | exact V].
  - unfold request_check. destruct (nau8360_dsp_commands cmd); cbn [negb].
    + split; [|discriminate].
      match goal with |- context [if ?c then - EFAULT else _] => destruct c end;
        [discriminate|].
      match goal with |- context [if ?c then - ERANGE else _] => destruct c end;
        discriminate.
    + split; reflexivity.
  - apply send_accepted_reads.
  - reflexivity.
Qed.

(** The opcode 0x63 is not in the table: the request is turned down with
    [-EINVAL] and the device is as before. *)
Lemma rejected_request_no_access_witness :
  nau8360_send_dsp_command 0x63 (Some ks_query) 0xF000 dev_counter
  = (- EINVAL, get_data ks_query, dev_counter).
Proof.
  destruct (rejected_request_no_access 0x63 ks_query 0xF000 dev_counter)
    as (_ & H & _).
  destruct H as [E _]; [discriminate|]. exact E.
Defined.


(** ** Time-out of the reply *)

(** X4.  When the request frame has been written and the next 10 reads of
    the mailbox succeed without showing the preamble (low bytes 0xA1,
    0xB2), the call fails with [-EIO] after exactly these 10 reads,
    writes nothing more and leaves the reply buffer as it was. *)
Theorem reply_wait_bounded_poll (cmd : Z) (ks : nau8360_kcs_setup)
    (addr : Z) (d d1 : dev) :
  request_check cmd ks = 0 ->
  nau8360_massage_to_dsp (nau8360_dsp_cmd_table cmd)
    (message_frag_len (nau8360_dsp_cmd_table cmd) (set_len ks))
    (set_kcs_offset ks) (set_len ks) (set_kcs_data ks) addr d = (0, d1) ->
  (forall j, (j < 10)%nat -> skipped_read d1 j) ->
  let r := nau8360_send_dsp_command cmd (Some ks) addr d in
  fst r = (- EIO, get_data ks) /\
  nreads (snd r) = (nreads d1 + 10)%nat /\
  written (snd r) = written d1.
Proof.
  intros Hc Hm Hs r. subst r.
  rewrite (send_accepted cmd ks addr d Hc). cbv zeta. rewrite Hm.
  cbn [negb Z.eqb].
  destruct (dsp_replied_loop_timeout NAU8360_DSP_IDLE_RETRY addr d1 Hs)
    as [T N].
  pose proof (dsp_replied_reads addr d1) as (_ & W & _).
  unfold nau8360_dsp_replied in W. fold (nau8360_dsp_replied addr d1) in T, N, W.
  destruct (nau8360_dsp_replied addr d1) as [[ret len] d2] eqn:E.
  cbn [fst snd] in T, N, W. subst ret.
  assert (Hd : reply_data (nau8360_dsp_cmd_table cmd) = true ->
               get_data ks <> None)
    by (apply request_check_reply_data; assumption).
  assert (Hn : - EIO <> 0) by discriminate.
  rewrite (reply_from_dsp_stops _ (get_len ks) _ addr d1 (- EIO) len d2 Hd E Hn).
  cbn [fst snd]. repeat split; assumption.
Qed.

(** GetCounter on a DSP that shows the idle word and then nothing but
    zero words. *)
Lemma reply_wait_bounded_poll_witness :
  fst (nau8360_send_dsp_command NAU8360_DSP_CMD_GET_COUNTER (Some ks_query)
         0xF000 dev_idle) = (- EIO, get_data ks_query) /\
  nreads (snd (nau8360_send_dsp_command NAU8360_DSP_CMD_GET_COUNTER
                 (Some ks_query) 0xF000 dev_idle)) = (1 + 10)%nat /\
  written (snd (nau8360_send_dsp_command NAU8360_DSP_CMD_GET_COUNTER
                  (Some ks_query) 0xF000 dev_idle)) = [0x0004b2a1].
Proof.
  apply (reply_wait_bounded_poll NAU8360_DSP_CMD_GET_COUNTER ks_query 0xF000
           dev_idle
           (snd (nau8360_massage_to_dsp
                   (nau8360_dsp_cmd_table NAU8360_DSP_CMD_GET_COUNTER) 0 0 4
                   None 0xF000 dev_idle))).
  - reflexivity.
  - reflexivity.
  - intros j Hj. split.
    + do 10 (destruct j as [|j]; [reflexivity|]). lia.
    + do 10 (destruct j as [|j]; [reflexivity|]). lia.
Defined.

(** ** What a read-back stores *)

(** X5.  For a command with parameters and reply data (GetKcsSetup,
    GetKcsResults, SetKcsSetup) asked for n bytes: when the preamble of
    the reply announces ceil(n/4) payload fragments, these are read, and
    the trailer repeats the fragment count and declares the padding
    4*ceil(n/4) - n, the call succeeds; the first n bytes of the buffer
    are then the first n bytes of the payload words, low byte first, and
    the rest of the buffer is as it was.  So a reply made of the words the
    driver's own encoder makes of the bytes [l] stores [l]. *)
Theorem readback_stores_payload (ci : nau8360_cmd_info) (ws region post : list Z)
    (addr : Z) (d d1 : dev) (t : Z) :
  msg_param ci = true -> reply_data ci = true ->
  Z.of_nat (length ws) = (Z.of_nat (length region) + 3) / 4 ->
  nau8360_dsp_replied addr d = (0, Z.of_nat (length ws) + 1, d1) ->
  (forall j, (j < length ws)%nat -> good_read d1 j (nth j ws 0)) ->
  good_read d1 (length ws) t ->
  trailer_len_pos (frag_of_word t) = Z.of_nat (length ws) + 1 ->
  trailer_pad_len (frag_of_word t)
  = 4 * Z.of_nat (length ws) - Z.of_nat (length region) ->
  let r := nau8360_reply_from_dsp ci (Z.of_nat (length region))
             (Some (region ++ post)) addr d in
  fst r = (0, Some (firstn (length region) (words_bytes ws) ++ post)) /\
  nreads (snd r) = (nreads d1 + length ws + 1)%nat /\
  (forall l, Forall is_byte l -> length l = length region ->
             ws = payload_words l -> fst r = (0, Some (l ++ post))).
Proof.
  intros Hp Hd Hl Hr Hg Ht Tl Tp r.
  assert (R : fst r = (0, Some (firstn (length region) (words_bytes ws) ++ post))
              /\ nreads (snd r) = (nreads d1 + length ws + 1)%nat).
  { subst r.
    rewrite (reply_from_dsp_body ci _ (region ++ post) addr d _ d1 Hd Hr)
      by lia.
    unfold reply_body. rewrite Hp.
    replace (Z.to_nat (Z.of_nat (length ws) + 1 - 1)) with (length ws) by lia.
    destruct (payload_loop_readback ci addr ws [] region post d1 Hp Hl Hg)
      as (p' & d' & E & O & N & W).
    cbn [app length] in E. rewrite E. cbn [negb Z.eqb d_dev d_buf d_count].
    assert (G : good_read d' 0 t).
    { destruct Ht as [A B]. unfold good_read. rewrite O, N, Nat.add_0_r.
      now split. }
    rewrite (good_read_step addr d' t G). cbn [negb Z.eqb].
    rewrite Tl, Z.eqb_refl. cbn [negb]. rewrite Tp.
    replace ((Z.of_nat (length ws) + 1 - 1) * NAU8360_DSP_DATA_BYTE
             - (Z.of_nat (length region) - 0))
      with (4 * Z.of_nat (length ws) - Z.of_nat (length region))
      by (unfold NAU8360_DSP_DATA_BYTE; lia).
    rewrite Z.eqb_refl. cbn [negb fst snd]. split; [reflexivity|].
    rewrite nreads_read, N. lia. }
  destruct R as [R1 R2]. split; [assumption|]. split; [assumption|].
  intros l Hb Hll ->. rewrite R1. f_equal. f_equal. f_equal.
  rewrite words_bytes_payload, (map_u8_bytes l Hb).
  rewrite <- Hll, <- (Nat.add_0_r (length l)), firstn_app_2.
  cbn [firstn]. apply app_nil_r.
Qed.

(** GetKcsSetup asked for six bytes into an eight-byte buffer; the DSP
    replies with the two words the encoder makes of the bytes 0x11..0x66
    and a trailer declaring three fragments and the padding 2. *)
Lemma readback_stores_payload_witness :
  fst (nau8360_reply_from_dsp
         (nau8360_dsp_cmd_table NAU8360_DSP_CMD_GET_KCS_SETUP) 6
         (Some ([0; 0; 0; 0; 0; 0] ++ [9; 9])) 0xF000
         (replay [0x0003b2a1; 0x44332211; 0x00006655; 0x00002003]))
  = (0, Some ([0x11; 0x22; 0x33; 0x44; 0x55; 0x66] ++ [9; 9])).
Proof.
  apply (readback_stores_payload
           (nau8360_dsp_cmd_table NAU8360_DSP_CMD_GET_KCS_SETUP)
           [0x44332211; 0x00006655] [0; 0; 0; 0; 0; 0] [9; 9] 0xF000
           (replay [0x0003b2a1; 0x44332211; 0x00006655; 0x00002003])
           (snd (nau8360_dsp_replied 0xF000
                   (replay [0x0003b2a1; 0x44332211; 0x00006655; 0x00002003])))
           0x00002003).
  - reflexivity.
  - reflexivity.
  - reflexivity.
  - reflexivity.
  - intros j Hj. destruct j as [|[|j]]; [split; reflexivity ..|].
    cbn [length] in Hj. lia.
  - split; reflexivity.
  - reflexivity.
  - reflexivity.
  - repeat constructor; unfold is_byte; lia.
  - reflexivity.
  - reflexivity.
Defined.

(** X6.  A reply that is one fragment longer than a request of 4k bytes
    needs: the decoder stores the k words, stores the low byte of the
    extra fragment behind them, at offset 4k of the buffer, one byte past
    what was asked for, and reads no further payload.  The call then
    succeeds exactly when the trailer declares k + 2 fragments and the
    padding 3. *)
Theorem overlong_reply_stores_extra_byte (ci : nau8360_cmd_info)
    (ws region : list Z) (x y : Z) (post : list Z) (addr : Z) (d d1 : dev)
    (t : Z) :
  msg_param ci = true -> reply_data ci = true ->
  length region = (4 * length ws)%nat ->
  nau8360_dsp_replied addr d = (0, Z.of_nat (length ws) + 2, d1) ->
  (forall j, (j < length ws)%nat -> good_read d1 j (nth j ws 0)) ->
  good_read d1 (length ws) x ->
  good_read d1 (length ws + 1) t ->
  let r := nau8360_reply_from_dsp ci (Z.of_nat (length region))
             (Some (region ++ y :: post)) addr d in
  snd (fst r) = Some (words_bytes ws ++ b0 (frag_of_word x) :: post) /\
  fst (fst r)
  = (if (trailer_len_pos (frag_of_word t) =? Z.of_nat (length ws) + 2)
        && (trailer_pad_len (frag_of_word t) =? 3)
     then 0 else - EPROTO) /\
  nreads (snd r) = (nreads d1 + length ws + 2)%nat.
Proof.
  intros Hp Hd Hl Hr Hg Hx Ht r. subst r.
  rewrite (reply_from_dsp_body ci _ (region ++ y :: post) addr d _ d1 Hd Hr)
    by lia.
  unfold reply_body. rewrite Hp.
  replace (Z.to_nat (Z.of_nat (length ws) + 2 - 1)) with (length ws + 1)%nat
    by lia.
  destruct (payload_loop_words ci addr 1 ws [] region (y :: post)
              (Z.of_nat (length region)) d1 Hp Hl)
    as (d' & E & O & N & W); [lia | assumption |].
  cbn [app length Nat.add] in E. rewrite E.
  replace (Z.of_nat (length region) - 4 * Z.of_nat (length ws)) with 0 by lia.
  cbn [payload_loop d_dev d_count d_buf d_pos].
  assert (Gx : good_read d' 0 x).
  { destruct Hx as [A B]. unfold good_read. rewrite O, N, Nat.add_0_r.
    now split. }
  rewrite (good_read_step addr d' x Gx). cbn [negb Z.eqb]. rewrite Hp.
  change (NAU8360_DSP_DATA_BYTE <=? 0) with false. cbv iota.
  rewrite <- (length_words_bytes ws).
  rewrite (copy_loop_spent (words_bytes ws) y post x 0) by lia.
  cbn [negb Z.eqb d_dev d_buf d_count].
  assert (Gt : good_read (snd (regmap_read addr d')) 0 t).
  { apply good_read_shift. destruct Ht as [A B]. unfold good_read.
    rewrite O, N. replace (nreads d1 + length ws + 1)%nat
      with (nreads d1 + (length ws + 1))%nat by lia. now split. }
  rewrite (good_read_step addr _ t Gt). cbn [negb Z.eqb].
  replace ((Z.of_nat (length ws) + 2 - 1) * NAU8360_DSP_DATA_BYTE
           - (Z.of_nat (length region) - (0 - 1))) with 3
    by (unfold NAU8360_DSP_DATA_BYTE; lia).
  assert (Nr : nreads (snd (regmap_read addr (snd (regmap_read addr d'))))
               = (nreads d1 + length ws + 2)%nat)
    by (rewrite !nreads_read, N; lia).
  destruct (trailer_len_pos (frag_of_word t) =? Z.of_nat (length ws) + 2);
    cbn [negb andb fst snd]; [|auto].
  destruct (trailer_pad_len (frag_of_word t) =? 3); cbn [negb fst snd]; auto.
Qed.

(** GetKcsResults asked for four bytes, with one more byte of memory
    behind the four; the DSP replies with two payload words and a trailer
    declaring three fragments and the padding 3: the call succeeds and
    the fifth byte is overwritten. *)
Lemma overlong_reply_stores_extra_byte_witness :
  fst (nau8360_reply_from_dsp
         (nau8360_dsp_cmd_table NAU8360_DSP_CMD_GET_KCS_RSLTS) 4
         (Some ([0; 0; 0; 0] ++ [0x55])) 0xF000
         (replay [0x0003b2a1; 0x11223344; 0xaabbccdd; 0x00003003]))
  = (0, Some ([0x44; 0x33; 0x22; 0x11] ++ [0xdd])).
Proof.
  destruct (overlong_reply_stores_extra_byte
              (nau8360_dsp_cmd_table NAU8360_DSP_CMD_GET_KCS_RSLTS)
              [0x11223344] [0; 0; 0; 0] 0xaabbccdd 0x55 [] 0xF000
              (replay [0x0003b2a1; 0x11223344; 0xaabbccdd; 0x00003003])
              (snd (nau8360_dsp_replied 0xF000
                      (replay [0x0003b2a1; 0x11223344; 0xaabbccdd; 0x00003003])))
              0x00003003) as (A & B & _).
  - reflexivity.
  - reflexivity.
  - reflexivity.
  - reflexivity.
  - intros j Hj. destruct j as [|j]; [split; reflexivity|].
    cbn [length] in Hj. lia.
  - split; reflexivity.
  - split; reflexivity.
  - cbv zeta in A, B.
    destruct (nau8360_reply_from_dsp _ _ _ _ _) as [[ret buf] d'].
    cbn [fst snd] in *. rewrite A, B. reflexivity.
Defined.

(** ** The accesses of an upload *)

(** X7.  [nau8360_dsp_kcs_setup] returns for every offset, size, buffer
    and device, and every register access it makes goes to the mailbox it
    was given.  With a NULL buffer it returns [-EINVAL], and with size 0
    (and an offset of at most 3072) it returns 0, without any access in
    both cases. *)
Theorem upload_stays_on_mailbox (offset size : Z) (data : option (list Z))
    (addr get_len0 : Z) (kcs_rst0 : list Z) (d : dev) :
  exists ret d',
    nau8360_dsp_kcs_setup offset size data addr get_len0 kcs_rst0 d
    = Some (ret, d') /\
    run_at addr d d' /\
    (data = None -> ret = - EINVAL /\ d' = d) /\
    (size = 0 -> offset <= NAU8360_DSP_KCS_OFFSET_MAX -> data <> None ->
     ret = 0 /\ d' = d).
Proof.
  destruct (kcs_setup_returns offset size data addr get_len0 kcs_rst0 d)
    as (ret & d' & E).
  exists ret, d'. split; [assumption|].
  split; [eapply kcs_setup_at; eassumption|]. split.
  - intros ->. cbn in E. injection E as <- <-. auto.
  - intros -> Ho Hd. destruct data as [buf|]; [|now elim Hd].
    unfold nau8360_dsp_kcs_setup, dsp_kcs_setup in E.
    assert (G : (NAU8360_DSP_KCS_DAT_LEN_MAX <? 0)
                || (NAU8360_DSP_KCS_OFFSET_MAX <? offset) = false).
    { apply orb_false_iff. split; [reflexivity | apply Z.ltb_ge; lia]. }
    rewrite G in E. cbn in E. injection E as <- <-. auto.
Qed.

(** ** Commands sent to both DSP cores *)

(** X8.  [nau8360_send_dsp_broadcast] runs the exchange with the first
    mailbox to its end before it touches the second one: its accesses are
    those of the exchange with the first mailbox, all at that register,
    followed by accesses at the second register only.  When the first
    exchange fails, the broadcast returns its value and the second mailbox
    is not accessed at all; the broadcast returns 0 only if the first
    exchange did.  A failed register read is the last access of the
    broadcast, and the broadcast returns its value.  The two registers
    are the entries of [nau8360_dsp_addr]. *)
Theorem broadcast_left_then_right (RF000 RF002 cmd : Z)
    (kcs : option nau8360_kcs_setup) (d : dev) :
  let a0 := u16 RF000 in
  let a1 := u16 RF002 in
  let l := nau8360_send_dsp_command cmd kcs a0 d in
  let r := nau8360_send_dsp_broadcast RF000 RF002 cmd kcs d in
  exists esL esR,
    trace (snd l) = trace d ++ esL /\
    trace (snd r) = trace d ++ esL ++ esR /\
    Forall (fun e => ev_addr e = a0) esL /\
    Forall (fun e => ev_addr e = a1) esR /\
    (fst (fst l) <> 0 -> r = l /\ esR = []) /\
    (fst (fst r) = 0 -> fst (fst l) = 0) /\
    stops_at_failure (fst (fst r)) (esL ++ esR).
Proof.
  intros a0 a1 l r. subst l r.
  unfold nau8360_send_dsp_broadcast, nau8360_dsp_addr. fold a0 a1.
  rewrite broadcast_loop_two.
  destruct (send_at cmd kcs a0 d) as (esL & [_ TL] & AL & SL).
  destruct (nau8360_send_dsp_command cmd kcs a0 d) as [[ret buf] d1].
  cbn [fst snd] in *.
  destruct (ret =? 0) eqn:E; cbn [negb].
  - apply Z.eqb_eq in E. subst ret.
    destruct (send_at cmd (option_map (fun ks => with_get_data ks buf) kcs)
                a1 d1) as (esR & [_ TR] & AR & SR).
    destruct (nau8360_send_dsp_command cmd _ a1 d1) as [[ret2 buf2] d2].
    cbn [fst snd] in *.
    exists esL, esR. split; [assumption|].
    assert (T : trace d2 = trace d ++ esL ++ esR)
      by (rewrite TR, TL; now rewrite app_assoc).
    assert (S : stops_at_failure ret2 (esL ++ esR))
      by (apply stops_clean_prefix; [now apply stops_zero | assumption]).
    destruct (ret2 =? 0) eqn:E2; cbn [negb fst snd].
    + apply Z.eqb_eq in E2. subst ret2.
      repeat (split; [assumption|]).
      split; [intros N; now elim N|]. split; [reflexivity | assumption].
    + repeat (split; [assumption|]).
      split; [intros N; now elim N|]. split; [reflexivity | assumption].
  - apply Z.eqb_neq in E. cbn [fst snd].
    exists esL, []. rewrite app_nil_r.
    repeat (split; [assumption|]). split; [constructor|].
    split; [auto|]. split; [intros Z0; now elim E | assumption].
Qed.

(** X9.  [nau8360_dsp_clock_event] returns [-EINVAL] without any register
    access for every event other than PRE_PMU and POST_PMD.  For these
    two, whatever the uninitialised structure on its stack holds and
    whatever the device does, it writes at most one word to each mailbox:
    the bare preamble of ClkRestart (0x0030B2A1) for PRE_PMU, of ClkStop
    (0x002CB2A1) for POST_PMD, to the first mailbox and then to the
    second; when it returns 0 both words have been written.  The two
    mailboxes are the entries of [nau8360_dsp_addr]. *)
Theorem clock_event_writes (RF000 RF002 event : Z) (junk : nau8360_kcs_setup)
    (d : dev) :
  let a0 := u16 RF000 in
  let a1 := u16 RF002 in
  let r := nau8360_dsp_clock_event RF000 RF002 event junk d in
  let w := if event =? SND_SOC_DAPM_PRE_PMU then 0x0030b2a1 else 0x002cb2a1 in
  (event <> SND_SOC_DAPM_PRE_PMU -> event <> SND_SOC_DAPM_POST_PMD ->
   r = (- EINVAL, d)) /\
  (event = SND_SOC_DAPM_PRE_PMU \/ event = SND_SOC_DAPM_POST_PMD ->
   exists es,
     trace (snd r) = trace d ++ es /\
     (writes_of es = [] \/ writes_of es = [(a0, w)] \/
      writes_of es = [(a0, w); (a1, w)]) /\
     (fst r = 0 -> writes_of es = [(a0, w); (a1, w)])).
Proof.
  intros a0 a1 r w. subst r.
  assert (G : forall cmd,
    nau8360_dsp_commands cmd = true ->
    msg_param (nau8360_dsp_cmd_table cmd) = false ->
    let r := nau8360_send_dsp_broadcast RF000 RF002 cmd (Some junk) d in
    let w := word_of_frag (preamble_frag cmd 0) in
    exists es,
      trace (snd r) = trace d ++ es /\
      (writes_of es = [] \/ writes_of es = [(a0, w)] \/
       writes_of es = [(a0, w); (a1, w)]) /\
      (fst (fst r) = 0 -> writes_of es = [(a0, w); (a1, w)])).
  { intros cmd Hc Hp r0 w0. subst r0 w0.
    unfold nau8360_send_dsp_broadcast, nau8360_dsp_addr. fold a0 a1.
    rewrite broadcast_loop_two.
    destruct (bare_send_writes cmd junk a0 d Hc Hp)
      as (esL & [_ TL] & _ & _ & WL & ZL).
    destruct (nau8360_send_dsp_command cmd (Some junk) a0 d)
      as [[ret buf] d1].
    cbn [fst snd option_map] in *.
    destruct (ret =? 0) eqn:E; cbn [negb].
    - apply Z.eqb_eq in E. subst ret. specialize (ZL eq_refl).
      destruct (bare_send_writes cmd (with_get_data junk buf) a1 d1 Hc Hp)
        as (esR & [_ TR] & _ & _ & WR & ZR).
      destruct (nau8360_send_dsp_command cmd _ a1 d1) as [[ret2 buf2] d2].
      cbn [fst snd] in *.
      assert (T : trace d2 = trace d ++ esL ++ esR)
        by (rewrite TR, TL; now rewrite app_assoc).
      exists (esL ++ esR). rewrite writes_of_app, ZL.
      destruct (ret2 =? 0) eqn:E2; cbn [negb fst snd].
      + apply Z.eqb_eq in E2. subst ret2. rewrite (ZR eq_refl).
        split; [assumption|]. split; [right; right; reflexivity | reflexivity].
      + apply Z.eqb_neq in E2. split; [assumption|]. split.
        * destruct WR as [-> | ->]; [right; left | right; right]; reflexivity.
        * intros Z0. now elim E2.
    - apply Z.eqb_neq in E. cbn [fst snd]. exists esL.
      split; [assumption|]. split.
      + destruct WL as [-> | ->]; [left | right; left]; reflexivity.
      + intros Z0. now elim E. }
  split.
  - intros N1 N2. unfold nau8360_dsp_clock_event.
    apply Z.eqb_neq in N1, N2. now rewrite N1, N2.
  - intros [-> | ->]; subst w; unfold nau8360_dsp_clock_event.
    + change (SND_SOC_DAPM_PRE_PMU =? SND_SOC_DAPM_PRE_PMU) with true.
      cbv iota.
      destruct (G NAU8360_DSP_CMD_CLK_RESTART eq_refl eq_refl)
        as (es & T & W & Z0).
      destruct (nau8360_send_dsp_broadcast RF000 RF002
                  NAU8360_DSP_CMD_CLK_RESTART (Some junk) d) as [[ret buf] d'].
      cbn [fst snd] in *. exists es.
      destruct (ret =? 0) eqn:E; cbn [negb fst snd].
      * apply Z.eqb_eq in E. auto.
      * apply Z.eqb_neq in E. split; [assumption|]. split; [assumption|].
        intros Z1. now elim E.
    + change (SND_SOC_DAPM_POST_PMD =? SND_SOC_DAPM_PRE_PMU) with false.
      change (SND_SOC_DAPM_POST_PMD =? SND_SOC_DAPM_POST_PMD) with true.
      cbv iota.
      destruct (G NAU8360_DSP_CMD_CLK_STOP eq_refl eq_refl)
        as (es & T & W & Z0).
      destruct (nau8360_send_dsp_broadcast RF000 RF002
                  NAU8360_DSP_CMD_CLK_STOP (Some junk) d) as [[ret buf] d'].
      cbn [fst snd] in *. exists es.
      destruct (ret =? 0) eqn:E; cbn [negb fst snd].
      * apply Z.eqb_eq in E. auto.
      * apply Z.eqb_neq in E. split; [assumption|]. split; [assumption|].
        intros Z1. now elim E.
Qed.

(** PRE_PMU on two cores that acknowledge: one ClkRestart preamble per
    mailbox, the first mailbox first. *)
Lemma clock_event_writes_witness :
  fst (nau8360_dsp_clock_event 0xF000 0xF002 SND_SOC_DAPM_PRE_PMU ks_query
         dev_ack_twice) = 0 /\
  writes_of (trace (snd (nau8360_dsp_clock_event 0xF000 0xF002
                           SND_SOC_DAPM_PRE_PMU ks_query dev_ack_twice)))
  = [(0xF000, 0x0030b2a1); (0xF002, 0x0030b2a1)].
Proof.
  split; [reflexivity|].
  destruct (clock_event_writes 0xF000 0xF002 SND_SOC_DAPM_PRE_PMU ks_query
              dev_ack_twice) as [_ H].
  destruct (H (or_introl eq_refl)) as (es & T & _ & Z0).
  rewrite T. cbn [dev_ack_twice script trace app]. apply Z0. reflexivity.
Defined.


(** ** The fixed-width queries *)

(** X10.  [nau8360_dsp_get_cmd_put] assigns three of the five fields of
    the structure it passes on.  For every command without parameters
    (GetCounter, GetFrameStatus, GetRevision: the commands it is called
    with) what it returns, what it leaves behind [value] and what it does
    to the device do not depend on what the two other fields,
    [set_kcs_offset] and [set_kcs_data], happen to hold. *)
Theorem fixed_query_ignores_unset_fields (addr cmd : Z)
    (value : option (list Z)) (joff joff' : Z) (jdata jdata' : option (list Z))
    (d : dev) :
  msg_param (nau8360_dsp_cmd_table cmd) = false ->
  nau8360_dsp_get_cmd_put addr cmd value joff jdata d
  = nau8360_dsp_get_cmd_put addr cmd value joff' jdata' d.
Proof.
  intros Hp. rewrite !get_cmd_put_eq. unfold nau8360_send_dsp_command.
  cbn [set_len set_kcs_offset set_kcs_data get_len get_data].
  destruct (nau8360_dsp_commands cmd) eqn:Hc; cbn [negb]; [|reflexivity].
  destruct (table_cmd_id cmd Hc) as (_ & _ & Hs).
  assert (Hsd : setup_data (nau8360_dsp_cmd_table cmd) = false).
  { destruct (setup_data (nau8360_dsp_cmd_table cmd)); [|reflexivity].
    rewrite Hs in Hp by reflexivity. discriminate. }
  rewrite Hp, Hsd. cbn [andb orb].
  destruct (reply_data (nau8360_dsp_cmd_table cmd) && is_null value);
    [reflexivity|].
  assert (Hk : (cmd =? NAU8360_DSP_CMD_GET_KCS_SETUP) = false).
  { apply Z.eqb_neq. intros ->. discriminate Hp. }
  rewrite Hk. cbn [andb].
  unfold nau8360_massage_to_dsp. rewrite Hp. reflexivity.
Qed.

(** GetCounter with two different contents of the unset fields. *)
Lemma fixed_query_ignores_unset_fields_witness :
  nau8360_dsp_get_cmd_put 0xF000 NAU8360_DSP_CMD_GET_COUNTER
    (Some [0; 0; 0; 0]) 77 (Some [1; 2; 3]) dev_counter
  = nau8360_dsp_get_cmd_put 0xF000 NAU8360_DSP_CMD_GET_COUNTER
      (Some [0; 0; 0; 0]) 0 None dev_counter.
Proof.
  apply (fixed_query_ignores_unset_fields 0xF000 NAU8360_DSP_CMD_GET_COUNTER
           (Some [0; 0; 0; 0]) 77 0 (Some [1; 2; 3]) None dev_counter).
  reflexivity.
Defined.

(** ** Loading a firmware image into one DSP core *)

(** X11.  [nau8360_dsp_chan_kcs_setup] first asks the DSP for its frame
    status.  Whatever makes this query fail (time-out, bus error, a reply
    that reports a status, a trailer that does not match) the function
    returns [-EIO]; it returns [-EIO] as well when the query succeeds and
    bit 0 (ALGO_OK) of the status is clear.  In both cases the result is
    the same whatever the firmware loader would answer, the recorded
    image size is unchanged, all accesses went to the mailbox of this
    core (the register number [dsp_addr] as the [unsigned short] the
    dispatcher takes), and the only word that can have been written is
    the preamble of the query, 0x0024B2A1. *)
Theorem chan_setup_not_ready (request_firmware : Z * list Z) (addr : Z)
    (stack : chan_stack) (kcs_setup_size : Z) (d : dev) :
  let q := nau8360_dsp_get_cmd_put addr NAU8360_DSP_CMD_GET_FRAME_STATUS
             (Some (int_bytes (k_status stack))) (k_offset stack)
             (k_data stack) d in
  let status := match snd (fst q) with
                | Some b => int_of_bytes b
                | None => 0
                end in
  fst (fst q) <> 0 \/ Z.land status NAU8360_DSP_ALGO_OK = 0 ->
  nau8360_dsp_chan_kcs_setup request_firmware addr stack kcs_setup_size d
  = Some (- EIO, kcs_setup_size, snd q) /\
  (forall answer,
     nau8360_dsp_chan_kcs_setup answer addr stack kcs_setup_size d
     = nau8360_dsp_chan_kcs_setup request_firmware addr stack kcs_setup_size
         d) /\
  run_at (u16 addr) d (snd q) /\
  (written (snd q) = written d \/ written (snd q) = written d ++ [0x0024b2a1]).
Proof.
  intros q status H.
  destruct (frame_status_query_writes addr (Some (int_bytes (k_status stack)))
              (k_offset stack) (k_data stack) d) as (A & W & _).
  fold q in A, W.
  assert (E : forall rf,
            nau8360_dsp_chan_kcs_setup rf addr stack kcs_setup_size d
            = Some (- EIO, kcs_setup_size, snd q)).
  { intros rf. unfold nau8360_dsp_chan_kcs_setup. fold q. subst status.
    destruct q as [[ret st] d1]. cbn [fst snd] in *.
    destruct H as [N | Z0].
    - apply Z.eqb_neq in N. rewrite N. reflexivity.
    - rewrite Z0. cbn [Z.eqb]. now rewrite orb_true_r. }
  split; [apply E|]. split; [|split; assumption].
  intros answer. now rewrite !E.
Qed.

(** A DSP that answers the status query with the status word 2: bit 0 is
    clear. *)
Lemma chan_setup_not_ready_witness :
  nau8360_dsp_chan_kcs_setup (0, [1; 2; 3; 4]) 0xF000
    (mkStack 0 0 None 0 [0; 0; 0; 0]) 0
    (script [ok 0xf4f3f2f1; ok 0x0002b2a1; ok 0x00000002; ok 0x00000002])
  = Some (- EIO, 0,
          snd (nau8360_dsp_get_cmd_put 0xF000 NAU8360_DSP_CMD_GET_FRAME_STATUS
                 (Some (int_bytes 0)) 0 None
                 (script [ok 0xf4f3f2f1; ok 0x0002b2a1; ok 0x00000002;
                          ok 0x00000002]))).
Proof.
  apply (chan_setup_not_ready (0, [1; 2; 3; 4]) 0xF000
           (mkStack 0 0 None 0 [0; 0; 0; 0]) 0
           (script [ok 0xf4f3f2f1; ok 0x0002b2a1; ok 0x00000002;
                    ok 0x00000002])).
  right. reflexivity.
Defined.

(** X12.  When the DSP acknowledges the status query with an empty reply
    (preamble with reply-id 0 and fragment count 0), the exchange succeeds
    without storing anything, and [nau8360_dsp_chan_kcs_setup] tests bit 0
    of what its variable [status] held before the call: with the bit
    clear it returns [-EIO]; with the bit set it goes on to request the
    firmware, and returns the error of that request if it fails.  The
    mailbox is the register number [dsp_addr] as the [unsigned short] the
    dispatcher takes. *)
Theorem chan_setup_empty_status_reply (request_firmware : Z * list Z)
    (addr : Z) (stack : chan_stack) (kcs_setup_size : Z) (d d0 d2 : dev) :
  nau8360_dsp_idle (u16 addr) d = (0, d0) ->
  nau8360_dsp_replied (u16 addr)
    (snd_soc_component_write (u16 addr) 0x0024b2a1 d0)
  = (0, 0, d2) ->
  let r := nau8360_dsp_chan_kcs_setup request_firmware addr stack
             kcs_setup_size d in
  (Z.land (k_status stack) NAU8360_DSP_ALGO_OK = 0 ->
   r = Some (- EIO, kcs_setup_size, d2)) /\
  (Z.land (k_status stack) NAU8360_DSP_ALGO_OK <> 0 ->
   fst request_firmware <> 0 ->
   r = Some (fst request_firmware, kcs_setup_size, d2)).
Proof.
  intros Hi Hr r. subst r. unfold nau8360_dsp_chan_kcs_setup.
  rewrite get_cmd_put_eq.
  rewrite send_accepted by reflexivity. cbv zeta.
  rewrite (massage_bare
             (nau8360_dsp_cmd_table NAU8360_DSP_CMD_GET_FRAME_STATUS)
             _ _ _ _ (u16 addr) d d0 Hi eq_refl).
  cbn [negb Z.eqb].
  change (word_of_frag
            (preamble_frag
               (cmd_id (nau8360_dsp_cmd_table NAU8360_DSP_CMD_GET_FRAME_STATUS))
               (message_frag_len
                  (nau8360_dsp_cmd_table NAU8360_DSP_CMD_GET_FRAME_STATUS)
                  (set_len (mkKcs sizeof_int (k_offset stack) (k_data stack)
                                  sizeof_int
                                  (Some (int_bytes (k_status stack))))))))
    with 0x0024b2a1.
  unfold nau8360_reply_from_dsp.
  change (reply_data (nau8360_dsp_cmd_table NAU8360_DSP_CMD_GET_FRAME_STATUS))
    with true.
  cbn [negb get_data]. rewrite Hr. cbn [negb Z.eqb].
  rewrite int_status_bit.
  split.
  - intros Z0. rewrite Z0. reflexivity.
  - intros N Ne. apply Z.eqb_neq in N. rewrite N. cbn [orb].
    destruct request_firmware as [e img]. cbn [fst] in *.
    apply Z.eqb_neq in Ne. rewrite Ne. reflexivity.
Qed.

(** An idle DSP that answers the status query with an empty reply; the
    status variable holds 0 before the call. *)
Lemma chan_setup_empty_status_reply_witness :
  nau8360_dsp_chan_kcs_setup (0, [1; 2; 3; 4]) 0xF000
    (mkStack 0 0 None 0 [0; 0; 0; 0]) 0
    (script [ok 0xf4f3f2f1; ok 0x0000b2a1])
  = Some (- EIO, 0,
          snd (nau8360_dsp_replied 0xF000
                 (snd_soc_component_write 0xF000 0x0024b2a1
                    (snd (nau8360_dsp_idle 0xF000
                            (script [ok 0xf4f3f2f1; ok 0x0000b2a1])))))).
Proof.
  apply (chan_setup_empty_status_reply (0, [1; 2; 3; 4]) 0xF000
           (mkStack 0 0 None 0 [0; 0; 0; 0]) 0
           (script [ok 0xf4f3f2f1; ok 0x0000b2a1])
           (snd (nau8360_dsp_idle 0xF000 (script [ok 0xf4f3f2f1; ok 0x0000b2a1])))
           (snd (nau8360_dsp_replied 0xF000
                   (snd_soc_component_write 0xF000 0x0024b2a1
                      (snd (nau8360_dsp_idle 0xF000
                              (script [ok 0xf4f3f2f1; ok 0x0000b2a1]))))))).
  - reflexivity.
  - reflexivity.
  - reflexivity.
Defined.

(** X13.  [nau8360_dsp_chan_kcs_setup] returns for every firmware
    outcome, stack content and device, and all its register accesses go
    to the mailbox of the core it was called for (the register number
    [dsp_addr] as the [unsigned short] the callees take).  It records the
    image size before it uploads: the size it leaves recorded is the
    previous one or, once the image was obtained, the image size, whether
    the upload succeeded or not.  When it returns 0, the status query
    succeeded with bit 0 of the status set, the image was obtained, has
    at most 1024 bytes, its size is recorded, the upload of the whole
    image from offset 0 returned 0 on the device the query left, and the
    first word written was the preamble of the status query. *)
Theorem chan_setup_returns (request_firmware : Z * list Z) (addr : Z)
    (stack : chan_stack) (kcs_setup_size : Z) (d : dev) :
  let q := nau8360_dsp_get_cmd_put addr NAU8360_DSP_CMD_GET_FRAME_STATUS
             (Some (int_bytes (k_status stack))) (k_offset stack)
             (k_data stack) d in
  let status := match snd (fst q) with
                | Some b => int_of_bytes b
                | None => 0
                end in
  let img := snd request_firmware in
  exists ret size' d',
    nau8360_dsp_chan_kcs_setup request_firmware addr stack kcs_setup_size d
    = Some (ret, size', d') /\
    run_at (u16 addr) d d' /\
    (size' = kcs_setup_size \/
     fst request_firmware = 0 /\ size' = Z.of_nat (length img)) /\
    (ret = 0 ->
     fst (fst q) = 0 /\ Z.land status NAU8360_DSP_ALGO_OK <> 0 /\
     fst request_firmware = 0 /\
     Z.of_nat (length img) <= NAU8360_DSP_KCS_DAT_LEN_MAX /\
     size' = Z.of_nat (length img) /\
     nau8360_dsp_kcs_setup 0 (Z.of_nat (length img)) (Some img) (u16 addr)
       (k_get_len stack) (k_kcs_rst stack) (snd q) = Some (0, d') /\
     exists ws, written d' = written d ++ 0x0024b2a1 :: ws).
Proof.
  intros q status img.
  destruct (chan_kcs_setup_returns request_firmware addr stack kcs_setup_size d)
    as (ret & s' & d' & E & A & S & Z0).
  exists ret, s', d'. split; [assumption|]. split; [assumption|].
  split; [assumption|]. intros R. subst ret.
  destruct (Z0 eq_refl) as (F & L & Sz & W).
  unfold nau8360_dsp_chan_kcs_setup in E. fold q in E.
  subst status img.
  destruct q as [[ret st] d1]. cbn [fst snd] in *.
  destruct request_firmware as [e fw]. cbn [fst snd] in *. subst e.
  destruct (ret =? 0) eqn:Er; cbn [negb orb] in E; [|discriminate E].
  apply Z.eqb_eq in Er.
  destruct (Z.land _ NAU8360_DSP_ALGO_OK =? 0) eqn:Eb; [discriminate E|].
  apply Z.eqb_neq in Eb. cbn [Z.eqb negb] in E.
  destruct (nau8360_dsp_kcs_setup 0 (Z.of_nat (length fw)) (Some fw)
              (u16 addr) (k_get_len stack) (k_kcs_rst stack) d1)
    as [[r x]|] eqn:K;
    [|discriminate E].
  destruct (r =? 0) eqn:Ek; cbn [negb] in E.
  - apply Z.eqb_eq in Ek. injection E as _ <-. subst r.
    repeat (split; [first [assumption | reflexivity]|]). assumption.
  - apply Z.eqb_neq in Ek. injection E as E1 _ _. now elim Ek.
Qed.

(** A core that reports ALGO_OK and takes a four-byte image: the setup
    returns 0 and records the size 4. *)
Lemma chan_setup_returns_witness :
  setup_view (nau8360_dsp_chan_kcs_setup (fw4 0%nat) 0xF000 (stack0 0%nat) 0
                dev_core_ready) = Some (0, 4) /\
  exists d',
    nau8360_dsp_kcs_setup 0 4 (Some [1; 2; 3; 4]) 0xF000 0 [0; 0; 0; 0]
      (snd (nau8360_dsp_get_cmd_put 0xF000 NAU8360_DSP_CMD_GET_FRAME_STATUS
              (Some (int_bytes 0)) 0 None dev_core_ready))
    = Some (0, d').
Proof.
  split; [vm_compute; reflexivity|].
  destruct (chan_setup_returns (fw4 0%nat) 0xF000 (stack0 0%nat) 0
              dev_core_ready) as (ret & s' & d' & E & _ & _ & H).
  assert (V : setup_view (nau8360_dsp_chan_kcs_setup (fw4 0%nat) 0xF000
                            (stack0 0%nat) 0 dev_core_ready) = Some (0, 4))
    by (vm_compute; reflexivity).
  rewrite E in V. cbn [setup_view] in V. injection V as R _.
  destruct (H R) as (_ & _ & _ & _ & _ & K & _).
  exists d'. exact K.
Defined.


(** ** Loading the firmware into both DSP cores *)

(** X14.  [nau8360_dsp_set_kcs_setup] (so [nau8360_dsp_reinit], and the
    first step of [nau8360_dsp_init]) returns for every pair of firmware
    outcomes and every device.  It sets up the core behind the first
    mailbox completely before it touches the second mailbox; when the
    first core fails, it returns that error and the second mailbox is not
    accessed.  When it returns 0, both images were obtained, each has at
    most 1024 bytes, and the image size left recorded is that of the
    second image.  The two mailboxes are the entries of
    [nau8360_dsp_addr]. *)
Theorem setup_left_then_right (RF000 RF002 : Z) (firmware : nat -> Z * list Z)
    (stack : nat -> chan_stack) (kcs_setup_size : Z) (d : dev) :
  let a0 := u16 RF000 in
  let a1 := u16 RF002 in
  exists ret size' d' esL esR,
    nau8360_dsp_set_kcs_setup RF000 RF002 firmware stack kcs_setup_size d
    = Some (ret, size', d') /\
    trace d' = trace d ++ esL ++ esR /\
    Forall (fun e => ev_addr e = a0) esL /\
    Forall (fun e => ev_addr e = a1) esR /\
    (forall retL sL dL,
       nau8360_dsp_chan_kcs_setup (firmware 0%nat) a0 (stack 0%nat)
         kcs_setup_size d = Some (retL, sL, dL) ->
       retL <> 0 -> ret = retL /\ size' = sL /\ d' = dL /\ esR = []) /\
    (ret = 0 ->
     fst (firmware 0%nat) = 0 /\ fst (firmware 1%nat) = 0 /\
     Z.of_nat (length (snd (firmware 0%nat))) <= NAU8360_DSP_KCS_DAT_LEN_MAX /\
     Z.of_nat (length (snd (firmware 1%nat))) <= NAU8360_DSP_KCS_DAT_LEN_MAX /\
     size' = Z.of_nat (length (snd (firmware 1%nat)))).
Proof.
  intros a0 a1.
  unfold nau8360_dsp_set_kcs_setup, nau8360_dsp_addr. fold a0 a1.
  cbn [set_kcs_setup_loop].
  destruct (chan_kcs_setup_returns (firmware 0%nat) a0 (stack 0%nat)
              kcs_setup_size d)
    as (retL & sL & dL & EL & (esL & [_ TL] & AL) & _ & ZL).
  unfold a0 in AL at 1. rewrite u16_idem in AL. fold a0 in AL.
  rewrite EL.
  destruct (retL =? 0) eqn:E; cbn [negb].
  - apply Z.eqb_eq in E. subst retL.
    destruct (ZL eq_refl) as (F0 & L0 & _ & _).
    destruct (chan_kcs_setup_returns (firmware 1%nat) a1 (stack 1%nat) sL dL)
      as (retR & sR & dR & ER & (esR & [_ TR] & AR) & _ & ZR).
    unfold a1 in AR at 1. rewrite u16_idem in AR. fold a1 in AR.
    rewrite ER.
    assert (T : trace dR = trace d ++ esL ++ esR)
      by (rewrite TR, TL; now rewrite app_assoc).
    destruct (retR =? 0) eqn:E2; cbn [negb].
    + apply Z.eqb_eq in E2. subst retR.
      destruct (ZR eq_refl) as (F1 & L1 & S1 & _).
      exists 0, sR, dR, esL, esR. split; [reflexivity|].
      repeat (split; [assumption|]). split.
      * intros r s x H N. injection H as H _ _. now elim N.
      * intros _. auto.
    + apply Z.eqb_neq in E2.
      exists retR, sR, dR, esL, esR. split; [reflexivity|].
      repeat (split; [assumption|]). split.
      * intros r s x H N. injection H as H _ _. now elim N.
      * intros Z0. now elim E2.
  - apply Z.eqb_neq in E.
    exists retL, sL, dL, esL, []. rewrite app_nil_r. split; [reflexivity|].
    repeat (split; [assumption|]). split; [constructor|]. split.
    + intros r s x H N. injection H as -> -> ->. auto.
    + intros Z0. now elim E.
Qed.

(** Two cores that report ALGO_OK and take a four-byte image each: the
    setup returns 0 with the size 4 recorded. *)
Lemma setup_left_then_right_witness :
  setup_view (nau8360_dsp_set_kcs_setup 0xF000 0xF002 fw4 stack0 0
                dev_cores_ready) = Some (0, 4) /\
  fst (fw4 1%nat) = 0 /\ Z.of_nat (length (snd (fw4 1%nat))) <= 1024.
Proof.
  split; [vm_compute; reflexivity|].
  destruct (setup_left_then_right 0xF000 0xF002 fw4 stack0 0 dev_cores_ready)
    as (ret & s' & d' & esL & esR & E & _ & _ & _ & _ & H).
  assert (V : setup_view (nau8360_dsp_set_kcs_setup 0xF000 0xF002 fw4 stack0 0
                            dev_cores_ready) = Some (0, 4))
    by (vm_compute; reflexivity).
  rewrite E in V. cbn [setup_view] in V. injection V as R _.
  destruct (H R) as (_ & F1 & _ & L1 & _). split; assumption.
Defined.


(** ** Clock dividers (nau8360.c) *)

(** X15.  [dyn_clk_div] returns the least divider setting: either a value
    r in 0..div_max such that fin / (r + 1) <= fout while every smaller
    setting leaves the clock above fout, or [-EINVAL], and then no setting
    in 0..div_max brings the clock down to fout.  For frequencies that are
    not negative the result is fin / (fout + 1) when this is at most
    div_max, and [-EINVAL] otherwise. *)
Theorem dyn_clk_div_least_divider (div_max fin fout : Z) :
  let r := dyn_clk_div div_max fin fout in
  ((0 <= r <= div_max /\ Z.quot fin (r + 1) <= fout /\
    forall k, 0 <= k < r -> fout < Z.quot fin (k + 1))
   \/
   (r = - EINVAL /\
    forall k, 0 <= k <= div_max -> fout < Z.quot fin (k + 1))) /\
  (0 <= fin -> 0 <= fout ->
   r = if fin / (fout + 1) <=? div_max then fin / (fout + 1) else - EINVAL).
Proof.
  intros r. subst r. unfold dyn_clk_div.
  destruct (dyn_clk_div_loop_spec div_max fin fout
              (Z.to_nat (div_max + 1) + 1) 0) as [P0 P]; [lia | lia | lia |].
  set (x := dyn_clk_div_loop _ _ _ _ _) in *.
  assert (S : (x <= div_max /\ Z.quot fin (x + 1) <= fout /\
               (forall k, 0 <= k < x -> fout < Z.quot fin (k + 1)) /\
               (if div_max <? x then - EINVAL else x) = x)
              \/
              (div_max < x /\
               (forall k, 0 <= k <= div_max -> fout < Z.quot fin (k + 1)) /\
               (if div_max <? x then - EINVAL else x) = - EINVAL)).
  { destruct P as [(A & B & C) | (A & B)].
    - left. repeat (split; [assumption|]).
      destruct (div_max <? x) eqn:E; [apply Z.ltb_lt in E; lia | reflexivity].
    - right. repeat (split; [assumption|]).
      destruct (div_max <? x) eqn:E; [reflexivity | apply Z.ltb_ge in E; lia]. }
  clear P. split.
  - destruct S as [(A & B & C & ->) | (A & B & ->)]; [left | right]; auto.
  - intros Hf Ho.
    destruct S as [(A & B & C & ->) | (A & B & ->)].
    + assert (Q : fin / (fout + 1) = x).
      { apply (quot_le_iff fin fout x Hf Ho P0) in B.
        destruct (Z.eq_dec x 0) as [Z0 |].
        - pose proof (Z.div_pos fin (fout + 1) Hf ltac:(lia)). lia.
        - specialize (C (x - 1) ltac:(lia)).
          assert (~ fin / (fout + 1) <= x - 1).
          { intros H. apply (quot_le_iff fin fout (x - 1) Hf Ho) in H; lia. }
          lia. }
      rewrite Q.
      destruct (x <=? div_max) eqn:E; [reflexivity | apply Z.leb_gt in E; lia].
    + destruct (fin / (fout + 1) <=? div_max) eqn:E; [|reflexivity].
      apply Z.leb_le in E.
      pose proof (Z.div_pos fin (fout + 1) Hf ltac:(lia)) as Q0.
      specialize (B div_max ltac:(lia)).
      apply (quot_le_iff fin fout div_max Hf Ho ltac:(lia)) in E. lia.
Qed.

(** 48 MHz down to at most 12.288 MHz with a 3-bit divider field: the
    setting 3, which divides by 4. *)
Lemma dyn_clk_div_least_divider_witness :
  dyn_clk_div 7 48000000 12288000 = 3.
Proof.
  destruct (dyn_clk_div_least_divider 7 48000000 12288000) as [_ H].
  rewrite H by lia. reflexivity.
Defined.


(** X16.  [tab_clk_div], called with a table and its length, returns the
    index of the first table entry that brings the clock down to
    6.144 MHz, or [-EINVAL] when no entry does.  With the driver's tables
    and a frequency that is not negative it fails exactly from
    61 440 010 Hz on for the I/V-sense table, and from 49 152 008 Hz on
    for the DAC table. *)
Theorem tab_clk_div_first_match (tab : list Z) (fin : Z) :
  let r := tab_clk_div tab (Z.of_nat (length tab)) fin in
  ((0 <= r < Z.of_nat (length tab) /\
    Z.quot fin (nth (Z.to_nat r) tab 0) <= CLK_DA_IVSNS_MAX /\
    forall k, 0 <= k < r ->
      CLK_DA_IVSNS_MAX < Z.quot fin (nth (Z.to_nat k) tab 0))
   \/
   (r = - EINVAL /\
    forall k, 0 <= k < Z.of_nat (length tab) ->
      CLK_DA_IVSNS_MAX < Z.quot fin (nth (Z.to_nat k) tab 0))) /\
  (0 <= fin ->
   (tab_clk_div ivsns_clk_div 6 fin = - EINVAL <-> 61440010 <= fin) /\
   (tab_clk_div dac_clk_div 4 fin = - EINVAL <-> 49152008 <= fin)).
Proof.
  assert (G : forall tab,
    let r := tab_clk_div tab (Z.of_nat (length tab)) fin in
    (0 <= r < Z.of_nat (length tab) /\
     Z.quot fin (nth (Z.to_nat r) tab 0) <= CLK_DA_IVSNS_MAX /\
     forall k, 0 <= k < r ->
       CLK_DA_IVSNS_MAX < Z.quot fin (nth (Z.to_nat k) tab 0))
    \/
    (r = - EINVAL /\
     forall k, 0 <= k < Z.of_nat (length tab) ->
       CLK_DA_IVSNS_MAX < Z.quot fin (nth (Z.to_nat k) tab 0))).
  { intros t r. subst r. unfold tab_clk_div.
    destruct (tab_clk_div_loop_spec t fin (Z.to_nat (Z.of_nat (length t)) + 1) 0)
      as [P0 P]; [lia | lia | lia |].
    set (x := tab_clk_div_loop _ _ _ _ _) in *.
    destruct P as [(A & B & C) | (A & B)].
    - left. destruct (x =? Z.of_nat (length t)) eqn:E;
        [apply Z.eqb_eq in E; lia | auto].
    - right. destruct (x =? Z.of_nat (length t)) eqn:E;
        [auto | apply Z.eqb_neq in E; lia]. }
  intros r. split; [apply G|]. intros Hf.
  assert (Q : forall c, 0 < c ->
            (CLK_DA_IVSNS_MAX < Z.quot fin c <-> (CLK_DA_IVSNS_MAX + 1) * c <= fin)).
  { intros c Hc. rewrite Z.quot_div_nonneg by lia. unfold CLK_DA_IVSNS_MAX.
    split; intros H.
    - pose proof (Z.mul_div_le fin c Hc). nia.
    - assert (6144001 <= fin / c) by (apply Z.div_le_lower_bound; lia). lia. }
  split.
  - pose proof (G ivsns_clk_div) as H. cbv zeta in H.
    change (Z.of_nat (length ivsns_clk_div)) with 6 in H.
    split.
    + intros E. rewrite E in H.
      destruct H as [(A & _) | (_ & B)]; [unfold EINVAL in A; lia|].
      specialize (B 5 ltac:(lia)). change (nth (Z.to_nat 5) ivsns_clk_div 0)
        with 10 in B. apply Q in B; [|lia]. unfold CLK_DA_IVSNS_MAX in B. lia.
    + intros L. destruct H as [(A & B & _) | (E & _)]; [|assumption].
      exfalso.
      assert (C : forall c, In c ivsns_clk_div ->
                  CLK_DA_IVSNS_MAX < Z.quot fin c).
      { intros c Hin. apply Q; unfold ivsns_clk_div in Hin; cbn [In] in Hin;
          unfold CLK_DA_IVSNS_MAX; lia. }
      specialize (C (nth (Z.to_nat (tab_clk_div ivsns_clk_div 6 fin))
                         ivsns_clk_div 0)).
      assert (In (nth (Z.to_nat (tab_clk_div ivsns_clk_div 6 fin))
                      ivsns_clk_div 0) ivsns_clk_div)
        by (apply nth_In; change (length ivsns_clk_div) with 6%nat; lia).
      specialize (C H). lia.
  - pose proof (G dac_clk_div) as H. cbv zeta in H.
    change (Z.of_nat (length dac_clk_div)) with 4 in H.
    split.
    + intros E. rewrite E in H.
      destruct H as [(A & _) | (_ & B)]; [unfold EINVAL in A; lia|].
      specialize (B 3 ltac:(lia)). change (nth (Z.to_nat 3) dac_clk_div 0)
        with 8 in B. apply Q in B; [|lia]. unfold CLK_DA_IVSNS_MAX in B. lia.
    + intros L. destruct H as [(A & B & _) | (E & _)]; [|assumption].
      exfalso.
      assert (C : forall c, In c dac_clk_div ->
                  CLK_DA_IVSNS_MAX < Z.quot fin c).
      { intros c Hin. apply Q; unfold dac_clk_div in Hin; cbn [In] in Hin;
          unfold CLK_DA_IVSNS_MAX; lia. }
      specialize (C (nth (Z.to_nat (tab_clk_div dac_clk_div 4 fin))
                         dac_clk_div 0)).
      assert (In (nth (Z.to_nat (tab_clk_div dac_clk_div 4 fin))
                      dac_clk_div 0) dac_clk_div)
        by (apply nth_In; change (length dac_clk_div) with 4%nat; lia).
      specialize (C H). lia.
Qed.

(** 61.44001 MHz is the first frequency no entry of the I/V-sense table
    brings down to 6.144 MHz. *)
Lemma tab_clk_div_first_match_witness :
  tab_clk_div ivsns_clk_div 6 61440010 = - EINVAL.
Proof.
  destruct (tab_clk_div_first_match ivsns_clk_div 61440010) as [_ H].
  destruct H as [[_ H] _]; [lia|]. apply H. lia.
Defined.


(** ** The PLL parameters (nau8360.c) *)

(** X17.  When [nau8360_calc_pll] succeeds (with the internal source,
    for which the code does not check the input frequency: on an input
    of 0 .. 2^31 - 1), it leaves source and frequencies of the
    structure as they were, and: msel is the least divider in 1..32 that
    brings the input to a reference of at most 8 MHz, and the reference
    is at least 1 Hz; rsel is the least multiplier in 1..4 that brings
    the output to a VCO frequency of at least 50 MHz, which is then at
    most 125 MHz; nsel and xsel are the low 8 bits of the integer part
    and the 12 fraction bits of fvco / fref, rounded down.  For a source
    other than the internal one, msel is at most 4, nsel lies in 6..125,
    and no bit of the ratio is lost: nsel * 4096 + xsel is the ratio. *)
Theorem calc_pll_least_dividers (internal : Z) (pll : nau8360_pll) :
  (src pll = internal -> 0 <= input pll < 2 ^ 31) ->
  fst (nau8360_calc_pll internal pll) = 0 ->
  let p := snd (nau8360_calc_pll internal pll) in
  let ratio := output pll * rsel p * 4096 / (input pll / msel p) in
  pll_settled pll p /\
  PLL_FOUT_MIN <= output pll <= PLL_FOUT_MAX /\
  0 <= xsel p < 4096 /\ 0 <= nsel p < 256 /\
  (src pll <> internal ->
   PLL_FREQ_MIN <= input pll <= PLL_FREQ_MAX /\
   msel p <= 4 /\ 6 <= nsel p <= 125 /\
   nsel p * 4096 + xsel p = ratio).
Proof.
  intros Hint Hz p ratio.
  assert (Hi : 0 <= input pll).
  { destruct (Z.eq_dec (src pll) internal) as [e | n]; [apply (Hint e)|].
    destruct (Z_le_gt_dec 0 (input pll)) as [|G]; [assumption|].
    exfalso. unfold nau8360_calc_pll in Hz.
    apply Z.eqb_neq in n. rewrite n in Hz.
    assert (L : (input pll <? PLL_FREQ_MIN) = true)
      by (apply Z.ltb_lt; unfold PLL_FREQ_MIN; lia).
    rewrite L, orb_true_r in Hz. cbn [negb andb fst] in Hz.
    discriminate Hz. }
  destruct (calc_pll_cases internal pll Hi)
    as [(_ & E) | [(_ & _ & E & _) | (Ni & No & Hin & _ & S)]].
  - rewrite E in Hz. discriminate.
  - rewrite E in Hz. discriminate.
  - fold p in S. split; [assumption|].
    destruct S as (_ & _ & _ & Sm & Sf & Sl & Sr & Sv & _ & Sx & Sn).
    fold ratio in Sx, Sn.
    unfold PLL_FOUT_MIN, PLL_FOUT_MAX, PLL_FREQ_MIN, PLL_FREQ_MAX,
      PLL_FREF_MAX, PLL_FVCO_MIN, MSEL_MAX, RSEL_MAX in *.
    split; [lia|].
    split; [rewrite Sx; apply Z.mod_pos_bound; lia|].
    split; [rewrite Sn; apply Z.mod_pos_bound; lia|].
    intros Ns. assert (In : 1000000 <= input pll <= 32000000) by lia.
    split; [assumption|].
    assert (M4 : msel p <= 4).
    { destruct (Z_le_gt_dec (msel p) 4) as [|G]; [assumption|].
      specialize (Sl 4 ltac:(lia)).
      pose proof (Z.mul_div_le (input pll) 4 ltac:(lia)). lia. }
    assert (F1 : 1000000 <= input pll / msel p).
    { apply Z.div_le_lower_bound; [lia|].
      destruct (Z.eq_dec (msel p) 1) as [-> |]; [lia|].
      specialize (Sl (msel p - 1) ltac:(lia)).
      pose proof (Z.mul_div_le (input pll) (msel p - 1) ltac:(lia)). nia. }
    assert (R1 : 25600 <= ratio).
    { unfold ratio. apply Z.div_le_lower_bound; lia. }
    assert (R2 : ratio <= 512000).
    { unfold ratio. apply Z.lt_succ_r.
      apply Z.div_lt_upper_bound; lia. }
    split; [assumption|].
    assert (Nn : nsel p = ratio / 4096).
    { rewrite Sn. apply Z.mod_small. split.
      - apply Z.div_pos; lia.
      - apply Z.div_lt_upper_bound; lia. }
    split.
    + rewrite Nn. split.
      * apply Z.div_le_lower_bound; lia.
      * apply Z.lt_succ_r. apply Z.div_lt_upper_bound; lia.
    + rewrite Nn, Sx. pose proof (Z.div_mod ratio 4096 ltac:(lia)). lia.
Qed.

(** 12.288 MHz in, 122.88 MHz out: the reference is the input divided by
    2, the VCO runs at the output frequency, and the ratio is 20.0; and
    the internal source at 48 MHz, where the reference is the input
    divided by 6. *)
Lemma calc_pll_least_dividers_witness :
  snd (nau8360_calc_pll 2 (mkPll 0 12288000 122880000 0 0 0 0))
  = mkPll 0 12288000 122880000 2 1 20 0 /\
  20 * 4096 + 0 = 122880000 * 1 * 4096 / (12288000 / 2) /\
  msel (snd (nau8360_calc_pll 2 (mkPll 2 48000000 122880000 0 0 0 0))) = 6 /\
  pll_settled (mkPll 2 48000000 122880000 0 0 0 0)
    (snd (nau8360_calc_pll 2 (mkPll 2 48000000 122880000 0 0 0 0))).
Proof.
  destruct (calc_pll_least_dividers 2 (mkPll 0 12288000 122880000 0 0 0 0))
    as (_ & _ & _ & _ & H).
  - discriminate.
  - reflexivity.
  - split; [reflexivity|].
    destruct H as (_ & _ & _ & E); [discriminate|].
    split; [exact E|].
    split; [reflexivity|].
    destruct (calc_pll_least_dividers 2 (mkPll 2 48000000 122880000 0 0 0 0))
      as (S & _).
    + intros _. cbn [input]. lia.
    + reflexivity.
    + exact S.
Defined.

(** X18.  [nau8360_calc_pll] (the input frequency being a value of
    0 .. 2^31 - 1) returns 0, [-EINVAL] or [-ERANGE].  It returns
    [-EINVAL], and leaves the structure untouched, exactly when the
    output frequency is outside 12.5..125 MHz or the source is not the
    internal one and the input frequency is outside 1..32 MHz.  It
    returns [-ERANGE] exactly when the source is the internal one, the
    output frequency is in range and the input frequency is 0 or at least
    256 000 032 Hz: never for another source, and never because of the
    VCO multiplier. *)
Theorem calc_pll_errors (internal : Z) (pll : nau8360_pll) :
  0 <= input pll < 2 ^ 31 ->
  let r := nau8360_calc_pll internal pll in
  let bad_in := src pll <> internal /\
                (PLL_FREQ_MAX < input pll \/ input pll < PLL_FREQ_MIN) in
  let bad_out := PLL_FOUT_MAX < output pll \/ output pll < PLL_FOUT_MIN in
  (fst r = 0 \/ fst r = - EINVAL \/ fst r = - ERANGE) /\
  (fst r = - EINVAL <-> bad_in \/ bad_out) /\
  (fst r = - EINVAL -> snd r = pll) /\
  (fst r = - ERANGE <->
   src pll = internal /\ ~ bad_out /\
   (input pll = 0 \/ 256000032 <= input pll)) /\
  (fst r = 0 <-> ~ bad_in /\ ~ bad_out /\ 1 <= input pll < 256000032).
Proof.
  intros [Hi _] r bad_in bad_out.
  pose proof (calc_pll_cases internal pll Hi) as K. cbv zeta in K.
  subst r bad_in bad_out.
  destruct K as [(B & E) | [(Ni & No & E & C) | (Ni & No & Hin & E & _)]].
  - rewrite E. cbn [fst snd].
    split; [auto|]. split; [tauto|]. split; [auto|].
    split; [split; [discriminate|]|split; [discriminate|]]; tauto.
  - rewrite E.
    assert (Si : src pll = internal).
    { destruct (Z.eq_dec (src pll) internal) as [|N]; [assumption|].
      exfalso. apply Ni. split; [assumption|].
      unfold PLL_FREQ_MAX, PLL_FREQ_MIN. lia. }
    split; [auto|]. split; [split; [discriminate | tauto]|].
    split; [discriminate|]. split; [tauto|].
    split; [discriminate|]. intros (_ & _ & H). lia.
  - rewrite E. split; [auto|]. split; [split; [discriminate | tauto]|].
    split; [discriminate|].
    split; [split; [discriminate|]|tauto]. intros (_ & _ & H). lia.
Qed.

(** The internal source with no input frequency: [-ERANGE]. *)
Lemma calc_pll_errors_witness :
  fst (nau8360_calc_pll 2 (mkPll 2 0 122880000 0 0 0 0)) = - ERANGE.
Proof.
  destruct (calc_pll_errors 2 (mkPll 2 0 122880000 0 0 0 0))
    as (_ & _ & _ & [_ H] & _).
  - cbn. lia.
  - apply H. cbn [src input output].
    unfold PLL_FOUT_MAX, PLL_FOUT_MIN. split; [reflexivity|]. split; lia.
Defined.

(** ** The sawtooth parameters (nau8360.c) *)

(** X19.  [nau8360_sawtooth_params], given two valid pointers, succeeds
    exactly for a battery voltage of 8..24 V; otherwise it returns
    [-ERANGE] and writes through neither pointer.  On success the level
    is 1, 2 or 3, the slope is the level less one, and a higher voltage
    never gives a lower level.  With a NULL pointer it returns [-EINVAL]
    and writes nothing. *)
Theorem sawtooth_params_bands (vbat vbat' l0 s0 : Z) :
  let r := nau8360_sawtooth_params vbat (Some l0) (Some s0) in
  let r' := nau8360_sawtooth_params vbat' (Some l0) (Some s0) in
  (fst (fst r) = 0 <-> 8 <= vbat <= 24) /\
  (fst (fst r) <> 0 -> r = (- ERANGE, Some l0, Some s0)) /\
  (fst (fst r) = 0 ->
   exists lv, snd (fst r) = Some lv /\ snd r = Some (lv - 1) /\ 1 <= lv <= 3) /\
  (forall lv lv', 8 <= vbat -> vbat <= vbat' -> vbat' <= 24 ->
     snd (fst r) = Some lv -> snd (fst r') = Some lv' -> lv <= lv') /\
  (forall s, nau8360_sawtooth_params vbat None s = (- EINVAL, None, s)) /\
  (forall l, nau8360_sawtooth_params vbat l None = (- EINVAL, l, None)).
Proof.
  intros r r'. subst r r'. unfold nau8360_sawtooth_params.
  cbn [is_null orb].
  split; [|split; [|split; [|split; [|split]]]].
  - destruct (24 <? vbat) eqn:A; cbn [orb fst].
    + apply Z.ltb_lt in A. split; [discriminate | lia].
    + apply Z.ltb_ge in A. destruct (vbat <? 8) eqn:B; cbn [fst].
      * apply Z.ltb_lt in B. split; [discriminate | lia].
      * apply Z.ltb_ge in B.
        destruct (vbat <? 13); [|destruct (vbat <? 19)]; cbn [fst];
          split; intros; [lia | reflexivity | lia | reflexivity | lia
                         | reflexivity].
  - destruct ((24 <? vbat) || (vbat <? 8)); [reflexivity|].
    destruct (vbat <? 13); [|destruct (vbat <? 19)]; cbn [fst]; intros N;
      now elim N.
  - destruct ((24 <? vbat) || (vbat <? 8)); [discriminate|].
    destruct (vbat <? 13); [|destruct (vbat <? 19)]; cbn [fst snd]; intros _;
      [exists 1 | exists 2 | exists 3]; repeat split; lia.
  - intros lv lv' H1 H2 H3.
    assert (A : (24 <? vbat) || (vbat <? 8) = false).
    { apply orb_false_iff. split; [apply Z.ltb_ge | apply Z.ltb_ge]; lia. }
    assert (A' : (24 <? vbat') || (vbat' <? 8) = false).
    { apply orb_false_iff. split; [apply Z.ltb_ge | apply Z.ltb_ge]; lia. }
    rewrite A, A'.
    destruct (vbat <? 13) eqn:B1; [|destruct (vbat <? 19) eqn:B2];
      (destruct (vbat' <? 13) eqn:C1; [|destruct (vbat' <? 19) eqn:C2]);
      cbn [fst snd]; intros E E'; inversion E; inversion E'; subst;
      try lia;
      repeat match goal with
             | H : (_ <? _) = true |- _ => apply Z.ltb_lt in H
             | H : (_ <? _) = false |- _ => apply Z.ltb_ge in H
             end; lia.
  - reflexivity.
  - intros l. destruct l; reflexivity.
Qed.

(** ** The I2C framing of register accesses (nau8360.c) *)

(** X20.  What [nau8360_reg_write] sends for a register and what
    [nau8360_reg_read] parses fit together.  The write sends the register
    number as two bytes, high byte first, followed by the value: two
    bytes, high byte first, for a codec register (the value is cut to 16
    bits), four bytes in host order for a DSP mailbox.  On a bus that
    answers a read of that register number with these value bytes,
    [nau8360_reg_read] sends the same two register bytes and returns the
    value written: all 32 bits for a mailbox, the low 16 bits otherwise.
    The write reports success exactly when all bytes were sent; a read
    whose transfer did not complete both messages fails and leaves the
    caller's variable as it was. *)
Theorem reg_access_round_trip (RF000 RF002 reg value value0 : Z) :
  0 <= value < 2 ^ 32 ->
  let dsp := is_dsp_comm RF000 RF002 reg in
  let buf := reg_write_buf RF000 RF002 reg value in
  let echo := fun (reg_buf : list Z) (len : Z) =>
                if list_eq_dec Z.eq_dec reg_buf (firstn 2 buf)
                then (2, firstn (Z.to_nat len) (skipn 2 buf))
                else (- EIO, []) in
  Z.of_nat (length buf) = (if dsp then 6 else 4) /\
  nau8360_reg_read RF000 RF002 echo reg value0
  = (0, if dsp then value else value mod 2 ^ 16) /\
  (forall send,
     nau8360_reg_write RF000 RF002 send reg value = 0
     <-> send buf = Z.of_nat (length buf)) /\
  (forall xfer,
     fst (xfer [u8 (Z.shiftr reg 8); u8 reg] (if dsp then 4 else 2)) <> 2 ->
     fst (nau8360_reg_read RF000 RF002 xfer reg value0) <> 0 /\
     snd (nau8360_reg_read RF000 RF002 xfer reg value0) = value0).
Proof.
  intros Hv dsp buf echo. subst dsp buf echo.
  unfold nau8360_reg_read, nau8360_reg_write, reg_write_buf.
  destruct (is_dsp_comm RF000 RF002 reg); cbn [negb app firstn length].
  - split; [reflexivity|]. split; [|split].
    + destruct (list_eq_dec _ _ _) as [_|N]; [|now elim N].
      cbn [Z.ltb Z.compare Z.eqb negb Pos.eqb].
      change (Z.to_nat 4) with 4%nat. cbn [skipn firstn frag_bytes nth].
      f_equal. apply (word_of_frag_of_word value Hv).
    + intros send. cbn [frag_bytes length Z.of_nat Pos.of_succ_nat Pos.succ].
      destruct (send _ =? 6) eqn:E; [apply Z.eqb_eq in E; tauto|].
      apply Z.eqb_neq in E. destruct (send _ <? 0) eqn:L.
      * apply Z.ltb_lt in L. split; [lia | tauto].
      * split; [discriminate | tauto].
    + intros xfer N. destruct (xfer _ _) as [ret b]. cbn [fst] in N.
      destruct (ret <? 0) eqn:L; cbn [fst snd].
      * apply Z.ltb_lt in L. split; [lia | reflexivity].
      * apply Z.eqb_neq in N. rewrite N. cbn [negb fst snd].
        split; [discriminate | reflexivity].
  - split; [reflexivity|]. split; [|split].
    + destruct (list_eq_dec _ _ _) as [_|N]; [|now elim N].
      cbn [Z.ltb Z.compare Z.eqb negb Pos.eqb].
      change (Z.to_nat 2) with 2%nat. cbn [skipn firstn nth].
      f_equal. rewrite Z.lor_comm.
      rewrite lor_shiftl_low by (try lia; apply u8_range).
      unfold u8. rewrite Z.shiftr_div_pow2 by lia.
      change (2 ^ 8) with 256. change (2 ^ 16) with 65536.
      Z.div_mod_to_equations. lia.
    + intros send. cbn [length Z.of_nat Pos.of_succ_nat Pos.succ].
      destruct (send _ =? 4) eqn:E; [apply Z.eqb_eq in E; tauto|].
      apply Z.eqb_neq in E. destruct (send _ <? 0) eqn:L.
      * apply Z.ltb_lt in L. split; [lia | tauto].
      * split; [discriminate | tauto].
    + intros xfer N. destruct (xfer _ _) as [ret b]. cbn [fst] in N.
      destruct (ret <? 0) eqn:L; cbn [fst snd].
      * apply Z.ltb_lt in L. split; [lia | reflexivity].
      * apply Z.eqb_neq in N. rewrite N. cbn [negb fst snd].
        split; [discriminate | reflexivity].
Qed.

(** The word 0x0004B2A1 written to a mailbox at 0xF000, and the value
    0x12345 written to the codec register 0x40. *)
Lemma reg_access_round_trip_witness :
  reg_write_buf 0xF000 0xF002 0xF000 0x0004b2a1
  = [0xf0; 0x00; 0xa1; 0xb2; 0x04; 0x00] /\
  reg_write_buf 0xF000 0xF002 0x40 0x12345 = [0x00; 0x40; 0x23; 0x45] /\
  nau8360_reg_read 0xF000 0xF002
    (fun reg_buf len =>
       if list_eq_dec Z.eq_dec reg_buf
            (firstn 2 (reg_write_buf 0xF000 0xF002 0x40 0x12345))
       then (2, firstn (Z.to_nat len)
                  (skipn 2 (reg_write_buf 0xF000 0xF002 0x40 0x12345)))
       else (- EIO, []))
    0x40 0
  = (0, 0x2345).
Proof.
  split; [reflexivity|]. split; [reflexivity|].
  destruct (reg_access_round_trip 0xF000 0xF002 0x40 0x12345 0) as (_ & E & _).
  - lia.
  - exact E.
Defined.

(** ** The NAU83G10/20 driver (nau8310-dsp.c) *)

(** X21.  On a request that carries a reply buffer, for each of the six
    commands that have reply data in the NAU83G60 table (the three
    queries, GetKcsResults, GetKcsSetup, SetKcsSetup), the dispatcher of
    the NAU83G10/20 driver and the dispatcher of the NAU83G60 driver,
    given the same mailbox register, do the same: same register accesses,
    same return value, same reply buffer, on every device.  This holds
    although SetKcsSetup has no reply data in the NAU83G10/20 table and
    its decoder has no separate path for such commands.  They differ in
    what they reject and how: a request the NAU83G60 dispatcher rejects is
    rejected by the other one with [-EINVAL], and a GetKcsSetup for
    exactly 1024 bytes, which the NAU83G60 dispatcher accepts, is rejected
    by the other one, whose cap is 1023. *)
Theorem nau8310_exchange_agrees (RF cmd : Z) (ks : nau8360_kcs_setup)
    (d : dev) :
  get_data ks <> None ->
  reply_data (nau8360_dsp_cmd_table cmd) = true ->
  let r := nau8310_send_dsp_command RF cmd (Some ks) d in
  let r' := nau8360_send_dsp_command cmd (Some ks) RF d in
  (request_check cmd ks = 0 ->
   (cmd = NAU8360_DSP_CMD_GET_KCS_SETUP -> set_len ks <> 1024) -> r = r') /\
  (request_check cmd ks <> 0 ->
   r = (- EINVAL, get_data ks, d) /\ r' = (request_check cmd ks, get_data ks, d)) /\
  (cmd = NAU8360_DSP_CMD_GET_KCS_SETUP -> set_len ks = 1024 ->
   r = (- EINVAL, get_data ks, d)).
Proof.
  intros Hg Hr r r'. subst r r'.
  split; [|split].
  - intros Hc Hl. now apply nau8310_send_eq.
  - intros N. split; [|now apply send_rejected].
    destruct (nau8310_table cmd) as (_ & Tm & Ts & _).
    assert (Gn : is_null (get_data ks) = false)
      by (destruct (get_data ks); [reflexivity | now elim Hg]).
    unfold request_check in N. unfold nau8310_send_dsp_command.
    change (nau8310_dsp_commands cmd) with (nau8360_dsp_commands cmd).
    destruct (negb (nau8360_dsp_commands cmd)); [reflexivity|].
    rewrite Tm, Ts, Gn, !andb_false_r, !orb_false_r in *.
    destruct ((msg_param (nau8360_dsp_cmd_table cmd) && (set_len ks =? 0))
              || (setup_data (nau8360_dsp_cmd_table cmd)
                  && is_null (set_kcs_data ks))); [reflexivity|].
    destruct (cmd =? NAU8360_DSP_CMD_GET_KCS_SETUP); cbn [andb] in *;
      [|now elim N].
    destruct ((NAU8360_DSP_KCS_DAT_LEN_MAX <? set_len ks)
              || (NAU8360_DSP_KCS_OFFSET_MAX <? set_kcs_offset ks)) eqn:Ec;
      [|now elim N].
    assert (E : (NAU8310_DSP_KCS_DAT_LEN_MAX <? set_len ks)
                || (NAU8360_DSP_KCS_OFFSET_MAX <? set_kcs_offset ks) = true).
    { apply orb_true_iff in Ec as [Ec|Ec]; [|rewrite Ec; apply orb_true_r].
      apply Z.ltb_lt in Ec. unfold NAU8360_DSP_KCS_DAT_LEN_MAX in Ec.
      assert (L : (NAU8310_DSP_KCS_DAT_LEN_MAX <? set_len ks) = true)
        by (apply Z.ltb_lt; change NAU8310_DSP_KCS_DAT_LEN_MAX with 1023; lia).
      now rewrite L. }
    now rewrite E.
  - intros -> L. unfold nau8310_send_dsp_command.
    change (nau8310_dsp_commands NAU8360_DSP_CMD_GET_KCS_SETUP) with true.
    change (nau8310_dsp_cmd_table NAU8360_DSP_CMD_GET_KCS_SETUP)
      with (mkCmd NAU8360_DSP_CMD_GET_KCS_SETUP true false true).
    cbn [negb msg_param setup_data reply_data andb orb].
    rewrite L. cbn [Z.eqb].
    destruct (is_null (get_data ks)); [reflexivity|].
    reflexivity.
Qed.

(** GetKcsResults for four bytes on an idle DSP that answers with one
    payload word. *)
Lemma nau8310_exchange_agrees_witness :
  nau8310_send_dsp_command 0xF000 NAU8360_DSP_CMD_GET_KCS_RSLTS
    (Some ks_query)
    (script [ok 0xf4f3f2f1; ok 0x0002b2a1; ok 0x11223344; ok 0x00000002])
  = nau8360_send_dsp_command NAU8360_DSP_CMD_GET_KCS_RSLTS (Some ks_query)
      0xF000
      (script [ok 0xf4f3f2f1; ok 0x0002b2a1; ok 0x11223344; ok 0x00000002]).
Proof.
  apply (nau8310_exchange_agrees 0xF000 NAU8360_DSP_CMD_GET_KCS_RSLTS ks_query
           (script [ok 0xf4f3f2f1; ok 0x0002b2a1; ok 0x11223344;
                    ok 0x00000002])).
  - discriminate.
  - reflexivity.
  - reflexivity.
  - discriminate.
Defined.

(** X22.  For every size other than 1024, [nau8310_dsp_kcs_setup] and
    [nau8360_dsp_kcs_setup] on the same mailbox register make the same
    upload: same register accesses and same return value, on every
    device; so what holds of the chunks and the retries of the one holds
    of the other.  An image of exactly 1024 bytes is uploaded by the
    NAU83G60 driver when the offset is at most 3072, and refused with
    [-EINVAL], without any access, by the NAU83G10/20 driver. *)
Theorem nau8310_upload_agrees (RF offset size : Z) (data : option (list Z))
    (get_len0 : Z) (kcs_rst0 : list Z) (d : dev) :
  (size <> 1024 ->
   nau8310_dsp_kcs_setup RF offset size data get_len0 kcs_rst0 d
   = nau8360_dsp_kcs_setup offset size data RF get_len0 kcs_rst0 d) /\
  (size = 1024 ->
   nau8310_dsp_kcs_setup RF offset size data get_len0 kcs_rst0 d
   = Some (- EINVAL, d)) /\
  (size = 1024 -> offset <= 3072 -> data <> None ->
   nau8360_dsp_kcs_setup offset size data RF get_len0 kcs_rst0 d
   <> Some (- EINVAL, d)).
Proof.
  split; [|split].
  - intros N. unfold nau8310_dsp_kcs_setup, nau8360_dsp_kcs_setup, dsp_kcs_setup.
    destruct data as [buf|]; [|reflexivity].
    assert (E : (NAU8310_DSP_KCS_DAT_LEN_MAX <? size)
                = (NAU8360_DSP_KCS_DAT_LEN_MAX <? size)).
    { change NAU8310_DSP_KCS_DAT_LEN_MAX with 1023.
      unfold NAU8360_DSP_KCS_DAT_LEN_MAX.
      destruct (1023 <? size) eqn:A, (1024 <? size) eqn:B; try reflexivity.
      - apply Z.ltb_lt in A. apply Z.ltb_ge in B. lia.
      - apply Z.ltb_ge in A. apply Z.ltb_lt in B. lia. }
    rewrite E. destruct (_ || _); [reflexivity|].
    apply nau8310_loop_eq. discriminate.
  - intros ->. unfold nau8310_dsp_kcs_setup.
    destruct data; reflexivity.
  - intros -> Ho Hd H. destruct data as [buf|]; [|now elim Hd].
    pose proof (kcs_setup_reads offset 1024 buf RF get_len0 kcs_rst0 d
                  (- EINVAL) d ltac:(lia) Ho ltac:(lia) H) as L.
    lia.
Qed.

(** The four bytes 1..4 on a DSP that accepts every command. *)
Lemma nau8310_upload_agrees_witness :
  nau8310_dsp_kcs_setup 0xF000 0 4 (Some [1; 2; 3; 4]) 0 [0; 0; 0; 0] dev_coop
  = nau8360_dsp_kcs_setup 0 4 (Some [1; 2; 3; 4]) 0xF000 0 [0; 0; 0; 0]
      dev_coop.
Proof.
  destruct (nau8310_upload_agrees 0xF000 0 4 (Some [1; 2; 3; 4]) 0
              [0; 0; 0; 0] dev_coop) as [H _].
  apply H. discriminate.
Defined.


(** ** The control handlers of the KCS setup (nau8360-dsp.c) *)

(** X23.  [nau8360_dsp_get_kcs_setup_put] never reports what the exchange
    returned: it returns 0 (nothing to do, or the exchange was run,
    whether it succeeded or failed), [-EINVAL] (playback is running, or
    no image size is recorded) or [-ENOMEM] (no buffer), and in the last
    two cases it has not touched the device.  All its accesses go to the
    mailbox the control stands for (the register number [dsp_addr] as the
    [unsigned short] the dispatcher takes).  When the recorded image size
    exceeds 1024, it does not touch the device either, and still returns
    0 if it got a buffer. *)
Theorem readback_handler_hides_failure (value0 bias_level : Z)
    (kcalloc : Z -> option (list Z)) (kcs_setup_size : Z)
    (junk_data : option (list Z)) (dsp_addr : Z) (d : dev) :
  let r := nau8360_dsp_get_kcs_setup_put value0 bias_level kcalloc
             kcs_setup_size junk_data dsp_addr d in
  (fst r = 0 \/ fst r = - EINVAL \/ fst r = - ENOMEM) /\
  (fst r <> 0 -> snd r = d) /\
  (value0 = 0 -> r = (0, d)) /\
  run_at (u16 dsp_addr) d (snd r) /\
  (forall data,
     value0 <> 0 -> bias_level <= SND_SOC_BIAS_STANDBY ->
     kcalloc kcs_setup_size = Some data -> kcs_setup_size <> 0 ->
     r = (0, snd (nau8360_send_dsp_command NAU8360_DSP_CMD_GET_KCS_SETUP
                    (Some (mkKcs kcs_setup_size 0 junk_data kcs_setup_size
                                 (Some data))) (u16 dsp_addr) d)) /\
     (NAU8360_DSP_KCS_DAT_LEN_MAX < kcs_setup_size -> r = (0, d))).
Proof.
  intros r. subst r. unfold nau8360_dsp_get_kcs_setup_put.
  destruct (value0 =? 0) eqn:E0.
  { apply Z.eqb_eq in E0. cbn [fst snd].
    split; [auto|]. split; [auto|]. split; [auto|].
    split; [apply run_at_refl|]. intros data N. now elim N. }
  apply Z.eqb_neq in E0.
  destruct (SND_SOC_BIAS_STANDBY <? bias_level) eqn:E1.
  { apply Z.ltb_lt in E1. cbn [fst snd].
    split; [auto|]. split; [auto|]. split; [intros Z0; now elim E0|].
    split; [apply run_at_refl|]. intros data _ L. lia. }
  apply Z.ltb_ge in E1.
  destruct (kcalloc kcs_setup_size) as [data|] eqn:E2.
  2:{ cbn [fst snd]. split; [auto|]. split; [auto|].
      split; [intros Z0; now elim E0|]. split; [apply run_at_refl|].
      intros data _ _ H. discriminate H. }
  destruct (kcs_setup_size =? 0) eqn:E3.
  { apply Z.eqb_eq in E3. cbn [fst snd].
    split; [auto|]. split; [auto|]. split; [intros Z0; now elim E0|].
    split; [apply run_at_refl|]. intros x _ _ _ N. now elim N. }
  pose proof (send_run_at NAU8360_DSP_CMD_GET_KCS_SETUP
                (Some (mkKcs kcs_setup_size 0 junk_data kcs_setup_size
                             (Some data))) (u16 dsp_addr) d) as A.
  destruct (nau8360_send_dsp_command _ _ _ _) as [[ret buf] d1] eqn:Es.
  cbn [fst snd] in *.
  split; [auto|]. split; [intros N; now elim N|].
  split; [intros Z0; now elim E0|]. split; [assumption|].
  intros x _ _ Hx _. injection Hx as <-. rewrite Es. cbn [snd].
  split; [reflexivity|]. intros L.
  rewrite send_rejected in Es.
  - injection Es as _ _ <-. reflexivity.
  - unfold request_check.
    change (nau8360_dsp_commands NAU8360_DSP_CMD_GET_KCS_SETUP) with true.
    change (nau8360_dsp_cmd_table NAU8360_DSP_CMD_GET_KCS_SETUP)
      with (mkCmd NAU8360_DSP_CMD_GET_KCS_SETUP true false true).
    cbn [negb msg_param setup_data reply_data set_len set_kcs_offset
              set_kcs_data get_data is_null andb orb].
    rewrite E3. cbn [orb Z.eqb].
    change (NAU8360_DSP_CMD_GET_KCS_SETUP =? NAU8360_DSP_CMD_GET_KCS_SETUP)
      with true.
    apply Z.ltb_lt in L. rewrite L. discriminate.
Qed.

(** A recorded image size of 2000: the handler returns 0 and the device
    is as before. *)
Lemma readback_handler_hides_failure_witness :
  nau8360_dsp_get_kcs_setup_put 1 0 (fun n => Some (repeat 0 (Z.to_nat n)))
    2000 None 0xF000 dev_counter
  = (0, dev_counter).
Proof.
  destruct (readback_handler_hides_failure 1 0
              (fun n => Some (repeat 0 (Z.to_nat n))) 2000 None 0xF000
              dev_counter) as (_ & _ & _ & _ & H).
  destruct (H (repeat 0 2000%nat)) as [_ E].
  - discriminate.
  - unfold SND_SOC_BIAS_STANDBY. lia.
  - reflexivity.
  - discriminate.
  - apply E. unfold NAU8360_DSP_KCS_DAT_LEN_MAX. lia.
Defined.


(** X24.  [nau8360_dsp_set_kcs_setup_put] returns for all arguments and
    all its accesses go to the mailbox the control stands for.  Written
    with 0 it does nothing and returns 0; during playback it returns
    [-EINVAL] and does nothing.  Otherwise, the two mailbox registers
    being different, it is [nau8360_dsp_chan_kcs_setup] for the core the
    control stands for, with the firmware of that core; and for a
    register that is neither mailbox it does nothing and returns 0.  The
    two mailbox registers are the entries of [nau8360_dsp_addr]. *)
Theorem setup_handler_one_channel (RF000 RF002 value0 bias_level dsp_addr : Z)
    (firmware : nat -> Z * list Z) (stack : nat -> chan_stack)
    (kcs_setup_size : Z) (d : dev) :
  let a0 := u16 RF000 in
  let a1 := u16 RF002 in
  let r := nau8360_dsp_set_kcs_setup_put RF000 RF002 value0 bias_level dsp_addr
             firmware stack kcs_setup_size d in
  (exists ret size' d', r = Some (ret, size', d') /\ run_at dsp_addr d d') /\
  (value0 = 0 -> r = Some (0, kcs_setup_size, d)) /\
  (value0 <> 0 -> SND_SOC_BIAS_STANDBY < bias_level ->
   r = Some (- EINVAL, kcs_setup_size, d)) /\
  (value0 <> 0 -> bias_level <= SND_SOC_BIAS_STANDBY -> a0 <> a1 ->
   (dsp_addr = a0 ->
    r = nau8360_dsp_chan_kcs_setup (firmware 0%nat) a0 (stack 0%nat)
          kcs_setup_size d) /\
   (dsp_addr = a1 ->
    r = nau8360_dsp_chan_kcs_setup (firmware 1%nat) a1 (stack 1%nat)
          kcs_setup_size d) /\
   (dsp_addr <> a0 -> dsp_addr <> a1 ->
    r = Some (0, kcs_setup_size, d))).
Proof.
  intros a0 a1 r. subst r.
  unfold nau8360_dsp_set_kcs_setup_put, nau8360_dsp_addr. fold a0 a1.
  assert (C : forall i s x,
            exists ret size' d',
              nau8360_dsp_chan_kcs_setup (firmware i) dsp_addr (stack i) s x
              = Some (ret, size', d') /\
              run_at (u16 dsp_addr) x d' /\
              (ret = 0 ->
               nau8360_dsp_chan_kcs_setup (firmware i) dsp_addr (stack i) s x
               = Some (0, size', d'))).
  { intros i s x.
    destruct (chan_kcs_setup_returns (firmware i) dsp_addr (stack i) s x)
      as (ret & s' & d' & E & A & _).
    exists ret, s', d'. split; [assumption|]. split; [assumption|].
    intros ->. assumption. }
  assert (U0 : (a0 =? dsp_addr) = true -> u16 dsp_addr = dsp_addr).
  { intros H. apply Z.eqb_eq in H. subst dsp_addr. apply u16_idem. }
  assert (U1 : (a1 =? dsp_addr) = true -> u16 dsp_addr = dsp_addr).
  { intros H. apply Z.eqb_eq in H. subst dsp_addr. apply u16_idem. }
  split; [|split; [|split]].
  - destruct (value0 =? 0);
      [exists 0, kcs_setup_size, d; split; [reflexivity | apply run_at_refl]|].
    destruct (SND_SOC_BIAS_STANDBY <? bias_level);
      [exists (- EINVAL), kcs_setup_size, d;
       split; [reflexivity | apply run_at_refl]|].
    cbn [set_kcs_setup_put_loop].
    destruct (a0 =? dsp_addr) eqn:E0; cbn [negb].
    + rewrite (U0 eq_refl) in C.
      destruct (C 0%nat kcs_setup_size d) as (ret & s' & d' & E & A & _).
      rewrite E. destruct (negb (ret =? 0)); [eauto|].
      destruct (negb (a1 =? dsp_addr)); [eauto|].
      destruct (C 1%nat s' d') as (ret2 & s2 & d2 & E2 & A2 & _).
      rewrite E2.
      assert (run_at dsp_addr d d2) by (eapply run_at_trans; eassumption).
      destruct (negb (ret2 =? 0)); eauto.
    + destruct (a1 =? dsp_addr) eqn:E1; cbn [negb].
      * rewrite (U1 eq_refl) in C.
        destruct (C 1%nat kcs_setup_size d) as (ret & s' & d' & E & A & _).
        rewrite E. destruct (negb (ret =? 0)); eauto.
      * exists 0, kcs_setup_size, d. split; [reflexivity | apply run_at_refl].
  - intros ->. reflexivity.
  - intros N L. apply Z.eqb_neq in N. rewrite N.
    apply Z.ltb_lt in L. now rewrite L.
  - intros N L Hd. apply Z.eqb_neq in N. rewrite N.
    assert (L' : (SND_SOC_BIAS_STANDBY <? bias_level) = false)
      by (apply Z.ltb_ge; lia).
    rewrite L'. cbn [set_kcs_setup_put_loop].
    split; [|split].
    + intros ->. rewrite Z.eqb_refl. cbn [negb].
      assert (X : (a1 =? a0) = false) by (apply Z.eqb_neq; congruence).
      rewrite X. cbn [negb].
      destruct (C 0%nat kcs_setup_size d) as (ret & s' & d' & E & _ & Z0).
      rewrite E. destruct (ret =? 0) eqn:Er; cbn [negb]; [|reflexivity].
      apply Z.eqb_eq in Er. rewrite <- E. symmetry. now apply Z0.
    + intros ->. rewrite Z.eqb_refl. cbn [negb].
      assert (X : (a0 =? a1) = false) by (apply Z.eqb_neq; congruence).
      rewrite X. cbn [negb].
      destruct (C 1%nat kcs_setup_size d) as (ret & s' & d' & E & _ & Z0).
      rewrite E. destruct (ret =? 0) eqn:Er; cbn [negb]; [|reflexivity].
      apply Z.eqb_eq in Er. rewrite <- E. symmetry. now apply Z0.
    + intros N0 N2.
      assert (X0 : (a0 =? dsp_addr) = false) by (apply Z.eqb_neq; congruence).
      assert (X2 : (a1 =? dsp_addr) = false) by (apply Z.eqb_neq; congruence).
      now rewrite X0, X2.
Qed.

(** The control of the first core, written with 1 while idle. *)
Lemma setup_handler_one_channel_witness :
  nau8360_dsp_set_kcs_setup_put 0xF000 0xF002 1 0 0xF000 fw4 stack0 0
    dev_core_ready
  = nau8360_dsp_chan_kcs_setup (fw4 0%nat) 0xF000 (stack0 0%nat) 0
      dev_core_ready.
Proof.
  destruct (setup_handler_one_channel 0xF000 0xF002 1 0 0xF000 fw4 stack0 0
              dev_core_ready) as (_ & _ & _ & H).
  destruct H as [E _].
  - discriminate.
  - unfold SND_SOC_BIAS_STANDBY. lia.
  - discriminate.
  - apply E. reflexivity.
Defined.


(** ** Bringing the DSP up (nau8360-dsp.c) *)

(** X25.  [nau8360_dsp_init] returns for all arguments.  It returns 0
    exactly when the firmware setup of both cores and the three
    registrations with the sound core all returned 0; it sets
    [dsp_created] in that case and leaves it as it was in every other; it
    registers nothing when the firmware setup failed, and the device and
    the recorded image size are what the firmware setup left.
    [nau8360_dsp_reinit] is the firmware setup alone. *)
Theorem dsp_init_all_or_nothing (RF000 RF002 : Z) (firmware : nat -> Z * list Z)
    (stack : nat -> chan_stack) (add_controls new_controls add_routes : Z)
    (dsp_created : bool) (kcs_setup_size : Z) (d : dev) :
  exists ret0 size' d' ret created,
    nau8360_dsp_set_kcs_setup RF000 RF002 firmware stack kcs_setup_size d
    = Some (ret0, size', d') /\
    nau8360_dsp_reinit RF000 RF002 firmware stack kcs_setup_size d
    = Some (ret0, size', d') /\
    nau8360_dsp_init RF000 RF002 firmware stack add_controls new_controls
      add_routes dsp_created kcs_setup_size d
    = Some (ret, created, size', d') /\
    (ret = 0 <->
     ret0 = 0 /\ add_controls = 0 /\ new_controls = 0 /\ add_routes = 0) /\
    (ret = 0 -> created = true) /\
    (ret <> 0 -> created = dsp_created) /\
    (ret0 <> 0 -> ret = ret0).
Proof.
  destruct (set_kcs_setup_returns RF000 RF002 firmware stack kcs_setup_size d)
    as (ret0 & s' & d' & E).
  unfold nau8360_dsp_init, nau8360_dsp_reinit. rewrite E.
  exists ret0, s', d'.
  destruct (ret0 =? 0) eqn:E0; cbn [negb].
  2:{ apply Z.eqb_neq in E0. exists ret0, dsp_created.
      repeat (split; [reflexivity|]).
      split; [split; [intros Z0; now elim E0 | intros (Z0 & _); assumption]|].
      split; [intros Z0; now elim E0|]. auto. }
  apply Z.eqb_eq in E0. subst ret0.
  destruct (add_controls =? 0) eqn:E1; cbn [negb].
  2:{ apply Z.eqb_neq in E1. exists add_controls, dsp_created.
      repeat (split; [reflexivity|]).
      split; [split; [intros Z0; now elim E1 | intros (_ & Z0 & _); assumption]|].
      split; [intros Z0; now elim E1|]. split; [auto | intros N; now elim N]. }
  apply Z.eqb_eq in E1.
  destruct (new_controls =? 0) eqn:E2; cbn [negb].
  2:{ apply Z.eqb_neq in E2. exists new_controls, dsp_created.
      repeat (split; [reflexivity|]).
      split; [split; [intros Z0; now elim E2
                     | intros (_ & _ & Z0 & _); assumption]|].
      split; [intros Z0; now elim E2|]. split; [auto | intros N; now elim N]. }
  apply Z.eqb_eq in E2.
  destruct (add_routes =? 0) eqn:E3; cbn [negb].
  2:{ apply Z.eqb_neq in E3. exists add_routes, dsp_created.
      repeat (split; [reflexivity|]).
      split; [split; [intros Z0; now elim E3
                     | intros (_ & _ & _ & Z0); assumption]|].
      split; [intros Z0; now elim E3|]. split; [auto | intros N; now elim N]. }
  apply Z.eqb_eq in E3. exists 0, true.
  repeat (split; [reflexivity|]).
  split; [split; auto|]. split; [reflexivity|].
  split; intros N; now elim N.
Qed.
